(** * Inference services of the RAG pipeline: reranker and embedder

    A shallow embedding of the three serving cores of the repository,

    - [reranker/main.py]: the cross-encoder reranker,
    - [reranker/reranker-qwen3.py]: the causal-LM (yes/no) reranker,
    - [src/embedding/main.py]: the bi-encoder embedder,

    together with the properties their specification states.

    Conventions of the embedding.

    - Python floats and the elements of float tensors are real numbers:
      [exp], [ln], [sqrt] and the field operations are the exact ones.
      Rounding is modelled apart, in [Float32] and [Qwen3Float32], for the
      one function whose described bounds depend on it.
    - A tensor is its shape together with its element-access function.
    - The tokenizer and the model are external callables; they live in the
      process globals, [None] until they are loaded, and every call to
      them is recorded in a call log, in order.
    - A function that may raise returns a [result]; an exception leaves the
      globals and the call log as they were when it was raised. *)

From Stdlib Require Import Reals Lra Lia String Ascii Bool Arith ZArith List.
From Stdlib Require Import Permutation.
Import ListNotations.

Set Implicit Arguments.
Set Warnings "-register-all,-abstract-large-number".

(* ================================================================== *)
(** * Python values, exceptions and the effect monad                   *)
(* ================================================================== *)

Module Py.

(** The exceptions the modelled code can raise. [Raised cls] is whatever an
    external callable (tokenizer, model, loader) raises. *)
Inductive exn : Type :=
| AssertionError (msg : string)
| IndexError
| KeyError (key : string)
| ValueError
| TypeError
| AttributeError
| RuntimeError
| ValidationError
| Raised (cls : string).

Inductive result (A : Type) : Type :=
| Ok (a : A)
| Err (e : exn).

Arguments Ok {A} a.
Arguments Err {A} e.

Definition rbind {A B} (r : result A) (k : A -> result B) : result B :=
  match r with
  | Ok a => k a
  | Err e => Err e
  end.

(** What [Tensor.tolist()] produces: a float, or a list of such values. *)
Inductive pyval : Type :=
| PyFloat (x : R)
| PyList (items : list pyval).

Definition py_floats (l : list R) : pyval := PyList (map PyFloat l).

Definition py_matrix (l : list (list R)) : pyval := PyList (map py_floats l).

(** [isinstance(v, float)] *)
Definition isinstance_float (v : pyval) : bool :=
  match v with PyFloat _ => true | PyList _ => false end.

(** Validation of a pydantic field of type [float]. *)
Definition as_float (v : pyval) : result R :=
  match v with
  | PyFloat x => Ok x
  | PyList _ => Err ValidationError
  end.

Fixpoint traverse {A B} (f : A -> result B) (l : list A) : result (list B) :=
  match l with
  | [] => Ok []
  | a :: l' =>
      rbind (f a) (fun b => rbind (traverse f l') (fun bs => Ok (b :: bs)))
  end.

(** Validation of a pydantic field of type [list[float]]. *)
Definition as_float_list (v : pyval) : result (list R) :=
  match v with
  | PyFloat _ => Err ValidationError
  | PyList items => traverse as_float items
  end.

(** Validation of a pydantic field of type [list[list[float]]]. *)
Definition as_float_matrix (v : pyval) : result (list (list R)) :=
  match v with
  | PyFloat _ => Err ValidationError
  | PyList items => traverse as_float_list items
  end.

End Py.

Import Py.

(* ================================================================== *)
(** * Tensors and the PyTorch operations the services use              *)
(* ================================================================== *)

Module Torch.

(** A tensor: its shape and its element at each index. Only indices
    inside the shape are ever read. *)
Record tensor (A : Type) : Type := mkTensor {
  shape : list nat;
  get : list nat -> A
}.

Definition Rsum (l : list R) : R := fold_right Rplus 0%R l.

(** The sum of [f j] for [j] in [0 .. n-1]. *)
Definition sum_upto (n : nat) (f : nat -> R) : R := Rsum (map f (seq 0 n)).

(** An index with its coordinate along dimension 1 replaced by [j]. *)
Definition at_dim1 (j : nat) (idx : list nat) : list nat :=
  hd 0 idx :: j :: tl idx.

(** An index with its coordinate along dimension 1 set to [j], in place. *)
Definition set_dim1 (j : nat) (idx : list nat) : list nat :=
  hd 0 idx :: j :: tl (tl idx).

Definition tmap {A B} (f : A -> B) (t : tensor A) : tensor B :=
  mkTensor (shape t) (fun idx => f (get t idx)).

(** [torch.sigmoid], elementwise, in exact arithmetic. On float32 the
    value is rounded and reaches 1 for large arguments; what is proved of
    it below are bounds and orders that are not strict, and equalities up
    to rounding. *)
Definition sigmoid_fn (x : R) : R := (1 / (1 + exp (- x)))%R.

Definition sigmoid (t : tensor R) : tensor R := tmap sigmoid_fn t.

(** [Tensor.exp()], elementwise. *)
Definition texp (t : tensor R) : tensor R := tmap exp t.

(** [Tensor.float()] of an integer tensor. *)
Definition float (t : tensor Z) : tensor R := tmap IZR t.

(** [torch.clamp(t, min=lo)], elementwise. *)
Definition clamp_min (lo : R) (t : tensor R) : tensor R := tmap (Rmax lo) t.

(** [Tensor.squeeze(-1)]: the last dimension is removed when its size is 1;
    any other tensor, a 0-d one included, is returned as it is. *)
Definition squeeze_last {A} (t : tensor A) : tensor A :=
  match rev (shape t) with
  | 1 :: front => mkTensor (rev front) (fun idx => get t (idx ++ [0]))
  | _ => t
  end.

(** [Tensor.unsqueeze(-1)]: a new last dimension of size 1. *)
Definition unsqueeze_last {A} (t : tensor A) : tensor A :=
  mkTensor (shape t ++ [1]) (fun idx => get t (removelast idx)).

Fixpoint expandable (src tgt : list nat) : bool :=
  match src, tgt with
  | [], [] => true
  | s :: src', n :: tgt' => ((s =? n) || (s =? 1)) && expandable src' tgt'
  | _, _ => false
  end.

Fixpoint expand_index (src idx : list nat) : list nat :=
  match src, idx with
  | s :: src', i :: idx' => (if s =? 1 then 0 else i) :: expand_index src' idx'
  | _, _ => []
  end.

(** [Tensor.expand(size)]: dimensions of size 1 are repeated up to the
    target size, missing leading dimensions are added; a size that is
    neither 1 nor the target size is a RuntimeError. *)
Definition expand {A} (size : list nat) (t : tensor A) : result (tensor A) :=
  let lead := length size - length (shape t) in
  let src := repeat 1 lead ++ shape t in
  if (length (shape t) <=? length size) && expandable src size
  then Ok (mkTensor size
             (fun idx => get t (skipn lead (expand_index src idx))))
  else Err RuntimeError.

Definition shape_eqb (s1 s2 : list nat) : bool :=
  if list_eq_dec Nat.eq_dec s1 s2 then true else false.

(** An elementwise binary operation on two tensors of the same shape.
    (Operands of different, broadcastable shapes do not occur in the
    services: every use below is on shapes made equal beforehand.) *)
Definition zip_with (f : R -> R -> R) (a b : tensor R) : result (tensor R) :=
  if shape_eqb (shape a) (shape b)
  then Ok (mkTensor (shape a) (fun idx => f (get a idx) (get b idx)))
  else Err RuntimeError.

Definition mul := zip_with Rmult.
Definition div := zip_with Rdiv.

(** [torch.sum(t, 1)] and [Tensor.sum(1)]: dimension 1 is summed away. *)
Definition sum_dim1 (t : tensor R) : result (tensor R) :=
  match shape t with
  | b :: s :: rest =>
      Ok (mkTensor (b :: rest)
            (fun idx => sum_upto s (fun j => get t (at_dim1 j idx))))
  | _ => Err IndexError
  end.

(** [t[:, -1, :]]: the last position along dimension 1. *)
Definition select_last_dim1 {A} (t : tensor A) : result (tensor A) :=
  match shape t with
  | b :: s :: v :: rest =>
      if s =? 0 then Err IndexError
      else Ok (mkTensor (b :: v :: rest)
                 (fun idx => get t (at_dim1 (s - 1) idx)))
  | _ => Err IndexError
  end.

(** [t[:, i]] for a non-negative integer [i]. *)
Definition select_dim1 {A} (i : nat) (t : tensor A) : result (tensor A) :=
  match shape t with
  | b :: v :: rest =>
      if i <? v
      then Ok (mkTensor (b :: rest) (fun idx => get t (at_dim1 i idx)))
      else Err IndexError
  | _ => Err IndexError
  end.

(** [torch.stack([a, b], dim=1)] *)
Definition stack2_dim1 {A} (a b : tensor A) : result (tensor A) :=
  if shape_eqb (shape a) (shape b) then
    match shape a with
    | n :: rest =>
        Ok (mkTensor (n :: 2 :: rest)
              (fun idx =>
                 let src := hd 0 idx :: tl (tl idx) in
                 if nth 1 idx 0 =? 0 then get a src else get b src))
    | [] => Err IndexError
    end
  else Err RuntimeError.

(** [torch.nn.functional.log_softmax(t, dim=1)] in exact arithmetic:
    [x_i - ln (sum_j exp x_j)] along dimension 1. Its float32 counterpart
    is [Float32.log_softmax_dim1]. *)
Definition log_softmax_dim1 (t : tensor R) : result (tensor R) :=
  match shape t with
  | _ :: k :: _ =>
      Ok (mkTensor (shape t)
            (fun idx =>
               (get t idx
                - ln (sum_upto k (fun j => exp (get t (set_dim1 j idx)))))%R))
  | _ => Err IndexError
  end.

Definition normalize_eps : R := (1 / 1000000000000)%R.

(** [torch.nn.functional.normalize(t, p=2, dim=1)]: each vector along
    dimension 1 is divided by [max(norm, eps)], with the default
    [eps = 1e-12]. *)
Definition normalize_dim1 (t : tensor R) : result (tensor R) :=
  match shape t with
  | _ :: k :: _ =>
      Ok (mkTensor (shape t)
            (fun idx =>
               (get t idx
                / Rmax (sqrt (sum_upto k
                                (fun j => Rsqr (get t (set_dim1 j idx)))))
                       normalize_eps)%R))
  | _ => Err IndexError
  end.

(** [Tensor.tolist()]: a 0-d tensor gives a float, any other tensor the
    list of its slices along dimension 0. *)
Fixpoint tolist_from (sh : list nat) (g : list nat -> R) : pyval :=
  match sh with
  | [] => PyFloat (g [])
  | n :: rest =>
      PyList (map (fun i => tolist_from rest (fun idx => g (i :: idx)))
                  (seq 0 n))
  end.

Definition tolist (t : tensor R) : pyval := tolist_from (shape t) (get t).

End Torch.

Import Torch.

(* ================================================================== *)
(** * Arithmetic on float32 tensors                                    *)
(* ================================================================== *)

(** The tensors of the services hold binary32 numbers: 24 significant
    bits, normal exponents from -126 up. An operation on them returns the
    exact result rounded to the nearest binary32 number, ties to the even
    significand. Overflow to infinity and NaN are left out: the values
    below stay far from the largest binary32 number. The elementary
    functions are taken as correctly rounded. *)

Module Float32.

Local Open Scope R_scope.

Definition precision : Z := 24.

Definition emin : Z := (-126)%Z.

Definition pow2 (k : Z) : R := powerRZ 2 k.

(** The binade of [x]: the integer part of the base-2 logarithm of its
    magnitude. *)
Definition exponent (x : R) : Z := Int_part (ln (Rabs x) / ln 2).

(** The exponent of the spacing of the binary32 numbers around [x];
    below [2^emin] the spacing is that of the subnormal numbers. *)
Definition ulp_exponent (x : R) : Z :=
  (Z.max (exponent x) emin - (precision - 1))%Z.

(** The integer nearest to [r], the even one of two equally near. *)
Definition nearest_even (r : R) : Z :=
  let f := Int_part r in
  let d := r - IZR f in
  if Rlt_dec d (1 / 2) then f
  else if Rlt_dec (1 / 2) d then (f + 1)%Z
  else if Z.even f then f else (f + 1)%Z.

(** Rounding to binary32. *)
Definition round (x : R) : R :=
  if Req_dec_T x 0 then 0
  else IZR (nearest_even (x / pow2 (ulp_exponent x)))
       * pow2 (ulp_exponent x).

Definition fadd (a b : R) : R := round (a + b).

Definition fsub (a b : R) : R := round (a - b).

Definition fexp (x : R) : R := round (exp x).

Definition fln (x : R) : R := round (ln x).

(** The largest of [f 0 .. f (n-1)]. *)
Definition max_upto (n : nat) (f : nat -> R) : R :=
  match n with
  | O => 0
  | S n' => fold_left Rmax (map f (seq 1 n')) (f 0%nat)
  end.

(** The float32 sum of [f 0 .. f (n-1)], accumulated in index order; for
    the two entries of a (no, yes) row it is a single addition. *)
Definition sum_upto (n : nat) (f : nat -> R) : R :=
  match n with
  | O => 0
  | S n' => fold_left fadd (map f (seq 1 n')) (f 0%nat)
  end.

(** [torch.nn.functional.log_softmax(t, dim=1)] on a float32 tensor, in
    the order in which the kernel computes it: with [m] the largest entry
    of the row, [(x_i - m) - ln (sum_j exp (x_j - m))]. *)
Definition log_softmax_dim1 (t : tensor R) : result (tensor R) :=
  match shape t with
  | _ :: k :: _ =>
      Ok (mkTensor (shape t)
            (fun idx =>
               let x := fun j => get t (set_dim1 j idx) in
               let m := max_upto k x in
               fsub (fsub (get t idx) m)
                    (fln (sum_upto k (fun j => fexp (fsub (x j) m))))))
  | _ => Err IndexError
  end.

(** [Tensor.exp()] on a float32 tensor, elementwise. *)
Definition texp (t : tensor R) : tensor R := tmap fexp t.

End Float32.

(* ================================================================== *)
(** * The process: globals, external callables and the call log        *)
(* ================================================================== *)

Module Runtime.

(** The [truncation] argument of a tokenizer call, as the caller writes it. *)
Inductive truncation_arg : Type :=
| TruncationTrue
| TruncationNamed (strategy : string).

(** The arguments of one tokenizer call; [return_tensors] is always
    ["pt"] and is left out. *)
Record tokenizer_args : Type := mkTokenizerArgs {
  text : list string;
  text_pair : option (list string);
  padding : bool;
  truncation : truncation_arg;
  max_length : nat
}.

(** What the tokenizer returns: the padded batch as integer tensors. *)
Record BatchEncoding : Type := mkBatchEncoding {
  input_ids : tensor Z;
  attention_mask : tensor Z
}.

(** The loaded tokenizer and model are external callables. The model's
    output is its first tensor: the logits of a model with a head, the
    last hidden state of a bare encoder. *)
Definition Tokenizer : Type := tokenizer_args -> result BatchEncoding.
Definition Model : Type := BatchEncoding -> result (tensor R).

Inductive call : Type :=
| TokenizerCall (args : tokenizer_args)
| ModelCall (inputs : BatchEncoding).

(** The module globals [model] and [tokenizer], and the log of the calls
    made to them so far, oldest first. *)
Record state : Type := mkState {
  model : option Model;
  tokenizer : option Tokenizer;
  calls : list call
}.

Definition is_model_call (c : call) : bool :=
  match c with ModelCall _ => true | TokenizerCall _ => false end.

Definition is_tokenizer_call (c : call) : bool :=
  match c with TokenizerCall _ => true | ModelCall _ => false end.

Definition model_calls (st : state) : nat :=
  List.length (filter is_model_call (calls st)).

Definition tokenizer_calls (st : state) : nat :=
  List.length (filter is_tokenizer_call (calls st)).

(** A computation that reads and writes the process state and may raise. *)
Definition prog (A : Type) : Type := state -> result A * state.

Definition ret {A} (a : A) : prog A := fun st => (Ok a, st).

Definition raise {A} (e : exn) : prog A := fun st => (Err e, st).

Definition bind {A B} (c : prog A) (k : A -> prog B) : prog B :=
  fun st =>
    match c st with
    | (Ok a, st') => k a st'
    | (Err e, st') => (Err e, st')
    end.

Definition lift {A} (r : result A) : prog A := fun st => (r, st).

Definition log (c : call) : prog unit :=
  fun st => (Ok tt, mkState (model st) (tokenizer st) (calls st ++ [c])).

Declare Scope prog_scope.
Delimit Scope prog_scope with prog.
Notation "x <- c ;; k" := (bind c (fun x => k))
  (at level 61, c at next level, right associativity) : prog_scope.
Notation "c ;; k" := (bind c (fun _ => k))
  (at level 61, right associativity) : prog_scope.

Local Open Scope prog_scope.

(** Assignments to the globals. *)
Definition set_model (m : Model) : prog unit :=
  fun st => (Ok tt, mkState (Some m) (tokenizer st) (calls st)).

Definition set_tokenizer (t : Tokenizer) : prog unit :=
  fun st => (Ok tt, mkState (model st) (Some t) (calls st)).

(** The state of a process that has just imported the module. *)
Definition initial_state : state := mkState None None [].

(** [tokenizer(...)]: calling the global while it is [None] is a
    TypeError; otherwise the call is logged and its outcome returned. *)
Definition call_tokenizer (args : tokenizer_args) : prog BatchEncoding :=
  fun st =>
    match tokenizer st with
    | None => (Err TypeError, st)
    | Some tok => (log (TokenizerCall args) ;; lift (tok args)) st
    end.

(** Calling [model] on the unpacked inputs. *)
Definition call_model (inputs : BatchEncoding) : prog (tensor R) :=
  fun st =>
    match model st with
    | None => (Err TypeError, st)
    | Some m => (log (ModelCall inputs) ;; lift (m inputs)) st
    end.

(** [model.device]: an attribute read, an AttributeError on [None]. *)
Definition model_device : prog unit :=
  fun st =>
    match model st with
    | None => (Err AttributeError, st)
    | Some _ => (Ok tt, st)
    end.

(** [assert cond, msg] *)
Definition assert (cond : bool) (msg : string) : prog unit :=
  if cond then ret tt else raise (AssertionError msg).

End Runtime.

Import Runtime.

(* ================================================================== *)
(** * reranker/reranker-qwen3.py: the causal-LM (yes/no) reranker       *)
(* ================================================================== *)

Module Qwen3.

Local Open Scope prog_scope.
Local Open Scope string_scope.

Definition MAX_LENGTH : nat := 8192.

Definition nl : string := String (ascii_of_nat 10) EmptyString.
Definition dquote : string := String (ascii_of_nat 34) EmptyString.

(** ** [str.format] with keyword arguments *)

(** Where the scan of the format string stands: in literal text, just
    after an opening or a closing brace, or inside a replacement field
    whose name read so far is kept. *)
Inductive scan : Type :=
| InText
| AfterOpen
| AfterClose
| InField (name : string).

Fixpoint lookup (key : string) (kwargs : list (string * string))
  : result string :=
  match kwargs with
  | [] => Err (KeyError key)
  | (k, v) :: kwargs' => if String.eqb k key then Ok v else lookup key kwargs'
  end.

Definition emit (s : string) (r : result string) : result string :=
  rbind r (fun out => Ok (s ++ out)).

(** [tpl.format] with keyword arguments [kwargs]. A doubled brace is a literal brace, a field
    [{name}] is replaced by the argument of that name, and the replaced
    text is not scanned again. Conversions, format specifications and
    attribute or index access in a field are not modelled: the format
    string of this program has none. *)
Fixpoint str_format (tpl : string) (s : scan) (kwargs : list (string * string))
  : result string :=
  match tpl with
  | EmptyString =>
      match s with
      | InText => Ok EmptyString
      | _ => Err ValueError
      end
  | String c rest =>
      match s with
      | InText =>
          if Ascii.eqb c "{" then str_format rest AfterOpen kwargs
          else if Ascii.eqb c "}" then str_format rest AfterClose kwargs
          else emit (String c EmptyString) (str_format rest InText kwargs)
      | AfterOpen =>
          if Ascii.eqb c "{" then emit "{" (str_format rest InText kwargs)
          else if Ascii.eqb c "}" then Err IndexError
          else str_format rest (InField (String c EmptyString)) kwargs
      | AfterClose =>
          if Ascii.eqb c "}" then emit "}" (str_format rest InText kwargs)
          else Err ValueError
      | InField name =>
          if Ascii.eqb c "}"
          then rbind (lookup name kwargs)
                 (fun v => emit v (str_format rest InText kwargs))
          else if Ascii.eqb c "{" then Err ValueError
          else str_format rest (InField (name ++ String c EmptyString)) kwargs
      end
  end.

Definition default_instruction : string :=
  "Given a web search query, retrieve relevant passages that answer the query".

Definition template : string :=
  "<Instruct>: {instruction}" ++ nl ++ "<Query>: {query}" ++ nl
  ++ "<Document>: {doc}".

Definition format_instruction (instruction : option string)
    (query doc : string) : result string :=
  let instruction :=
    match instruction with
    | None => default_instruction
    | Some i => i
    end in
  str_format template InText
    [("instruction", instruction); ("query", query); ("doc", doc)].

Definition prefix : string :=
  "<|im_start|>system" ++ nl
  ++ "Judge whether the Document meets the requirements based on the Query and the Instruct provided. Note that the answer can only be "
  ++ dquote ++ "yes" ++ dquote ++ " or " ++ dquote ++ "no" ++ dquote
  ++ ".<|im_end|>" ++ nl ++ "<|im_start|>user" ++ nl.

Definition suffix : string :=
  "<|im_end|>" ++ nl ++ "<|im_start|>assistant" ++ nl ++ "<think>" ++ nl
  ++ nl ++ "</think>" ++ nl ++ nl.

(** ** [build_inputs] *)

(** The loop over [zip(queries, documents)] that fills [texts]. *)
Fixpoint render_texts (instruction : option string)
    (pairs : list (string * string)) : result (list string) :=
  match pairs with
  | [] => Ok []
  | (q, d) :: pairs' =>
      rbind (format_instruction instruction q d) (fun core =>
      let full_text := prefix ++ core ++ suffix in
      rbind (render_texts instruction pairs') (fun texts =>
      Ok (full_text :: texts)))
  end.

Definition build_inputs (queries documents : list string)
    (instruction : option string) : prog BatchEncoding :=
  assert (List.length queries =? List.length documents)%nat
    "queries and documents must be same length" ;;
  texts <- lift (render_texts instruction (combine queries documents)) ;;
  encoded <- call_tokenizer
    (mkTokenizerArgs texts None true (TruncationNamed "longest_first")
       MAX_LENGTH) ;;
  model_device ;;
  ret encoded.

(** ** [compute_logits] *)

Section Scoring.

(** [tokenizer.convert_tokens_to_ids] of ["yes"] and of ["no"], computed
    once when the script starts. *)
Variables token_true_id token_false_id : nat.

Definition compute_logits (inputs : BatchEncoding) : prog pyval :=
  logits <- call_model inputs ;;
  batch_scores <- lift (select_last_dim1 logits) ;;
  true_vector <- lift (select_dim1 token_true_id batch_scores) ;;
  false_vector <- lift (select_dim1 token_false_id batch_scores) ;;
  batch_scores <- lift (stack2_dim1 false_vector true_vector) ;;
  batch_scores <- lift (log_softmax_dim1 batch_scores) ;;
  yes_column <- lift (select_dim1 1 batch_scores) ;;
  ret (tolist (texp yes_column)).

(** The last step of the script: [build_inputs] on the queries and the
    documents, then [compute_logits] on its result. *)
Definition run_reranker (queries documents : list string)
    (instruction : option string) : prog pyval :=
  inputs <- build_inputs queries documents instruction ;;
  compute_logits inputs.

End Scoring.

End Qwen3.

(* ================================================================== *)
(** * reranker/reranker-qwen3.py on float32 tensors                    *)
(* ================================================================== *)

(** [compute_logits] as it runs on the float32 logits of the model: the
    program of [Qwen3.compute_logits], line by line, with the log-softmax
    and the exponential of [Float32]. Indexing and stacking copy elements
    and need no rounding. *)

Module Qwen3Float32.

Local Open Scope prog_scope.

Section Scoring.

Variables token_true_id token_false_id : nat.

Definition compute_logits (inputs : BatchEncoding) : prog pyval :=
  logits <- call_model inputs ;;
  batch_scores <- lift (select_last_dim1 logits) ;;
  true_vector <- lift (select_dim1 token_true_id batch_scores) ;;
  false_vector <- lift (select_dim1 token_false_id batch_scores) ;;
  batch_scores <- lift (stack2_dim1 false_vector true_vector) ;;
  batch_scores <- lift (Float32.log_softmax_dim1 batch_scores) ;;
  yes_column <- lift (select_dim1 1 batch_scores) ;;
  ret (tolist (Float32.texp yes_column)).

End Scoring.

End Qwen3Float32.

(* ================================================================== *)
(** * reranker/main.py: the cross-encoder reranker                      *)
(* ================================================================== *)

Module CrossEncoder.

Local Open Scope prog_scope.

Definition model_id : string := "cross-encoder/ms-marco-MiniLM-L6-v2".

Record RerankRequest : Type := mkRerankRequest {
  query : string;
  documents : list string
}.

Record RerankResponse : Type := mkRerankResponse {
  scores : list R
}.

(** [GET /health] *)
Definition health_check : prog (list (string * string)) :=
  ret [("status", "healthy"); ("model", model_id)]%string.

(** [POST /rerank] *)
Definition rerank (request : RerankRequest) : prog RerankResponse :=
  let queries := repeat (query request) (List.length (documents request)) in
  features <- call_tokenizer
    (mkTokenizerArgs queries (Some (documents request)) true TruncationTrue
       512) ;;
  logits <- call_model features ;;
  let scores := tolist (squeeze_last (sigmoid logits)) in
  let scores := if isinstance_float scores then PyList [scores] else scores in
  scores <- lift (as_float_list scores) ;;
  ret (mkRerankResponse scores).

Section Lifespan.

(** The loaders of the transformers library and the dynamic quantization
    of torch, external to the service. *)
Variable from_pretrained_model : string -> result Model.
Variable from_pretrained_tokenizer : string -> result Tokenizer.
Variable quantize_dynamic : Model -> Model.

(** The part of [lifespan] that runs before the application serves. *)
Definition lifespan_startup : prog unit :=
  m <- lift (from_pretrained_model model_id) ;;
  set_model m ;;
  set_model (quantize_dynamic m) ;;
  t <- lift (from_pretrained_tokenizer model_id) ;;
  set_tokenizer t.

End Lifespan.

End CrossEncoder.

(* ================================================================== *)
(** * src/embedding/main.py: the bi-encoder embedder                    *)
(* ================================================================== *)

Module Embedding.

Local Open Scope prog_scope.

Definition model_id : string := "BAAI/bge-small-en-v1.5".

Definition pooling_floor : R := (1 / 1000000000)%R.

(** [mean_pooling(model_output, attention_mask)], with [model_output[0]]
    the token embeddings. *)
Definition mean_pooling (model_output : tensor R) (attention_mask : tensor Z)
  : result (tensor R) :=
  let token_embeddings := model_output in
  rbind (expand (shape token_embeddings) (unsqueeze_last attention_mask))
    (fun expanded =>
  let input_mask_expanded := float expanded in
  rbind (mul token_embeddings input_mask_expanded) (fun weighted =>
  rbind (sum_dim1 weighted) (fun total =>
  rbind (sum_dim1 input_mask_expanded) (fun count =>
  div total (clamp_min pooling_floor count))))).

Record EmbedRequest : Type := mkEmbedRequest {
  texts : list string
}.

Record EmbedResponse : Type := mkEmbedResponse {
  embeddings : list (list R);
  dimensions : nat
}.

(** [GET /health] *)
Definition health_check : prog (list (string * string)) :=
  ret [("status", "healthy"); ("model", model_id)]%string.

(** [len(embeddings_list[0]) if embeddings_list else 0] *)
Definition first_row_length (embeddings_list : pyval) : result nat :=
  match embeddings_list with
  | PyList [] => Ok 0
  | PyList (PyList row :: _) => Ok (List.length row)
  | PyList (PyFloat _ :: _) => Err TypeError
  | PyFloat x => if Req_dec_T x 0 then Ok 0 else Err TypeError
  end.

(** [POST /embed] *)
Definition embed (request : EmbedRequest) : prog EmbedResponse :=
  encoded_input <- call_tokenizer
    (mkTokenizerArgs (texts request) None true TruncationTrue 512) ;;
  model_output <- call_model encoded_input ;;
  pooled <- lift (mean_pooling model_output (attention_mask encoded_input)) ;;
  normalized <- lift (normalize_dim1 pooled) ;;
  let embeddings_list := tolist normalized in
  dimensions <- lift (first_row_length embeddings_list) ;;
  embeddings <- lift (as_float_matrix embeddings_list) ;;
  ret (mkEmbedResponse embeddings dimensions).

Section Lifespan.

Variable from_pretrained_tokenizer : string -> result Tokenizer.
Variable from_pretrained_model : string -> result Model.
Variable quantize_dynamic : Model -> Model.

(** The part of [lifespan] that runs before the application serves. *)
Definition lifespan_startup : prog unit :=
  t <- lift (from_pretrained_tokenizer model_id) ;;
  set_tokenizer t ;;
  m <- lift (from_pretrained_model model_id) ;;
  set_model m ;;
  set_model (quantize_dynamic m).

End Lifespan.

End Embedding.

(* ================================================================== *)
(** * Vocabulary of the properties                                     *)
(* ================================================================== *)

(** The closed forms in which the specification describes the results,
    to be compared with the code above, and the names the properties
    need for parts of the code: the lines of a handler that follow its
    model call, the state after a logged call. *)

Module Described.

Import Qwen3.

(** The rendered text between [prefix] and [suffix]. *)
Definition core_text (instruction query doc : string) : string :=
  ("<Instruct>: " ++ instruction ++ nl ++ "<Query>: " ++ query ++ nl
   ++ "<Document>: " ++ doc)%string.

(** The instruction used when the caller supplies none. *)
Definition instruction_or_default (instruction : option string) : string :=
  match instruction with
  | None =>
      "Given a web search query, retrieve relevant passages that answer the query"%string
  | Some i => i
  end.

(** The prompt of one query/document pair. *)
Definition prompt (instruction : option string) (qd : string * string)
  : string :=
  (prefix ++ core_text (instruction_or_default instruction) (fst qd) (snd qd)
   ++ suffix)%string.

(** The logits of pair [b] at the final one of [S] sequence positions,
    for the token [id]. *)
Definition final_logit (logits : tensor R) (S id b : nat) : R :=
  get logits [b; S - 1; id].

(** The yes entry of the two-way softmax over (no, yes). *)
Definition yes_probability (lno lyes : R) : R :=
  exp (lyes - ln (exp lno + exp lyes)).

(** The score of pair [b] as the specification derives it. *)
Definition log_softmax_score (token_true_id token_false_id : nat)
    (logits : tensor R) (S b : nat) : R :=
  yes_probability (final_logit logits S token_false_id b)
                  (final_logit logits S token_true_id b).

(** The score of pair [b] as a sigmoid of the logit difference. *)
Definition sigmoid_score (token_true_id token_false_id : nat)
    (logits : tensor R) (S b : nat) : R :=
  sigmoid_fn (final_logit logits S token_true_id b
              - final_logit logits S token_false_id b).

(** The yes entry of the two-way softmax over (no, yes) as float32
    arithmetic computes it: the larger logit is subtracted first, and
    every operation rounds. *)
Definition float32_yes_probability (lno lyes : R) : R :=
  let m := Rmax lno lyes in
  let total :=
    Float32.fadd (Float32.fexp (Float32.fsub lno m))
                 (Float32.fexp (Float32.fsub lyes m)) in
  Float32.fexp (Float32.fsub (Float32.fsub lyes m) (Float32.fln total)).

(** The score of pair [b] on float32 tensors. *)
Definition float32_score (token_true_id token_false_id : nat)
    (logits : tensor R) (S b : nat) : R :=
  float32_yes_probability (final_logit logits S token_false_id b)
                          (final_logit logits S token_true_id b).

(** The two-way log-softmax tensor over (no, yes) that [compute_logits]
    builds from the logits, before its yes column is taken. *)
Definition decision_log_probs (token_true_id token_false_id : nat)
    (logits : tensor R) : result (tensor R) :=
  rbind (select_last_dim1 logits) (fun batch_scores =>
  rbind (select_dim1 token_true_id batch_scores) (fun true_vector =>
  rbind (select_dim1 token_false_id batch_scores) (fun false_vector =>
  rbind (stack2_dim1 false_vector true_vector) log_softmax_dim1))).

(** The response of the cross-encoder's [rerank] as a function of the
    logits the model returned: the lines of [rerank] after the model
    call. *)
Definition response_of (logits : tensor R)
  : result CrossEncoder.RerankResponse :=
  let scores := tolist (squeeze_last (sigmoid logits)) in
  let scores := if isinstance_float scores then PyList [scores] else scores in
  rbind (as_float_list scores)
    (fun scores => Ok (CrossEncoder.mkRerankResponse scores)).

(** The response of [embed] as a function of the hidden states the model
    returned and of the attention mask: the lines of [embed] after the
    model call. *)
Definition embedding_of (model_output : tensor R) (attention_mask : tensor Z)
  : result Embedding.EmbedResponse :=
  rbind (Embedding.mean_pooling model_output attention_mask) (fun pooled =>
  rbind (normalize_dim1 pooled) (fun normalized =>
  let embeddings_list := tolist normalized in
  rbind (Embedding.first_row_length embeddings_list) (fun dimensions =>
  rbind (as_float_matrix embeddings_list) (fun embeddings =>
  Ok (Embedding.mkEmbedResponse embeddings dimensions))))).

(** The Euclidean norm of a vector. *)
Definition l2_norm (v : list R) : R := sqrt (Rsum (map Rsqr v)).

(** The masked mean of hidden unit [h] over the [S] positions of row [b]:
    the sum over the positions weighted by the mask, divided by the
    number of unmasked positions, floored at [1e-9]. *)
Definition masked_mean (token_embeddings : tensor R) (mask : tensor Z)
    (S b h : nat) : R :=
  (sum_upto S (fun t => get token_embeddings [b; t; h] * IZR (get mask [b; t]))
   / Rmax Embedding.pooling_floor (sum_upto S (fun t => IZR (get mask [b; t]))))%R.

(** The pooled vector of row [b], over [H] hidden units. *)
Definition pooled_row (token_embeddings : tensor R) (mask : tensor Z)
    (S H b : nat) : list R :=
  map (masked_mean token_embeddings mask S b) (seq 0 H).

(** The pooled vector of row [b] divided by its norm, floored at the
    [eps] of the normalization. *)
Definition normalized_row (token_embeddings : tensor R) (mask : tensor Z)
    (S H b : nat) : list R :=
  let pooled := pooled_row token_embeddings mask S H b in
  map (fun x => (x / Rmax (l2_norm pooled) normalize_eps)%R) pooled.

(** The [status] entry of a health report. *)
Definition status (report : result (list (string * string)))
  : option string :=
  match report with
  | Ok entries =>
      match Qwen3.lookup "status" entries with
      | Ok v => Some v
      | Err _ => None
      end
  | Err _ => None
  end.

(** The state after one more call has been logged. *)
Definition logged (st : state) (c : call) : state :=
  mkState (model st) (tokenizer st) (calls st ++ [c]).

End Described.

(* ================================================================== *)
(** * Stand-ins for the external tokenizer and models                  *)
(* ================================================================== *)

(** Small concrete callables on which the services can be run. *)

Module Stub.

(** The number of texts a tokenizer call was given. *)
Definition batch_size (args : tokenizer_args) : nat := List.length (text args).

(** A tokenizer that gives every text three tokens, none of them padding. *)
Definition tokenizer : Tokenizer :=
  fun args =>
    Ok (mkBatchEncoding
          (mkTensor [batch_size args; 3] (fun _ => 7%Z))
          (mkTensor [batch_size args; 3] (fun _ => 1%Z))).

(** The batch size of an encoding. *)
Definition rows (inputs : BatchEncoding) : nat := hd 0 (shape (input_ids inputs)).

(** The sequence length of an encoding. *)
Definition positions (inputs : BatchEncoding) : nat :=
  nth 1 (shape (input_ids inputs)) 0.

(** A sequence-classification model with one label: the logit of row [b]
    is [b]. *)
Definition classifier : Model :=
  fun inputs => Ok (mkTensor [rows inputs; 1] (fun idx => INR (hd 0 idx))).

(** A model whose output has lost its label dimension: one logit, in a
    tensor of shape [1]. *)
Definition collapsed_classifier : Model :=
  fun _ => Ok (mkTensor [1] (fun _ => 0%R)).

(** A causal language model over four tokens: the logit of token [v] is
    [v], at every position of every row. *)
Definition causal_lm : Model :=
  fun inputs =>
    Ok (mkTensor [rows inputs; positions inputs; 4]
          (fun idx => INR (nth 2 idx 0))).

(** An encoder with two hidden units, whose hidden states are all [c]. *)
Definition encoder (c : R) : Model :=
  fun inputs => Ok (mkTensor [rows inputs; positions inputs; 2] (fun _ => c)).

(** Token embeddings of one text of two tokens, and the same text
    padded on the right by one position that holds other values. *)
Definition alone_embeddings : tensor R := mkTensor [1; 2; 2] (fun _ => 1%R).

Definition alone_mask : tensor Z := mkTensor [1; 2] (fun _ => 1%Z).

Definition padded_embeddings : tensor R :=
  mkTensor [1; 3; 2] (fun idx => if nth 1 idx 0 <? 2 then 1%R else 5%R).

Definition padded_mask : tensor Z :=
  mkTensor [1; 3] (fun idx => if nth 1 idx 0 <? 2 then 1%Z else 0%Z).

(** A process whose globals hold the given tokenizer and model. *)
Definition loaded (tok : Tokenizer) (m : Model) : state :=
  mkState (Some m) (Some tok) [].

End Stub.

(* ================================================================== *)
(** * Vocabulary of the further properties                             *)
(* ================================================================== *)

Module Protocol.

Import Described.

(** What one request may do to the process: nothing, when the tokenizer
    is not loaded; one tokenizer call, when that call raises or the model
    is not loaded; otherwise one tokenizer call followed by one model call
    on what the tokenizer returned. The globals are never assigned. *)
Inductive pass (args : tokenizer_args) (st st' : state) : Prop :=
| NotTokenized :
    tokenizer st = None -> st' = st -> pass args st st'
| TokenizedOnly (tok : Tokenizer) :
    tokenizer st = Some tok ->
    (forall features, tok args = Ok features -> model st = None) ->
    st' = logged st (TokenizerCall args) ->
    pass args st st'
| TokenizedAndScored (tok : Tokenizer) (m : Model) (features : BatchEncoding) :
    tokenizer st = Some tok ->
    tok args = Ok features ->
    model st = Some m ->
    st' = logged (logged st (TokenizerCall args)) (ModelCall features) ->
    pass args st st'.

(** The tokenizer arguments of the cross-encoder's [rerank]. *)
Definition rerank_args (request : CrossEncoder.RerankRequest)
  : tokenizer_args :=
  mkTokenizerArgs
    (repeat (CrossEncoder.query request)
       (List.length (CrossEncoder.documents request)))
    (Some (CrossEncoder.documents request)) true TruncationTrue 512.

(** The tokenizer arguments of [embed]. *)
Definition embed_args (request : Embedding.EmbedRequest) : tokenizer_args :=
  mkTokenizerArgs (Embedding.texts request) None true TruncationTrue 512.

(** The tokenizer arguments of [build_inputs]. *)
Definition build_inputs_args (queries documents : list string)
    (instruction : option string) : tokenizer_args :=
  mkTokenizerArgs (map (prompt instruction) (combine queries documents))
    None true (TruncationNamed "longest_first") Qwen3.MAX_LENGTH.

End Protocol.

(** Further stand-ins for the external callables. *)

Module Probe.

(** A tokenizer that rejects every batch. *)
Definition failing_tokenizer : Tokenizer :=
  fun _ => Err (Raised "IndexError").

(** A sequence-classification model with two labels. *)
Definition two_label_classifier : Model :=
  fun inputs => Ok (mkTensor [Stub.rows inputs; 2] (fun _ => 0%R)).

(** A process in which only the tokenizer is loaded. *)
Definition tokenizer_only (tok : Tokenizer) : state :=
  mkState None (Some tok) [].

(** A process in which only the model is loaded. *)
Definition model_only (m : Model) : state := mkState (Some m) None [].

(** The encoding the stand-in tokenizer gives a batch of [n] texts. *)
Definition encoding (n : nat) : BatchEncoding :=
  mkBatchEncoding (mkTensor [n; 3] (fun _ => 7%Z))
                  (mkTensor [n; 3] (fun _ => 1%Z)).

(** The embeddings of one text of two tokens, with one hidden unit: the
    first token holds 1 and the second 4; and the same text with its two
    tokens exchanged. *)
Definition two_tokens : tensor R :=
  mkTensor [1; 2; 1] (fun idx => if nth 1 idx 0 =? 0 then 1%R else 4%R).

Definition two_tokens_swapped : tensor R :=
  mkTensor [1; 2; 1] (fun idx => if nth 1 idx 0 =? 0 then 4%R else 1%R).

Definition two_tokens_mask : tensor Z := mkTensor [1; 2] (fun _ => 1%Z).

(** A mask of one row and one position. *)
Definition one_position_mask : tensor Z := mkTensor [1; 1] (fun _ => 1%Z).

(** A model that returns the tensor [t] for every batch. *)
Definition constant_model (t : tensor R) : Model := fun _ => Ok t.

(** Logits of two pairs over four tokens at three positions: token [v]
    has logit [v] for the first pair and [2 v] for the second. *)
Definition graded_logits : tensor R :=
  mkTensor [2; 3; 4]
    (fun idx =>
       let b := hd 0 idx in
       let v := nth 2 idx 0 in
       (INR (Datatypes.S b) * INR v)%R).

(** The logits of [graded_logits] raised by 10, at a single position. *)
Definition shifted_logits : tensor R :=
  mkTensor [2; 1; 4]
    (fun idx =>
       let b := hd 0 idx in
       let v := nth 2 idx 0 in
       (INR (Datatypes.S b) * INR v + 10)%R).

(** A tokenizer that rejects the empty batch, and no other. *)
Definition nonempty_tokenizer : Tokenizer :=
  fun args =>
    match text args with
    | [] => Err (Raised "IndexError")
    | _ :: _ => Stub.tokenizer args
    end.

(** A causal language model over two tokens that is sure of its answer:
    for one pair at one position, the logit of token 1 is 20 and the logit
    of token 0 is 0. Both are binary32 numbers. *)
Definition decided_lm : Model :=
  fun _ =>
    Ok (mkTensor [1; 1; 2]
          (fun idx => if nth 2 idx 0 =? 1 then 20%R else 0%R)).

End Probe.

(* ================================================================== *)
(** * Properties                                                       *)
(* ================================================================== *)

(** ** The effect monad *)

Ltac unfold_prog :=
  repeat (progress unfold Runtime.bind, Runtime.ret, Runtime.raise,
            Runtime.lift, Runtime.assert, set_model, set_tokenizer in *).

Import Described.

Lemma call_tokenizer_loaded (st : state) (tok : Tokenizer)
    (args : tokenizer_args) :
  tokenizer st = Some tok ->
  call_tokenizer args st = (tok args, logged st (TokenizerCall args)).
Proof.
  intros H. unfold call_tokenizer. rewrite H. reflexivity.
Qed.

Lemma call_model_loaded (st : state) (m : Model) (inputs : BatchEncoding) :
  model st = Some m ->
  call_model inputs st = (m inputs, logged st (ModelCall inputs)).
Proof.
  intros H. unfold call_model. rewrite H. reflexivity.
Qed.

Lemma traverse_as_float_floats (l : list R) :
  traverse as_float (map PyFloat l) = Ok l.
Proof.
  induction l as [|x l IH]; simpl; [reflexivity|].
  rewrite IH. reflexivity.
Qed.

Lemma as_float_list_py_floats (l : list R) :
  as_float_list (py_floats l) = Ok l.
Proof. apply traverse_as_float_floats. Qed.

Lemma as_float_matrix_py_matrix (l : list (list R)) :
  as_float_matrix (py_matrix l) = Ok l.
Proof.
  unfold py_matrix; simpl.
  induction l as [|r l IH]; simpl; [reflexivity|].
  rewrite traverse_as_float_floats. simpl. rewrite IH. reflexivity.
Qed.

Lemma append_empty_r (s : string) : (s ++ "")%string = s.
Proof.
  induction s as [|c s IH]; simpl; [reflexivity|].
  rewrite IH. reflexivity.
Qed.

(** ** Prompt rendering of the causal-LM reranker *)

Module Qwen3Facts.

Import Qwen3 Described.
Local Open Scope string_scope.

Lemma format_instruction_core (instruction : option string) (q d : string) :
  format_instruction instruction q d
  = Ok (core_text (instruction_or_default instruction) q d).
Proof.
  assert (H : format_instruction instruction q d
              = Ok (core_text (instruction_or_default instruction) q
                      (d ++ ""))).
  { destruct instruction as [i|]; vm_compute; reflexivity. }
  rewrite H, append_empty_r. reflexivity.
Qed.

Lemma render_texts_map (instruction : option string)
    (pairs : list (string * string)) :
  render_texts instruction pairs
  = Ok (map (prompt instruction) pairs).
Proof.
  induction pairs as [|[q d] pairs IH]; [reflexivity|].
  cbn [render_texts map].
  rewrite format_instruction_core. cbn [rbind].
  rewrite IH. reflexivity.
Qed.

End Qwen3Facts.

(** ** Real-number facts about the score functions *)

Section ScoreFacts.

Local Open Scope R_scope.

Lemma sigmoid_fn_bounds (x : R) : 0 < sigmoid_fn x < 1.
Proof.
  unfold sigmoid_fn.
  pose proof (exp_pos (- x)) as He.
  split.
  - apply Rdiv_lt_0_compat; lra.
  - apply (Rmult_lt_reg_r (1 + exp (- x))); [lra|].
    unfold Rdiv. rewrite Rmult_assoc, Rinv_l by lra. lra.
Qed.

(** The yes entry of the two-way softmax is the sigmoid of the
    difference of the two logits. *)
Lemma exp_log_softmax2_yes (lno lyes : R) :
  exp (lyes - ln (exp lno + exp lyes)) = sigmoid_fn (lyes - lno).
Proof.
  pose proof (exp_pos lno) as Hn. pose proof (exp_pos lyes) as Hy.
  unfold Rminus at 1. rewrite exp_plus, exp_Ropp, exp_ln by lra.
  unfold sigmoid_fn.
  replace (- (lyes - lno)) with (lno + - lyes) by ring.
  rewrite exp_plus, exp_Ropp.
  field. split; [|lra].
  intro H. 
  assert (exp lyes + exp lno = 0) by lra. lra.
Qed.

(** The no entry is the complement of the yes entry. *)
Lemma exp_log_softmax2_no (lno lyes : R) :
  exp (lno - ln (exp lno + exp lyes))
  = 1 - exp (lyes - ln (exp lno + exp lyes)).
Proof.
  pose proof (exp_pos lno) as Hn. pose proof (exp_pos lyes) as Hy.
  unfold Rminus at 1 3. rewrite !exp_plus, exp_Ropp, exp_ln by lra.
  field. lra.
Qed.

Lemma sum_upto_2 (f : nat -> R) : sum_upto 2 f = f 0%nat + f 1%nat.
Proof. unfold sum_upto, Rsum; simpl. ring. Qed.

End ScoreFacts.

Lemma shape_eqb_refl (s : list nat) : shape_eqb s s = true.
Proof. unfold shape_eqb. destruct (list_eq_dec Nat.eq_dec s s); congruence. Qed.

(** ** The causal-LM scorer *)

Section Qwen3Scoring.

Import Qwen3 Described.

Variables token_true_id token_false_id : nat.

Lemma compute_logits_run (inputs : BatchEncoding) (st : state) (m : Model)
    (logits : tensor R) (B S V : nat) :
  model st = Some m ->
  m inputs = Ok logits ->
  shape logits = [B; S; V] ->
  0 < S -> token_true_id < V -> token_false_id < V ->
  compute_logits token_true_id token_false_id inputs st
  = (Ok (py_floats
           (map (log_softmax_score token_true_id token_false_id logits S)
                (seq 0 B))),
     logged st (ModelCall inputs)).
Proof.
  intros Hm Hrun Hshape HS Hyes Hno.
  destruct logits as [sh g]; simpl in Hshape; subst sh.
  unfold compute_logits. unfold_prog.
  rewrite (@call_model_loaded st m inputs Hm), Hrun.
  unfold select_last_dim1; simpl.
  destruct S as [|S']; [lia|]. simpl.
  apply Nat.ltb_lt in Hyes, Hno.
  unfold select_dim1 at 1; simpl. rewrite Hyes.
  unfold select_dim1 at 1; simpl. rewrite Hno.
  unfold stack2_dim1; simpl. rewrite shape_eqb_refl.
  unfold log_softmax_dim1; simpl. unfold select_dim1; simpl.
  unfold py_floats. f_equal. f_equal.
  unfold tolist; simpl. f_equal. rewrite map_map.
  apply map_ext. intros b. f_equal.
  unfold log_softmax_score, yes_probability, final_logit.
  rewrite sum_upto_2. simpl. rewrite Nat.sub_0_r. reflexivity.
Qed.

(** [compute_logits] is the model call followed by the two-way
    log-softmax, whose yes column is exponentiated. *)
Lemma compute_logits_decision (inputs : BatchEncoding) (st : state) :
  compute_logits token_true_id token_false_id inputs st
  = Runtime.bind (call_model inputs) (fun logits =>
      lift (rbind (decision_log_probs token_true_id token_false_id logits)
              (fun lsm =>
               rbind (select_dim1 1 lsm) (fun yes_column =>
               Ok (tolist (texp yes_column)))))) st.
Proof.
  unfold compute_logits, decision_log_probs. unfold_prog.
  destruct (call_model inputs st) as [[logits|e] st']; [|reflexivity].
  destruct (select_last_dim1 logits) as [bs|e]; [|reflexivity]. simpl.
  destruct (select_dim1 token_true_id bs) as [tv|e]; [|reflexivity]. simpl.
  destruct (select_dim1 token_false_id bs) as [fv|e]; [|reflexivity]. simpl.
  destruct (stack2_dim1 fv tv) as [stk|e]; [|reflexivity]. simpl.
  destruct (log_softmax_dim1 stk) as [lsm|e]; [|reflexivity]. simpl.
  destruct (select_dim1 1 lsm); reflexivity.
Qed.

Lemma decision_log_probs_run (logits : tensor R) (B S V : nat) :
  shape logits = [B; S; V] ->
  0 < S -> token_true_id < V -> token_false_id < V ->
  exists lsm,
    decision_log_probs token_true_id token_false_id logits = Ok lsm
    /\ shape lsm = [B; 2]
    /\ forall b,
         let lno := final_logit logits S token_false_id b in
         let lyes := final_logit logits S token_true_id b in
         get lsm [b; 0] = (lno - ln (exp lno + exp lyes))%R
         /\ get lsm [b; 1] = (lyes - ln (exp lno + exp lyes))%R.
Proof.
  intros Hshape HS Hyes Hno.
  destruct logits as [sh g]; simpl in Hshape; subst sh.
  unfold decision_log_probs, select_last_dim1; simpl.
  destruct S as [|S']; [lia|]. simpl.
  apply Nat.ltb_lt in Hyes, Hno.
  unfold select_dim1 at 1; simpl. rewrite Hyes.
  unfold select_dim1 at 1; simpl. rewrite Hno.
  unfold stack2_dim1; simpl. rewrite shape_eqb_refl.
  unfold log_softmax_dim1; simpl.
  eexists. split; [reflexivity|]. split; [reflexivity|].
  intros b. unfold final_logit. simpl.
  rewrite !sum_upto_2. simpl. rewrite Nat.sub_0_r. split; reflexivity.
Qed.

Lemma build_inputs_run (queries documents : list string)
    (instruction : option string) (st : state) (tok : Tokenizer) :
  List.length queries = List.length documents ->
  tokenizer st = Some tok ->
  let args :=
    mkTokenizerArgs (map (prompt instruction) (combine queries documents))
      None true (TruncationNamed "longest_first") MAX_LENGTH in
  build_inputs queries documents instruction st
  = (rbind (tok args) (fun encoded =>
       match model st with
       | Some _ => Ok encoded
       | None => Err AttributeError
       end),
     logged st (TokenizerCall args)).
Proof.
  intros Hlen Htok args.
  unfold build_inputs. unfold_prog.
  rewrite Hlen, Nat.eqb_refl.
  rewrite Qwen3Facts.render_texts_map. cbv beta iota.
  rewrite (@call_tokenizer_loaded st tok _ Htok). fold args.
  destruct (tok args) as [enc|e]; cbn [rbind]; [|reflexivity].
  unfold model_device, logged. cbn [Runtime.model].
  destruct (model st); reflexivity.
Qed.

Lemma build_inputs_mismatch (queries documents : list string)
    (instruction : option string) (st : state) :
  List.length queries <> List.length documents ->
  build_inputs queries documents instruction st
  = (Err (AssertionError "queries and documents must be same length"), st).
Proof.
  intros Hlen. unfold build_inputs. unfold_prog.
  apply Nat.eqb_neq in Hlen. rewrite Hlen. reflexivity.
Qed.

End Qwen3Scoring.

(** ** The cross-encoder scorer *)

Section CrossEncoderScoring.

Import CrossEncoder.

(** The tokenizer call of a rerank request. *)
Lemma rerank_calls_tokenizer (request : RerankRequest) (st : state)
    (tok : Tokenizer) (e : exn) :
  let args :=
    mkTokenizerArgs
      (repeat (query request) (List.length (documents request)))
      (Some (documents request)) true TruncationTrue 512 in
  tokenizer st = Some tok ->
  tok args = Err e ->
  rerank request st = (Err e, logged st (TokenizerCall args)).
Proof.
  intros args Htok Herr. unfold rerank. unfold_prog.
  rewrite (@call_tokenizer_loaded st tok _ Htok). fold args.
  rewrite Herr. reflexivity.
Qed.

Lemma rerank_run (request : RerankRequest) (st : state)
    (tok : Tokenizer) (m : Model) (features : BatchEncoding) :
  let args :=
    mkTokenizerArgs
      (repeat (query request) (List.length (documents request)))
      (Some (documents request)) true TruncationTrue 512 in
  tokenizer st = Some tok ->
  model st = Some m ->
  tok args = Ok features ->
  rerank request st
  = (rbind (m features) response_of,
     logged (logged st (TokenizerCall args)) (ModelCall features)).
Proof.
  intros args Htok Hm Hfeat. unfold rerank. unfold_prog.
  rewrite (@call_tokenizer_loaded st tok _ Htok). fold args.
  rewrite Hfeat.
  rewrite (@call_model_loaded (logged st (TokenizerCall args)) m features Hm).
  destruct (m features) as [logits|e]; [|reflexivity].
  unfold response_of. cbn [rbind].
  destruct (as_float_list _); reflexivity.
Qed.

Lemma response_of_column (logits : tensor R) (N : nat) :
  shape logits = [N; 1] ->
  response_of logits
  = Ok (mkRerankResponse
          (map (fun i => sigmoid_fn (get logits [i; 0])) (seq 0 N))).
Proof.
  intros Hshape. destruct logits as [sh g]; simpl in Hshape; subst sh.
  unfold response_of, squeeze_last, sigmoid, tmap, tolist. simpl.
  rewrite <- (map_map (fun i => sigmoid_fn (g [i; 0])) PyFloat).
  rewrite traverse_as_float_floats. reflexivity.
Qed.

Lemma response_of_vector1 (logits : tensor R) :
  shape logits = [1] ->
  response_of logits = Ok (mkRerankResponse [sigmoid_fn (get logits [0])]).
Proof.
  intros Hshape. destruct logits as [sh g]; simpl in Hshape; subst sh.
  reflexivity.
Qed.

Lemma response_of_scalar (logits : tensor R) :
  shape logits = [] ->
  response_of logits = Ok (mkRerankResponse [sigmoid_fn (get logits [])]).
Proof.
  intros Hshape. destruct logits as [sh g]; simpl in Hshape; subst sh.
  reflexivity.
Qed.

(** A scalar produced by the squeeze is always wrapped. *)
Lemma response_of_float (logits : tensor R) (x : R) :
  tolist (squeeze_last (sigmoid logits)) = PyFloat x ->
  response_of logits = Ok (mkRerankResponse [x]).
Proof.
  intros H. unfold response_of. rewrite H. reflexivity.
Qed.

Lemma response_of_empty (logits : tensor R) (K : nat) :
  shape logits = [0; K] ->
  response_of logits = Ok (mkRerankResponse []).
Proof.
  intros Hshape. destruct logits as [sh g]; simpl in Hshape; subst sh.
  destruct K as [|[|K]]; reflexivity.
Qed.

End CrossEncoderScoring.

(** ** Finite sums *)

Section Sums.

Local Open Scope R_scope.

Lemma sum_upto_ext_in (n : nat) (f g : nat -> R) :
  (forall j, (j < n)%nat -> f j = g j) -> sum_upto n f = sum_upto n g.
Proof.
  intros H. unfold sum_upto. f_equal.
  apply map_ext_in. intros j Hj. apply in_seq in Hj. apply H. lia.
Qed.

Lemma Rsum_app (l1 l2 : list R) : Rsum (l1 ++ l2) = Rsum l1 + Rsum l2.
Proof.
  induction l1 as [|x l1 IH]; simpl; [ring|].
  rewrite IH. ring.
Qed.

Lemma Rsum_zero (l : list R) : Forall (fun x => x = 0) l -> Rsum l = 0.
Proof.
  induction 1 as [|x l Hx _ IH]; simpl; [reflexivity|].
  rewrite Hx, IH. ring.
Qed.

Lemma Rsum_scale (c : R) (l : list R) :
  Rsum (map (fun x => c * x) l) = c * Rsum l.
Proof.
  induction l as [|x l IH]; simpl; [ring|].
  rewrite IH. ring.
Qed.

Lemma Rsum_nonneg (l : list R) : Forall (fun x => 0 <= x) l -> 0 <= Rsum l.
Proof.
  induction 1 as [|x l Hx _ IH]; simpl; lra.
Qed.

Lemma Rsum_sqr_nonneg (l : list R) : 0 <= Rsum (map Rsqr l).
Proof.
  apply Rsum_nonneg. apply Forall_forall. intros y Hy.
  apply in_map_iff in Hy. destruct Hy as (x & <- & _). apply Rle_0_sqr.
Qed.

(** Positions added on the right that contribute nothing leave a sum
    unchanged. *)
Lemma sum_upto_pad_right (n p : nat) (f : nat -> R) :
  (forall j, (n <= j < n + p)%nat -> f j = 0) ->
  sum_upto (n + p) f = sum_upto n f.
Proof.
  intros Hpad. unfold sum_upto.
  rewrite seq_app, map_app, Rsum_app.
  rewrite (Rsum_zero (l := map f (seq (0 + n) p))); [ring|].
  apply Forall_forall. intros y Hy.
  apply in_map_iff in Hy. destruct Hy as (j & <- & Hj).
  apply in_seq in Hj. apply Hpad. lia.
Qed.

Lemma seq_offset (p k n : nat) :
  seq (p + k) n = map (fun j => (p + j)%nat) (seq k n).
Proof.
  revert k. induction n as [|n IH]; intros k; simpl; [reflexivity|].
  f_equal. rewrite <- IH. f_equal. lia.
Qed.

(** Positions added on the left that contribute nothing shift a sum. *)
Lemma sum_upto_pad_left (n p : nat) (f : nat -> R) :
  (forall j, (j < p)%nat -> f j = 0) ->
  sum_upto (p + n) f = sum_upto n (fun j => f (p + j)%nat).
Proof.
  intros Hpad. unfold sum_upto.
  rewrite seq_app, map_app, Rsum_app.
  rewrite (Rsum_zero (l := map f (seq 0 p))).
  - rewrite Rplus_0_l. f_equal.
    rewrite Nat.add_0_l, <- (Nat.add_0_r p) at 1.
    rewrite seq_offset, map_map. reflexivity.
  - apply Forall_forall. intros y Hy.
    apply in_map_iff in Hy. destruct Hy as (j & <- & Hj).
    apply in_seq in Hj. apply Hpad. lia.
Qed.

Lemma nth_map_seq {A : Type} (f : nat -> A) (d : A) (n i : nat) :
  (i < n)%nat -> nth i (map f (seq 0 n)) d = f i.
Proof.
  intros Hi.
  rewrite (nth_indep _ d (f 0%nat)) by (rewrite length_map, length_seq; lia).
  rewrite map_nth, seq_nth by lia. reflexivity.
Qed.

End Sums.

(** ** Mean pooling and normalization *)

Section EmbeddingFacts.

Import Embedding.

Lemma expand_coordinate (n i : nat) : i < n -> (if n =? 1 then 0 else i) = i.
Proof.
  intros Hi. destruct (Nat.eqb_spec n 1); [lia | reflexivity].
Qed.

Lemma mean_pooling_run (token_embeddings : tensor R) (mask : tensor Z)
    (B S H : nat) :
  shape token_embeddings = [B; S; H] ->
  shape mask = [B; S] ->
  exists pooled,
    mean_pooling token_embeddings mask = Ok pooled
    /\ shape pooled = [B; H]
    /\ forall b h, b < B ->
         get pooled [b; h] = masked_mean token_embeddings mask S b h.
Proof.
  intros HE HM.
  destruct token_embeddings as [she g]; destruct mask as [shm gm].
  simpl in HE, HM; subst she shm.
  unfold mean_pooling, expand, unsqueeze_last. simpl.
  rewrite !Nat.eqb_refl, !orb_true_r. simpl.
  unfold mul, zip_with. simpl. rewrite shape_eqb_refl. simpl.
  unfold div, zip_with. simpl. rewrite shape_eqb_refl.
  eexists. split; [reflexivity|]. split; [reflexivity|].
  intros b h Hb. simpl. unfold masked_mean. simpl.
  f_equal.
  - apply sum_upto_ext_in. intros t Ht. unfold at_dim1. simpl.
    rewrite (expand_coordinate Hb), (expand_coordinate Ht). reflexivity.
  - f_equal. apply sum_upto_ext_in. intros t Ht. unfold at_dim1. simpl.
    rewrite (expand_coordinate Hb), (expand_coordinate Ht). reflexivity.
Qed.

Lemma l2_norm_sum_upto (H : nat) (f : nat -> R) :
  l2_norm (map f (seq 0 H)) = sqrt (sum_upto H (fun j => Rsqr (f j))).
Proof. unfold l2_norm, sum_upto. rewrite map_map. reflexivity. Qed.

Lemma embedding_of_run (token_embeddings : tensor R) (mask : tensor Z)
    (B S H : nat) :
  shape token_embeddings = [B; S; H] ->
  shape mask = [B; S] ->
  embedding_of token_embeddings mask
  = Ok (mkEmbedResponse
          (map (normalized_row token_embeddings mask S H) (seq 0 B))
          (if B =? 0 then 0 else H)).
Proof.
  intros HE HM.
  destruct (mean_pooling_run token_embeddings mask HE HM)
    as (pooled & Hp & Hsh & Hget).
  unfold embedding_of. rewrite Hp. cbn [rbind].
  destruct pooled as [shp gp]; simpl in Hsh, Hget; subst shp.
  unfold normalize_dim1, tolist. cbn [shape get rbind tolist_from].
  set (entry := fun b h : nat =>
         (gp [b; h]
          / Rmax (sqrt (sum_upto H (fun j => Rsqr (gp (set_dim1 j [b; h])))))
                 normalize_eps)%R).
  assert (Hrows : PyList
                    (map (fun b => PyList (map (fun h => PyFloat (entry b h))
                                               (seq 0 H))) (seq 0 B))
                  = py_matrix
                      (map (fun b => map (entry b) (seq 0 H)) (seq 0 B))).
  { unfold py_matrix, py_floats. rewrite map_map. f_equal.
    apply map_ext. intros b. rewrite map_map. reflexivity. }
  change (rbind
            (first_row_length
               (PyList
                  (map (fun b => PyList (map (fun h => PyFloat (entry b h))
                                             (seq 0 H))) (seq 0 B))))
            (fun dimensions =>
             rbind (as_float_matrix
                      (PyList
                         (map (fun b =>
                                 PyList (map (fun h => PyFloat (entry b h))
                                             (seq 0 H))) (seq 0 B))))
               (fun embeddings => Ok (mkEmbedResponse embeddings dimensions)))
          = Ok (mkEmbedResponse
                  (map (normalized_row token_embeddings mask S H) (seq 0 B))
                  (if B =? 0 then 0 else H))).
  assert (Hdim : first_row_length
                   (PyList
                      (map (fun b => PyList (map (fun h => PyFloat (entry b h))
                                                 (seq 0 H))) (seq 0 B)))
                 = Ok (if B =? 0 then 0 else H)).
  { destruct B as [|B']; [reflexivity|]. simpl.
    rewrite length_map, length_seq. reflexivity. }
  rewrite Hdim. cbn [rbind]. rewrite Hrows, as_float_matrix_py_matrix.
  cbn [rbind]. f_equal. f_equal.
  apply map_ext_in. intros b Hb. apply in_seq in Hb.
  unfold normalized_row, pooled_row. rewrite map_map.
  apply map_ext. intros h. unfold entry.
  rewrite l2_norm_sum_upto. rewrite Hget by lia.
  f_equal. f_equal. f_equal. apply sum_upto_ext_in. intros j _.
  unfold set_dim1. simpl. rewrite Hget by lia. reflexivity.
Qed.

Lemma embed_run (request : EmbedRequest) (st : state)
    (tok : Tokenizer) (m : Model) :
  let args :=
    mkTokenizerArgs (texts request) None true TruncationTrue 512 in
  tokenizer st = Some tok ->
  model st = Some m ->
  embed request st
  = match tok args with
    | Ok encoded =>
        (rbind (m encoded)
           (fun output => embedding_of output (attention_mask encoded)),
         logged (logged st (TokenizerCall args)) (ModelCall encoded))
    | Err e => (Err e, logged st (TokenizerCall args))
    end.
Proof.
  intros args Htok Hm. unfold embed. unfold_prog.
  rewrite (@call_tokenizer_loaded st tok _ Htok). fold args.
  destruct (tok args) as [encoded|e]; [|reflexivity].
  rewrite (@call_model_loaded (logged st (TokenizerCall args)) m encoded Hm).
  destruct (m encoded) as [output|e]; [|reflexivity].
  unfold embedding_of. cbn [rbind].
  destruct (mean_pooling output (attention_mask encoded)); [|reflexivity].
  cbn [rbind]. destruct (normalize_dim1 a); [|reflexivity].
  cbn [rbind]. destruct (first_row_length _); [|reflexivity].
  cbn [rbind]. destruct (as_float_matrix _); reflexivity.
Qed.

Section Normalization.

Local Open Scope R_scope.

Lemma normalize_eps_pos : 0 < normalize_eps.
Proof. unfold normalize_eps. lra. Qed.

Lemma pooling_floor_pos : 0 < pooling_floor.
Proof. unfold pooling_floor. lra. Qed.

(** A vector whose norm reaches the floor is scaled to norm 1. *)
Lemma l2_norm_normalized (v : list R) :
  normalize_eps <= l2_norm v ->
  l2_norm (map (fun x => x / Rmax (l2_norm v) normalize_eps) v) = 1.
Proof.
  intros Hn. pose proof normalize_eps_pos as Heps.
  rewrite Rmax_left by exact Hn.
  set (n := l2_norm v) in *.
  assert (Hpos : 0 < n) by lra.
  unfold l2_norm at 1. rewrite map_map.
  rewrite (map_ext (fun x => Rsqr (x / n)) (fun x => / (n * n) * Rsqr x)).
  2:{ intros x. unfold Rsqr. field. lra. }
  rewrite <- (map_map Rsqr (fun y => / (n * n) * y)), Rsum_scale.
  assert (Hsq : Rsum (map Rsqr v) = n * n).
  { unfold n, l2_norm. rewrite sqrt_sqrt; [reflexivity|].
    apply Rsum_sqr_nonneg. }
  rewrite Hsq. rewrite Rinv_l by nra. apply sqrt_1.
Qed.

(** The all-zero vector stays the all-zero vector, of norm 0. *)
Lemma l2_norm_zero (v : list R) :
  Forall (fun x => x = 0) v -> l2_norm v = 0.
Proof.
  intros Hz. unfold l2_norm. rewrite Rsum_zero; [apply sqrt_0|].
  apply Forall_forall. intros y Hy.
  apply in_map_iff in Hy. destruct Hy as (x & <- & Hx).
  rewrite Forall_forall in Hz. rewrite (Hz x Hx). apply Rsqr_0.
Qed.

End Normalization.

Section Padding.

Local Open Scope R_scope.

Lemma floor_divisor_pos (x : R) : 0 < Rmax pooling_floor x.
Proof.
  pose proof pooling_floor_pos. pose proof (Rmax_l pooling_floor x). lra.
Qed.

(** A masked mean reads the embeddings only where the mask is not 0. *)
Lemma masked_mean_ext (E E' : tensor R) (mask : tensor Z) (S b h : nat) :
  (forall t, (t < S)%nat -> get mask [b; t] <> 0%Z ->
             get E' [b; t; h] = get E [b; t; h]) ->
  masked_mean E' mask S b h = masked_mean E mask S b h.
Proof.
  intros Hagree. unfold masked_mean. f_equal.
  apply sum_upto_ext_in. intros t Ht.
  destruct (Z.eq_dec (get mask [b; t]) 0) as [Hz|Hnz].
  - rewrite Hz. simpl. ring.
  - rewrite (Hagree t Ht Hnz). reflexivity.
Qed.

(** Padding positions added after the tokens change nothing. *)
Lemma masked_mean_pad_right (E E' : tensor R) (mask mask' : tensor Z)
    (S P b h : nat) :
  (forall t, (t < S)%nat -> get mask' [b; t] = get mask [b; t]) ->
  (forall t, (t < S)%nat -> get E' [b; t; h] = get E [b; t; h]) ->
  (forall t, (S <= t < S + P)%nat -> get mask' [b; t] = 0%Z) ->
  masked_mean E' mask' (S + P) b h = masked_mean E mask S b h.
Proof.
  intros Hmask Hemb Hpad. unfold masked_mean.
  rewrite !sum_upto_pad_right.
  - f_equal.
    + apply sum_upto_ext_in. intros t Ht.
      rewrite (Hmask t Ht), (Hemb t Ht). reflexivity.
    + f_equal. apply sum_upto_ext_in. intros t Ht.
      rewrite (Hmask t Ht). reflexivity.
  - intros t Ht. rewrite (Hpad t Ht). reflexivity.
  - intros t Ht. rewrite (Hpad t Ht). simpl. ring.
Qed.

(** Padding positions added before the tokens change nothing. *)
Lemma masked_mean_pad_left (E E' : tensor R) (mask mask' : tensor Z)
    (S P b h : nat) :
  (forall t, (t < S)%nat -> get mask' [b; (P + t)%nat] = get mask [b; t]) ->
  (forall t, (t < S)%nat -> get E' [b; (P + t)%nat; h] = get E [b; t; h]) ->
  (forall t, (t < P)%nat -> get mask' [b; t] = 0%Z) ->
  masked_mean E' mask' (P + S) b h = masked_mean E mask S b h.
Proof.
  intros Hmask Hemb Hpad. unfold masked_mean.
  rewrite !sum_upto_pad_left.
  - f_equal.
    + apply sum_upto_ext_in. intros t Ht.
      rewrite (Hmask t Ht), (Hemb t Ht). reflexivity.
    + f_equal. apply sum_upto_ext_in. intros t Ht.
      rewrite (Hmask t Ht). reflexivity.
  - intros t Ht. rewrite (Hpad t Ht). reflexivity.
  - intros t Ht. rewrite (Hpad t Ht). simpl. ring.
Qed.

(** A row that is all padding pools to zero. *)
Lemma masked_mean_all_padding (E : tensor R) (mask : tensor Z) (S b h : nat) :
  (forall t, (t < S)%nat -> get mask [b; t] = 0%Z) ->
  masked_mean E mask S b h = 0.
Proof.
  intros Hpad. unfold masked_mean.
  rewrite (sum_upto_ext_in _ (fun _ => 0)).
  - unfold sum_upto. rewrite Rsum_zero.
    + unfold Rdiv. ring.
    + apply Forall_forall. intros y Hy.
      apply in_map_iff in Hy. destruct Hy as (j & <- & _). reflexivity.
  - intros t Ht. rewrite (Hpad t Ht). simpl. ring.
Qed.

End Padding.

(** Two matrices of the same shape with the same entries give the same
    nested list. *)
Lemma tolist_ext_matrix (t t' : tensor R) (B H : nat) :
  shape t = [B; H] -> shape t' = [B; H] ->
  (forall b h, b < B -> h < H -> get t [b; h] = get t' [b; h]) ->
  tolist t = tolist t'.
Proof.
  intros Hs Hs' Heq. unfold tolist. rewrite Hs, Hs'. simpl. f_equal.
  apply map_ext_in. intros b Hb. apply in_seq in Hb. f_equal.
  apply map_ext_in. intros h Hh. apply in_seq in Hh. f_equal.
  apply Heq; lia.
Qed.

End EmbeddingFacts.

(** ** Loading *)

(** A start-up that finds the weights and the tokenizer leaves the
    quantized model and the tokenizer in the globals, and calls
    neither. *)
Lemma cross_encoder_startup_loads (load_model : string -> result Model)
    (load_tokenizer : string -> result Tokenizer) (quantize : Model -> Model)
    (m : Model) (t : Tokenizer) (st : state) :
  load_model CrossEncoder.model_id = Ok m ->
  load_tokenizer CrossEncoder.model_id = Ok t ->
  CrossEncoder.lifespan_startup load_model load_tokenizer quantize st
  = (Ok tt, mkState (Some (quantize m)) (Some t) (calls st)).
Proof.
  intros Hm Ht. unfold CrossEncoder.lifespan_startup. unfold_prog.
  rewrite Hm. cbn. rewrite Ht. reflexivity.
Qed.

Lemma embedding_startup_loads (load_tokenizer : string -> result Tokenizer)
    (load_model : string -> result Model) (quantize : Model -> Model)
    (m : Model) (t : Tokenizer) (st : state) :
  load_tokenizer Embedding.model_id = Ok t ->
  load_model Embedding.model_id = Ok m ->
  Embedding.lifespan_startup load_tokenizer load_model quantize st
  = (Ok tt, mkState (Some (quantize m)) (Some t) (calls st)).
Proof.
  intros Ht Hm. unfold Embedding.lifespan_startup. unfold_prog.
  rewrite Ht. cbn. rewrite Hm. reflexivity.
Qed.

(** A start-up that cannot find the weights raises, and the cross-encoder
    service is left with nothing loaded. *)
Lemma cross_encoder_startup_fails (load_model : string -> result Model)
    (load_tokenizer : string -> result Tokenizer) (quantize : Model -> Model)
    (e : exn) (st : state) :
  load_model CrossEncoder.model_id = Err e ->
  CrossEncoder.lifespan_startup load_model load_tokenizer quantize st
  = (Err e, st).
Proof.
  intros Hm. unfold CrossEncoder.lifespan_startup. unfold_prog.
  rewrite Hm. reflexivity.
Qed.

(** ** Rounding to binary32 *)

Section Float32Facts.

Local Open Scope R_scope.

Lemma Int_part_bounds (r : R) : IZR (Int_part r) <= r < IZR (Int_part r) + 1.
Proof. destruct (base_Int_part r). lra. Qed.

Lemma Int_part_eq (r : R) (z : Z) : IZR z <= r < IZR z + 1 -> Int_part r = z.
Proof. intros H. symmetry. apply Int_part_spec. lra. Qed.

Lemma ln2_pos : 0 < ln 2.
Proof. rewrite <- ln_1. apply ln_increasing; lra. Qed.

Lemma pow2_pos (k : Z) : 0 < Float32.pow2 k.
Proof. apply powerRZ_lt. lra. Qed.

Lemma ln_pow2 (k : Z) : ln (Float32.pow2 k) = IZR k * ln 2.
Proof.
  unfold Float32.pow2. rewrite powerRZ_Rpower by lra.
  unfold Rpower. apply ln_exp.
Qed.

Lemma pow2_add (a b : Z) :
  Float32.pow2 (a + b) = Float32.pow2 a * Float32.pow2 b.
Proof. unfold Float32.pow2. apply powerRZ_add. lra. Qed.

Lemma pow2_le (a b : Z) : (a <= b)%Z -> Float32.pow2 a <= Float32.pow2 b.
Proof.
  intros H. unfold Float32.pow2. rewrite !powerRZ_Rpower by lra.
  unfold Rpower. pose proof ln2_pos as H2.
  destruct (Z.eq_dec a b) as [->|Hne]; [lra|].
  left. apply exp_increasing. apply Rmult_lt_compat_r; [exact H2|].
  apply IZR_lt. lia.
Qed.

(** A number of the binade [2^k, 2^(k+1)) has exponent [k]. *)
Lemma exponent_eq (x : R) (k : Z) :
  Float32.pow2 k <= Rabs x < Float32.pow2 (k + 1) -> Float32.exponent x = k.
Proof.
  intros [Hlo Hhi]. unfold Float32.exponent. apply Int_part_eq.
  pose proof ln2_pos as H2. pose proof (pow2_pos k) as Hk.
  assert (H1 : IZR k * ln 2 <= ln (Rabs x)).
  { rewrite <- ln_pow2. destruct Hlo as [Hlo|Hlo].
    - left. apply ln_increasing; assumption.
    - rewrite Hlo. right. reflexivity. }
  assert (H3 : ln (Rabs x) < IZR (k + 1) * ln 2).
  { rewrite <- ln_pow2. apply ln_increasing; lra. }
  rewrite plus_IZR in H3.
  split.
  - apply (Rmult_le_reg_r (ln 2)); [exact H2|].
    unfold Rdiv. rewrite Rmult_assoc, Rinv_l by lra. lra.
  - apply (Rmult_lt_reg_r (ln 2)); [exact H2|].
    unfold Rdiv. rewrite Rmult_assoc, Rinv_l by lra. lra.
Qed.

Lemma exponent_le (x : R) (k : Z) :
  0 < Rabs x < Float32.pow2 (k + 1) -> (Float32.exponent x <= k)%Z.
Proof.
  intros [Hpos Hhi]. unfold Float32.exponent.
  pose proof ln2_pos as H2.
  pose proof (Int_part_bounds (ln (Rabs x) / ln 2)) as [Hb _].
  assert (H3 : ln (Rabs x) < IZR (k + 1) * ln 2).
  { rewrite <- ln_pow2. apply ln_increasing; lra. }
  assert (H4 : ln (Rabs x) / ln 2 < IZR (k + 1)).
  { apply (Rmult_lt_reg_r (ln 2)); [exact H2|].
    unfold Rdiv. rewrite Rmult_assoc, Rinv_l by lra. lra. }
  assert (H5 : IZR (Int_part (ln (Rabs x) / ln 2)) < IZR (k + 1)) by lra.
  apply lt_IZR in H5. lia.
Qed.

Lemma nearest_even_error (r : R) :
  Rabs (IZR (Float32.nearest_even r) - r) <= 1 / 2.
Proof.
  unfold Float32.nearest_even. pose proof (Int_part_bounds r) as [Hlo Hhi].
  destruct (Rlt_dec (r - IZR (Int_part r)) (1 / 2)) as [H|H].
  - unfold Rabs. destruct (Rcase_abs _); lra.
  - destruct (Rlt_dec (1 / 2) (r - IZR (Int_part r))) as [H'|H'].
    + rewrite plus_IZR. unfold Rabs. destruct (Rcase_abs _); lra.
    + destruct (Z.even (Int_part r)).
      * unfold Rabs. destruct (Rcase_abs _); lra.
      * rewrite plus_IZR. unfold Rabs. destruct (Rcase_abs _); lra.
Qed.

Lemma nearest_even_nonneg (r : R) :
  0 <= r -> (0 <= Float32.nearest_even r)%Z.
Proof.
  intros Hr. pose proof (Int_part_bounds r) as [Hlo Hhi].
  assert (H0 : (0 <= Int_part r)%Z).
  { assert (IZR (-1) < IZR (Int_part r)) by (simpl; lra).
    apply lt_IZR in H. lia. }
  unfold Float32.nearest_even.
  destruct (Rlt_dec _ _); [exact H0|].
  destruct (Rlt_dec _ _); [lia|].
  destruct (Z.even _); lia.
Qed.

Lemma nearest_even_eq (r : R) (z : Z) :
  IZR z <= r < IZR z + 1 / 2 -> Float32.nearest_even r = z.
Proof.
  intros H. unfold Float32.nearest_even.
  rewrite (@Int_part_eq r z) by lra.
  destruct (Rlt_dec (r - IZR z) (1 / 2)); [reflexivity | lra].
Qed.

Lemma round_0 : Float32.round 0 = 0.
Proof.
  unfold Float32.round. destruct (Req_dec_T 0 0); [reflexivity | lra].
Qed.

(** Every normal binary32 number, a 24-bit significand times a power of
    two, is a fixed point of the rounding. *)
Lemma round_exact (n e : Z) :
  (8388608 <= Z.abs n < 16777216)%Z -> (-149 <= e)%Z ->
  Float32.round (IZR n * Float32.pow2 e) = IZR n * Float32.pow2 e.
Proof.
  intros Hn He. pose proof (pow2_pos e) as Hp.
  assert (Hn0 : IZR n <> 0).
  { intro H. apply eq_IZR in H. lia. }
  assert (Hx : IZR n * Float32.pow2 e <> 0).
  { apply Rmult_integral_contrapositive_currified; lra. }
  assert (Hexp : Float32.exponent (IZR n * Float32.pow2 e) = (23 + e)%Z).
  { apply exponent_eq.
    rewrite Rabs_mult, <- abs_IZR, (Rabs_pos_eq (Float32.pow2 e)) by lra.
    replace (23 + e + 1)%Z with (24 + e)%Z by lia.
    rewrite !pow2_add.
    assert (H1 : IZR 8388608 <= IZR (Z.abs n)) by (apply IZR_le; lia).
    assert (H2 : IZR (Z.abs n) < IZR 16777216) by (apply IZR_lt; lia).
    assert (E23 : Float32.pow2 23 = 8388608)
      by (unfold Float32.pow2; simpl; lra).
    assert (E24 : Float32.pow2 24 = 16777216)
      by (unfold Float32.pow2; simpl; lra).
    rewrite E23, E24. split.
    - apply Rmult_le_compat_r; lra.
    - apply Rmult_lt_compat_r; lra. }
  unfold Float32.round. destruct (Req_dec_T _ _) as [H|_]; [contradiction|].
  unfold Float32.ulp_exponent. rewrite Hexp.
  unfold Float32.emin, Float32.precision.
  replace (Z.max (23 + e) (-126) - (24 - 1))%Z with e by lia.
  replace (IZR n * Float32.pow2 e / Float32.pow2 e) with (IZR n)
    by (field; lra).
  rewrite (@nearest_even_eq (IZR n) n) by lra. reflexivity.
Qed.

(** The rounding moves a number by at most half the spacing around it. *)
Lemma round_error (x : R) :
  Rabs (Float32.round x - x) <= Float32.pow2 (Float32.ulp_exponent x) / 2.
Proof.
  unfold Float32.round.
  pose proof (pow2_pos (Float32.ulp_exponent x)) as Hp.
  destruct (Req_dec_T x 0) as [->|Hx].
  - rewrite Rminus_diag, Rabs_R0. lra.
  - set (u := Float32.pow2 (Float32.ulp_exponent x)) in *.
    pose proof (nearest_even_error (x / u)) as Hn.
    replace (IZR (Float32.nearest_even (x / u)) * u - x)
      with ((IZR (Float32.nearest_even (x / u)) - x / u) * u) by (field; lra).
    rewrite Rabs_mult, (Rabs_pos_eq u) by lra.
    apply Rmult_le_compat_r with (r := u) in Hn; lra.
Qed.

Lemma round_nonneg (x : R) : 0 <= x -> 0 <= Float32.round x.
Proof.
  intros Hx. unfold Float32.round. destruct (Req_dec_T x 0); [lra|].
  pose proof (pow2_pos (Float32.ulp_exponent x)) as Hp.
  apply Rmult_le_pos; [|lra].
  apply IZR_le. apply nearest_even_nonneg.
  apply Rmult_le_pos; [lra|]. left. apply Rinv_0_lt_compat. exact Hp.
Qed.

(** Just above 1 the spacing is [2^-23]: what exceeds 1 by less than half
    of it rounds to 1. *)
Lemma round_1_plus (d : R) :
  0 <= d < / 16777216 -> Float32.round (1 + d) = 1.
Proof.
  intros [Hd0 Hd].
  assert (E23 : Float32.pow2 (-23) = / 8388608)
    by (unfold Float32.pow2; simpl; lra).
  assert (Hexp : Float32.exponent (1 + d) = 0%Z).
  { apply exponent_eq. rewrite Rabs_pos_eq by lra.
    unfold Float32.pow2; simpl. lra. }
  unfold Float32.round. destruct (Req_dec_T _ _) as [H|_]; [lra|].
  unfold Float32.ulp_exponent. rewrite Hexp.
  unfold Float32.emin, Float32.precision.
  change (Z.max 0 (-126) - (24 - 1))%Z with (-23)%Z.
  rewrite E23.
  rewrite (@nearest_even_eq _ 8388608%Z); lra.
Qed.

(** The successor of 1 is kept, and the midpoint between 1 and its
    successor goes to 1, whose significand is even. *)
Lemma round_near_1 :
  Float32.round (1 + / 8388608) = 1 + / 8388608
  /\ Float32.round (1 + / 16777216) = 1.
Proof.
  assert (E23 : Float32.pow2 (-23) = / 8388608)
    by (unfold Float32.pow2; simpl; lra).
  split.
  - replace (1 + / 8388608) with (IZR 8388609 * Float32.pow2 (-23))
      by (rewrite E23; lra).
    apply round_exact; lia.
  - assert (Hexp : Float32.exponent (1 + / 16777216) = 0%Z).
    { apply exponent_eq. rewrite Rabs_pos_eq by lra.
      unfold Float32.pow2; simpl. lra. }
    unfold Float32.round. destruct (Req_dec_T _ _) as [H|_]; [lra|].
    unfold Float32.ulp_exponent. rewrite Hexp.
    unfold Float32.emin, Float32.precision.
    change (Z.max 0 (-126) - (24 - 1))%Z with (-23)%Z.
    rewrite E23. unfold Float32.nearest_even.
    rewrite (@Int_part_eq _ 8388608%Z) by lra.
    destruct (Rlt_dec _ _) as [H|_]; [lra|].
    destruct (Rlt_dec _ _) as [H|_]; [lra|].
    change (Z.even 8388608) with true. cbv iota. lra.
Qed.

Lemma round_1 : Float32.round 1 = 1.
Proof.
  replace 1 with (1 + 0) at 1 by ring. apply round_1_plus. lra.
Qed.

(** A positive number below [2^-25] rounds to a number below [2^-24]. *)
Lemma round_tiny (y : R) :
  0 < y <= / 33554432 -> 0 <= Float32.round y < / 16777216.
Proof.
  intros [Hy0 Hy]. split; [apply round_nonneg; lra|].
  assert (E24 : Float32.pow2 (-24) = / 16777216)
    by (unfold Float32.pow2; simpl; lra).
  assert (E48 : Float32.pow2 (-48) = / 281474976710656)
    by (unfold Float32.pow2; simpl; lra).
  assert (Hexp : (Float32.exponent y <= -25)%Z).
  { apply exponent_le. rewrite Rabs_pos_eq by lra.
    change (-25 + 1)%Z with (-24)%Z. rewrite E24. lra. }
  assert (Hu : Float32.pow2 (Float32.ulp_exponent y) <= / 281474976710656).
  { rewrite <- E48. apply pow2_le.
    unfold Float32.ulp_exponent, Float32.emin, Float32.precision. lia. }
  pose proof (round_error y) as Herr.
  unfold Rabs in Herr. destruct (Rcase_abs _); lra.
Qed.

Lemma exp_double (x y : R) : y = x + x -> exp y = exp x * exp x.
Proof. intros ->. apply exp_plus. Qed.

(** [e^-20] is below [2^-25]. *)
Lemma exp_minus_20 : 0 < exp (- 20) <= / 33554432.
Proof.
  split; [apply exp_pos|].
  assert (Hq : 5 / 4 <= exp (1 / 4)).
  { pose proof (exp_ineq1_le (1 / 4)). lra. }
  assert (Hh : 25 / 16 <= exp (1 / 2)).
  { rewrite (@exp_double (1 / 4) (1 / 2)) by lra. nra. }
  assert (H1 : 61 / 25 <= exp 1).
  { rewrite (@exp_double (1 / 2) 1) by lra. nra. }
  assert (H2 : 59 / 10 <= exp 2).
  { rewrite (@exp_double 1 2) by lra. nra. }
  assert (H4 : 32 <= exp 4).
  { rewrite (@exp_double 2 4) by lra. nra. }
  assert (H8 : 1024 <= exp 8).
  { rewrite (@exp_double 4 8) by lra. nra. }
  assert (H16 : 1048576 <= exp 16).
  { rewrite (@exp_double 8 16) by lra. nra. }
  assert (H20 : 33554432 <= exp 20).
  { replace 20 with (16 + 4) by lra. rewrite exp_plus. nra. }
  replace (exp (- 20)) with (/ exp 20)
    by (rewrite <- exp_Ropp; f_equal; lra).
  apply Rinv_le_contravar; lra.
Qed.

(** The binary32 numbers that the saturated score passes through. *)
Lemma round_minus_20 : Float32.round (- 20) = - 20.
Proof.
  assert (E : - 20 = IZR (-10485760) * Float32.pow2 (-19))
    by (unfold Float32.pow2; simpl; lra).
  rewrite E. apply round_exact; lia.
Qed.

Lemma nearest_even_nonpos (r : R) :
  r <= 0 -> (Float32.nearest_even r <= 0)%Z.
Proof.
  intros Hr. pose proof (Int_part_bounds r) as [Hlo Hhi].
  assert (H0 : (Int_part r <= 0)%Z) by (apply le_IZR; lra).
  unfold Float32.nearest_even.
  destruct (Rlt_dec _ _) as [H|H]; [exact H0|].
  assert (H1 : (Int_part r < 0)%Z) by (apply lt_IZR; lra).
  destruct (Rlt_dec _ _); [lia|].
  destruct (Z.even _); lia.
Qed.

Lemma nearest_even_floor (r : R) : (Int_part r <= Float32.nearest_even r)%Z.
Proof.
  unfold Float32.nearest_even.
  destruct (Rlt_dec _ _); [lia|].
  destruct (Rlt_dec _ _); [lia|].
  destruct (Z.even _); lia.
Qed.

Lemma nearest_even_ceil (r : R) :
  (Float32.nearest_even r <= Int_part r + 1)%Z.
Proof.
  unfold Float32.nearest_even.
  destruct (Rlt_dec _ _); [lia|].
  destruct (Rlt_dec _ _); [lia|].
  destruct (Z.even _); lia.
Qed.

Lemma round_nonpos (x : R) : x <= 0 -> Float32.round x <= 0.
Proof.
  intros Hx. unfold Float32.round. destruct (Req_dec_T x 0); [lra|].
  pose proof (pow2_pos (Float32.ulp_exponent x)) as Hp.
  assert (Hq : x / Float32.pow2 (Float32.ulp_exponent x) <= 0).
  { unfold Rdiv.
    pose proof (Rinv_0_lt_compat _ Hp). nra. }
  pose proof (nearest_even_nonpos Hq) as Hn. apply IZR_le in Hn.
  nra.
Qed.

(** The power of two of its binade is below a number, and the next one
    is above it. *)
Lemma pow2_exponent (x : R) :
  x <> 0 ->
  Float32.pow2 (Float32.exponent x) <= Rabs x
  < Float32.pow2 (Float32.exponent x + 1).
Proof.
  intros Hx. pose proof (Rabs_pos_lt x Hx) as Ha.
  pose proof ln2_pos as H2.
  pose proof (Int_part_bounds (ln (Rabs x) / ln 2)) as [Hlo Hhi].
  fold (Float32.exponent x) in Hlo, Hhi.
  assert (E : ln (Rabs x) / ln 2 * ln 2 = ln (Rabs x)) by (field; lra).
  set (e := Float32.exponent x) in *.
  assert (H1 : exp (IZR e * ln 2) <= exp (ln (Rabs x))).
  { destruct Hlo as [Hlo|Hlo].
    - left. apply exp_increasing. nra.
    - right. f_equal. nra. }
  assert (H3 : exp (ln (Rabs x)) < exp (IZR (e + 1) * ln 2)).
  { apply exp_increasing. rewrite plus_IZR. nra. }
  rewrite exp_ln in H1, H3 by exact Ha.
  unfold Float32.pow2. rewrite !powerRZ_Rpower by lra. unfold Rpower.
  split; assumption.
Qed.

(** Rounding does not cross 1 from above. *)
Lemma round_ge_1 (x : R) : 1 <= x -> 1 <= Float32.round x.
Proof.
  intros Hx.
  assert (Hx0 : x <> 0) by lra.
  destruct (pow2_exponent Hx0) as [Hlo Hhi].
  rewrite Rabs_pos_eq in Hlo, Hhi by lra.
  set (e := Float32.exponent x) in *.
  assert (He : (0 <= e)%Z).
  { unfold e, Float32.exponent.
    pose proof ln2_pos as H2.
    assert (Hl : 0 <= ln (Rabs x) / ln 2).
    { rewrite Rabs_pos_eq by lra.
      apply Rmult_le_pos; [|left; apply Rinv_0_lt_compat; exact H2].
      rewrite <- ln_1. destruct Hx as [Hx|Hx].
      - left. apply ln_increasing; lra.
      - rewrite <- Hx. lra. }
    pose proof (Int_part_bounds (ln (Rabs x) / ln 2)) as [_ Hb].
    assert (IZR (-1) < IZR (Int_part (ln (Rabs x) / ln 2))) by (simpl; lra).
    apply lt_IZR in H. lia. }
  unfold Float32.round. destruct (Req_dec_T x 0) as [H|_]; [lra|].
  unfold Float32.ulp_exponent. fold e.
  unfold Float32.emin, Float32.precision.
  replace (Z.max e (-126) - (24 - 1))%Z with (e + -23)%Z by lia.
  set (u := Float32.pow2 (e + -23)).
  assert (Hu : 0 < u) by apply pow2_pos.
  assert (E23 : Float32.pow2 23 = 8388608)
    by (unfold Float32.pow2; simpl; lra).
  assert (Eu : u * 8388608 = Float32.pow2 e).
  { unfold u. rewrite <- E23, <- pow2_add. f_equal. lia. }
  assert (Hq : 8388608 <= x / u).
  { apply (Rmult_le_reg_r u); [exact Hu|].
    unfold Rdiv. rewrite Rmult_assoc, Rinv_l by lra. lra. }
  pose proof (Int_part_bounds (x / u)) as [_ Hf].
  assert (Hfl : (8388608 <= Int_part (x / u))%Z).
  { assert (IZR 8388607 < IZR (Int_part (x / u))) by lra.
    apply lt_IZR in H. lia. }
  pose proof (nearest_even_floor (x / u)) as Hn.
  assert (Hn' : 8388608 <= IZR (Float32.nearest_even (x / u))).
  { apply IZR_le. lia. }
  assert (H1 : 1 <= Float32.pow2 e).
  { change 1 with (Float32.pow2 0). apply pow2_le. exact He. }
  nra.
Qed.

(** Rounding does not cross 1 from below. *)
Lemma round_le_1 (x : R) : 0 < x <= 1 -> Float32.round x <= 1.
Proof.
  intros [Hx0 [Hx1|Hx1]]; [|rewrite Hx1, round_1; lra].
  assert (Hne : x <> 0) by lra.
  destruct (pow2_exponent Hne) as [_ Hhi].
  rewrite Rabs_pos_eq in Hhi by lra.
  assert (He : (Float32.exponent x <= -1)%Z).
  { apply exponent_le. rewrite Rabs_pos_eq by lra.
    change (Float32.pow2 (-1 + 1)) with (Float32.pow2 0).
    unfold Float32.pow2; simpl. lra. }
  unfold Float32.round. destruct (Req_dec_T x 0) as [H|_]; [lra|].
  unfold Float32.ulp_exponent, Float32.emin, Float32.precision.
  set (E := Z.max (Float32.exponent x) (-126)).
  assert (HE : (Float32.exponent x <= E <= -1)%Z) by (unfold E; lia).
  replace (E - (24 - 1))%Z with (E + 1 + -24)%Z by lia.
  set (u := Float32.pow2 (E + 1 + -24)).
  assert (Hu : 0 < u) by apply pow2_pos.
  assert (E24 : Float32.pow2 24 = 16777216)
    by (unfold Float32.pow2; simpl; lra).
  assert (Eu : u * 16777216 = Float32.pow2 (E + 1)).
  { unfold u. rewrite <- E24, <- pow2_add. f_equal. lia. }
  assert (Hx2 : x < Float32.pow2 (E + 1)).
  { apply (Rlt_le_trans _ _ _ Hhi). apply pow2_le. lia. }
  assert (Hq : x / u < 16777216).
  { apply (Rmult_lt_reg_r u); [exact Hu|].
    unfold Rdiv. rewrite Rmult_assoc, Rinv_l by lra. lra. }
  pose proof (Int_part_bounds (x / u)) as [Hf _].
  assert (Hfl : (Int_part (x / u) < 16777216)%Z).
  { apply lt_IZR. lra. }
  pose proof (nearest_even_ceil (x / u)) as Hn.
  assert (Hn' : IZR (Float32.nearest_even (x / u)) <= 16777216).
  { apply IZR_le. lia. }
  assert (H1 : Float32.pow2 (E + 1) <= 1).
  { change 1 with (Float32.pow2 0). apply pow2_le. lia. }
  nra.
Qed.

Section Float32Score.

Import Described.

(** On float32 tensors the yes entry of the two-way softmax lies in the
    closed interval from 0 to 1, whatever the logits. *)
Lemma float32_yes_probability_bounds (lno lyes : R) :
  0 <= float32_yes_probability lno lyes <= 1.
Proof.
  unfold float32_yes_probability.
  set (m := Rmax lno lyes).
  assert (Hno : lno <= m) by apply Rmax_l.
  assert (Hyes : lyes <= m) by apply Rmax_r.
  set (eno := Float32.fexp (Float32.fsub lno m)).
  set (eyes := Float32.fexp (Float32.fsub lyes m)).
  assert (Heno : 0 <= eno).
  { apply round_nonneg. left. apply exp_pos. }
  assert (Heyes : 0 <= eyes).
  { apply round_nonneg. left. apply exp_pos. }
  assert (Hone : eno = 1 \/ eyes = 1).
  { unfold m, Rmax. destruct (Rle_dec lno lyes).
    - right. unfold eyes, m, Rmax. destruct (Rle_dec lno lyes); [|lra].
      unfold Float32.fexp, Float32.fsub.
      rewrite Rminus_diag, round_0, exp_0. apply round_1.
    - left. unfold eno, m, Rmax. destruct (Rle_dec lno lyes); [lra|].
      unfold Float32.fexp, Float32.fsub.
      rewrite Rminus_diag, round_0, exp_0. apply round_1. }
  assert (Htotal : 1 <= Float32.fadd eno eyes).
  { apply round_ge_1. destruct Hone; lra. }
  assert (Hln : 0 <= Float32.fln (Float32.fadd eno eyes)).
  { apply round_nonneg. rewrite <- ln_1.
    destruct Htotal as [Ht|Ht].
    - left. apply ln_increasing; lra.
    - rewrite <- Ht. lra. }
  assert (Ha : Float32.fsub lyes m <= 0) by (apply round_nonpos; lra).
  assert (Hz : Float32.fsub (Float32.fsub lyes m)
                 (Float32.fln (Float32.fadd eno eyes)) <= 0)
    by (apply round_nonpos; lra).
  set (z := Float32.fsub _ _) in *.
  unfold Float32.fexp. split.
  - apply round_nonneg. left. apply exp_pos.
  - apply round_le_1. split; [apply exp_pos|].
    rewrite <- exp_0. destruct Hz as [Hz|Hz].
    + left. apply exp_increasing. exact Hz.
    + rewrite Hz. lra.
Qed.

(** In float32 the yes entry for the logits (0, 20) is exactly 1. *)
Lemma float32_yes_probability_saturates :
  float32_yes_probability 0 20 = 1.
Proof.
  unfold float32_yes_probability.
  rewrite Rmax_right by lra.
  unfold Float32.fsub, Float32.fexp, Float32.fadd, Float32.fln.
  replace (20 - 20) with 0 by ring.
  replace (0 - 20) with (- 20) by ring.
  rewrite round_0, round_minus_20, exp_0, round_1.
  pose proof (round_tiny exp_minus_20) as Hd.
  rewrite (Rplus_comm _ 1), (round_1_plus Hd).
  rewrite ln_1, round_0.
  replace (0 - 0) with 0 by ring.
  rewrite round_0, exp_0. apply round_1.
Qed.

Lemma compute_logits_float32_run (token_true_id token_false_id : nat)
    (inputs : BatchEncoding) (st : state) (m : Model)
    (logits : tensor R) (B S V : nat) :
  model st = Some m ->
  m inputs = Ok logits ->
  shape logits = [B; S; V] ->
  (0 < S)%nat -> (token_true_id < V)%nat -> (token_false_id < V)%nat ->
  Qwen3Float32.compute_logits token_true_id token_false_id inputs st
  = (Ok (py_floats
           (map (float32_score token_true_id token_false_id logits S)
                (seq 0 B))),
     logged st (ModelCall inputs)).
Proof.
  intros Hm Hrun Hshape HS Hyes Hno.
  destruct logits as [sh g]; simpl in Hshape; subst sh.
  unfold Qwen3Float32.compute_logits. unfold_prog.
  rewrite (@call_model_loaded st m inputs Hm), Hrun.
  unfold select_last_dim1; simpl.
  destruct S as [|S']; [lia|]. simpl.
  apply Nat.ltb_lt in Hyes, Hno.
  unfold select_dim1 at 1; simpl. rewrite Hyes.
  unfold select_dim1 at 1; simpl. rewrite Hno.
  unfold stack2_dim1; simpl. rewrite shape_eqb_refl.
  unfold Float32.log_softmax_dim1; simpl. unfold select_dim1; simpl.
  unfold py_floats. f_equal. f_equal.
  unfold tolist; simpl. f_equal. rewrite map_map.
  apply map_ext. intros b.
  unfold float32_score, float32_yes_probability, final_logit.
  simpl. rewrite ?Nat.sub_0_r. reflexivity.
Qed.

End Float32Score.

End Float32Facts.

(* ================================================================== *)
(** * The claims of the specification                                  *)
(* ================================================================== *)

Section Claims.

Import Described.

(** C2. Given the logits of a batch of N templated prompts, one forward
    pass is made and the score of each pair is derived from the logits at
    the final sequence position only: the logits of the yes token and of
    the no token are gathered, stacked as (no, yes), log-softmax is taken
    over that two-way axis for each pair, and the yes log-probability is
    exponentiated, which gives a score in [0,1] for each pair. *)
Theorem C2_causal_lm_score_derivation :
  forall (token_true_id token_false_id : nat) (inputs : BatchEncoding)
         (st : state) (m : Model) (logits : tensor R) (N S V : nat),
    model st = Some m ->
    m inputs = Ok logits ->
    shape logits = [N; S; V] ->
    0 < S -> token_true_id < V -> token_false_id < V ->
    let lyes := fun b => get logits [b; S - 1; token_true_id] in
    let lno := fun b => get logits [b; S - 1; token_false_id] in
    let score := fun b => exp (lyes b - ln (exp (lno b) + exp (lyes b))) in
    Qwen3.compute_logits token_true_id token_false_id inputs st
    = (Ok (py_floats (map score (seq 0 N))), logged st (ModelCall inputs))
    /\ (exists lsm,
          decision_log_probs token_true_id token_false_id logits = Ok lsm
          /\ shape lsm = [N; 2]
          /\ forall b,
               get lsm [b; 0] = (lno b - ln (exp (lno b) + exp (lyes b)))%R
               /\ get lsm [b; 1]
                  = (lyes b - ln (exp (lno b) + exp (lyes b)))%R
               /\ score b = exp (get lsm [b; 1]))
    /\ (forall b, (0 <= score b <= 1)%R).
Proof.
  intros yes no inputs st m logits N S V Hm Hrun Hshape HS Hyes Hno
         lyes lno score.
  split; [|split].
  - apply compute_logits_run with (m := m) (V := V); assumption.
  - destruct (@decision_log_probs_run yes no logits N S V Hshape HS Hyes Hno)
      as (lsm & Hdec & Hsh & Hent).
    exists lsm. split; [exact Hdec|]. split; [exact Hsh|].
    intros b. destruct (Hent b) as [H0 H1].
    split; [exact H0|]. split; [exact H1|].
    unfold score. f_equal. symmetry. exact H1.
  - intros b. unfold score.
    rewrite exp_log_softmax2_yes.
    pose proof (sigmoid_fn_bounds (lyes b - lno b)). lra.
Qed.

Lemma C2_witness :
  let inputs :=
    mkBatchEncoding (mkTensor [2; 3] (fun _ => 7%Z))
                    (mkTensor [2; 3] (fun _ => 1%Z)) in
  let st := Stub.loaded Stub.tokenizer Stub.causal_lm in
  let logits := mkTensor [2; 3; 4] (fun idx => INR (nth 2 idx 0)) in
  let score :=
    fun b : nat =>
      exp (get logits [b; 3 - 1; 1]
           - ln (exp (get logits [b; 3 - 1; 2])
                 + exp (get logits [b; 3 - 1; 1]))) in
  Qwen3.compute_logits 1 2 inputs st
  = (Ok (py_floats (map score (seq 0 2))), logged st (ModelCall inputs))
  /\ forall b, (0 <= score b <= 1)%R.
Proof.
  intros inputs st logits score.
  destruct (@C2_causal_lm_score_derivation 1 2 inputs st Stub.causal_lm
              logits 2 3 4 eq_refl eq_refl eq_refl
              ltac:(lia) ltac:(lia) ltac:(lia)) as (Hrun & _ & Hbound).
  split; [exact Hrun | exact Hbound].
Defined.

(** C7. Each query/document pair of the causal-LM path is rendered, before
    it is tokenized, as the prefix, then the Instruct, Query and Document
    lines, then the suffix; an instruction the caller does not supply is
    the fixed relevance-judgment string. The tokenizer is called once, on
    exactly these texts, in the order of the pairs. *)
Theorem C7_prompt_rendering :
  forall (instruction : option string) (queries documents : list string)
         (st : state) (tok : Tokenizer),
    List.length queries = List.length documents ->
    tokenizer st = Some tok ->
    let instr :=
      match instruction with
      | Some i => i
      | None =>
          "Given a web search query, retrieve relevant passages that answer the query"%string
      end in
    let core := fun q d : string =>
      ("<Instruct>: " ++ instr ++ Qwen3.nl ++ "<Query>: " ++ q ++ Qwen3.nl
       ++ "<Document>: " ++ d)%string in
    let rendered := fun qd : string * string =>
      (Qwen3.prefix ++ core (fst qd) (snd qd) ++ Qwen3.suffix)%string in
    let args :=
      mkTokenizerArgs (map rendered (combine queries documents)) None true
        (TruncationNamed "longest_first") Qwen3.MAX_LENGTH in
    (forall q d, Qwen3.format_instruction instruction q d = Ok (core q d))
    /\ Qwen3.render_texts instruction (combine queries documents)
       = Ok (map rendered (combine queries documents))
    /\ snd (Qwen3.build_inputs queries documents instruction st)
       = logged st (TokenizerCall args)
    /\ fst (Qwen3.build_inputs queries documents instruction st)
       = rbind (tok args) (fun encoded =>
           match model st with
           | Some _ => Ok encoded
           | None => Err AttributeError
           end).
Proof.
  intros instruction queries documents st tok Hlen Htok
         instr core rendered args.
  assert (Hinstr : instr = instruction_or_default instruction)
    by (destruct instruction; reflexivity).
  assert (Hcore : forall q d,
             core q d = core_text (instruction_or_default instruction) q d)
    by (intros q d; unfold core; rewrite Hinstr; reflexivity).
  assert (Hmap : map rendered (combine queries documents)
                 = map (prompt instruction) (combine queries documents)).
  { apply map_ext. intros [q d]. unfold rendered, prompt.
    rewrite Hcore. reflexivity. }
  split; [|split].
  - intros q d. rewrite Hcore. apply Qwen3Facts.format_instruction_core.
  - rewrite Hmap. apply Qwen3Facts.render_texts_map.
  - unfold args. rewrite Hmap.
    rewrite (@build_inputs_run queries documents instruction st tok Hlen Htok).
    split; reflexivity.
Qed.

Lemma C7_witness :
  let st := Stub.loaded Stub.tokenizer Stub.causal_lm in
  Qwen3.format_instruction None "q" "d"
  = Ok ("<Instruct>: Given a web search query, retrieve relevant passages that answer the query"
        ++ Qwen3.nl ++ "<Query>: q" ++ Qwen3.nl ++ "<Document>: d")%string
  /\ List.length
       (calls (snd (Qwen3.build_inputs ["q"%string] ["d"%string] None st)))
     = 1.
Proof.
  intros st.
  destruct (@C7_prompt_rendering None ["q"%string] ["d"%string] st
              Stub.tokenizer eq_refl eq_refl) as (Hfmt & _ & Hlog & _).
  split.
  - exact (Hfmt "q"%string "d"%string).
  - rewrite Hlog. reflexivity.
Defined.

(** C9. A templated-path request whose queries and documents differ in
    length fails on the length assertion, the input-validation error of
    this path, before any tokenization: the tokenizer and the model are
    not called and the process state is left as it was. *)
Theorem C9_length_mismatch_rejected :
  forall (token_true_id token_false_id : nat)
         (queries documents : list string) (instruction : option string)
         (st : state),
    List.length queries <> List.length documents ->
    let rejected :=
      AssertionError "queries and documents must be same length" in
    Qwen3.build_inputs queries documents instruction st = (Err rejected, st)
    /\ Qwen3.run_reranker token_true_id token_false_id queries documents
         instruction st
       = (Err rejected, st).
Proof.
  intros yes no queries documents instruction st Hlen rejected.
  pose proof (@build_inputs_mismatch queries documents instruction st Hlen)
    as Hb.
  split; [exact Hb|].
  unfold Qwen3.run_reranker, Runtime.bind. rewrite Hb. reflexivity.
Qed.

Lemma C9_witness :
  let st := Stub.loaded Stub.tokenizer Stub.causal_lm in
  Qwen3.run_reranker 1 2 ["q1"; "q2"]%string ["d1"]%string None st
  = (Err (AssertionError "queries and documents must be same length"), st).
Proof.
  intros st.
  apply (@C9_length_mismatch_rejected 1 2 ["q1"; "q2"]%string ["d1"]%string
           None st).
  simpl. lia.
Defined.

(** C10, as the code has it. In exact arithmetic the score that
    compute_logits gives a pair, the exponential of the yes entry of the
    two-way log-softmax over (no, yes), equals the sigmoid of the yes logit
    minus the no logit at the final sequence position, and the probability
    of no that the same softmax implies is 1 minus the score. On the
    float32 tensors of the program the equality with the sigmoid is not
    exact and the bounds are not strict: every score lies in the closed
    interval from 0 to 1, in exact arithmetic and in float32 alike. *)
Theorem C10_score_is_sigmoid_of_logit_difference :
  forall (token_true_id token_false_id : nat) (inputs : BatchEncoding)
         (st : state) (m : Model) (logits : tensor R) (N S V : nat),
    model st = Some m ->
    m inputs = Ok logits ->
    shape logits = [N; S; V] ->
    0 < S -> token_true_id < V -> token_false_id < V ->
    let sigmoid_of_difference :=
      sigmoid_score token_true_id token_false_id logits S in
    Qwen3.compute_logits token_true_id token_false_id inputs st
    = (Ok (py_floats (map sigmoid_of_difference (seq 0 N))),
       logged st (ModelCall inputs))
    /\ (forall b,
          sigmoid_of_difference b
          = sigmoid_fn (get logits [b; S - 1; token_true_id]
                        - get logits [b; S - 1; token_false_id]))
    /\ (forall b, (0 <= sigmoid_of_difference b <= 1)%R)
    /\ (exists lsm,
          decision_log_probs token_true_id token_false_id logits = Ok lsm
          /\ forall b,
               exp (get lsm [b; 1]) = sigmoid_of_difference b
               /\ exp (get lsm [b; 0]) = (1 - sigmoid_of_difference b)%R)
    /\ (exists scores,
          Qwen3Float32.compute_logits token_true_id token_false_id inputs st
          = (Ok (py_floats scores), logged st (ModelCall inputs))
          /\ List.length scores = N
          /\ Forall (fun s => (0 <= s <= 1)%R) scores).
Proof.
  intros yes no inputs st m logits N S V Hm Hrun Hshape HS Hyes Hno sg.
  assert (Hsg : forall b, log_softmax_score yes no logits S b = sg b).
  { intros b.
    unfold log_softmax_score, yes_probability, sg, sigmoid_score.
    apply exp_log_softmax2_yes. }
  split; [|split; [|split; [|split]]].
  - rewrite compute_logits_run with (m := m) (logits := logits) (B := N)
      (S := S) (V := V) by assumption.
    f_equal. f_equal. f_equal. apply map_ext. exact Hsg.
  - intros b. reflexivity.
  - intros b. unfold sg, sigmoid_score.
    pose proof (sigmoid_fn_bounds
                  (final_logit logits S yes b - final_logit logits S no b)).
    lra.
  - destruct (@decision_log_probs_run yes no logits N S V Hshape HS Hyes Hno)
      as (lsm & Hdec & _ & Hent).
    exists lsm. split; [exact Hdec|].
    intros b. destruct (Hent b) as [H0 H1].
    rewrite H0, H1. rewrite exp_log_softmax2_no.
    fold (yes_probability (final_logit logits S no b)
            (final_logit logits S yes b)).
    fold (log_softmax_score yes no logits S b).
    rewrite Hsg. split; reflexivity.
  - exists (map (float32_score yes no logits S) (seq 0 N)).
    split; [|split].
    + apply compute_logits_float32_run with (m := m) (V := V); assumption.
    + rewrite length_map, length_seq. reflexivity.
    + apply Forall_forall. intros s Hs.
      apply in_map_iff in Hs. destruct Hs as (b & <- & _).
      apply float32_yes_probability_bounds.
Qed.

Lemma C10_witness :
  let inputs :=
    mkBatchEncoding (mkTensor [2; 3] (fun _ => 7%Z))
                    (mkTensor [2; 3] (fun _ => 1%Z)) in
  let st := Stub.loaded Stub.tokenizer Stub.causal_lm in
  let logits := mkTensor [2; 3; 4] (fun idx => INR (nth 2 idx 0)) in
  Qwen3.compute_logits 1 2 inputs st
  = (Ok (py_floats (map (sigmoid_score 1 2 logits 3) (seq 0 2))),
     logged st (ModelCall inputs))
  /\ (forall b, (0 <= sigmoid_score 1 2 logits 3 b <= 1)%R)
  /\ (exists scores,
        fst (Qwen3Float32.compute_logits 1 2 inputs st)
        = Ok (py_floats scores)
        /\ Forall (fun s => (0 <= s <= 1)%R) scores).
Proof.
  intros inputs st logits.
  destruct (@C10_score_is_sigmoid_of_logit_difference 1 2 inputs st
              Stub.causal_lm logits 2 3 4 eq_refl eq_refl eq_refl
              ltac:(lia) ltac:(lia) ltac:(lia))
    as (Hrun & _ & Hbound & _ & (scores & Hrun32 & _ & Hbound32)).
  split; [exact Hrun|]. split; [exact Hbound|].
  exists scores. split; [|exact Hbound32].
  rewrite Hrun32. reflexivity.
Defined.

(** C10, as stated, fails on float32 tensors: for a pair whose yes logit
    is 20 and whose no logit is 0, the score that compute_logits returns
    is exactly 1. It is not strictly below 1, and it is not the sigmoid of
    the difference of the logits, which is. *)
Lemma C10_counterexample :
  let st := Stub.loaded Stub.tokenizer Probe.decided_lm in
  let run := Qwen3Float32.compute_logits 1 0 (Probe.encoding 1) st in
  fst run = Ok (py_floats [1%R])
  /\ (forall s : R,
        fst run = Ok (py_floats [s]) ->
        ~ (0 < s < 1)%R /\ s <> sigmoid_fn (20 - 0)).
Proof.
  intros st run.
  assert (Hrun : fst run = Ok (py_floats [1%R])).
  { unfold run.
    rewrite (@compute_logits_float32_run 1 0 (Probe.encoding 1) st
               Probe.decided_lm
               (mkTensor [1; 1; 2]
                  (fun idx => if nth 2 idx 0 =? 1 then 20%R else 0%R))
               1 1 2 eq_refl eq_refl eq_refl
               ltac:(lia) ltac:(lia) ltac:(lia)).
    cbn [fst map seq]. unfold float32_score, final_logit.
    cbn [get nth Nat.sub Nat.eqb].
    rewrite float32_yes_probability_saturates. reflexivity. }
  split; [exact Hrun|].
  intros s Hs. rewrite Hrun in Hs.
  assert (Es : s = 1%R).
  { unfold py_floats in Hs. cbn [map] in Hs. congruence. }
  subst s. split.
  - lra.
  - pose proof (sigmoid_fn_bounds (20 - 0)). lra.
Qed.

(** C1, as the code has it. A rerank request with N >= 0 documents whose
    batch the tokenizer and the model answer, the model with one row per
    document, is answered with exactly N scores, the i-th of which is the
    score of the i-th document: the batch is built from the documents in
    their order, scored in one model call, and row i of the model output
    gives score i. Every score lies in [0,1]. No batch is guarded, the
    empty one included: when the tokenizer or the model raises on the
    batch, that exception is the outcome of the request and no scores are
    returned. This holds for the cross-encoder service and for the
    causal-LM scorer. *)
Theorem C1_scores_match_documents_in_order :
  forall (documents : list string),
    let N := List.length documents in
    (forall (query : string) (st : state) (tok : Tokenizer) (m : Model),
        let request := CrossEncoder.mkRerankRequest query documents in
        let args :=
          mkTokenizerArgs (repeat query N) (Some documents) true
            TruncationTrue 512 in
        tokenizer st = Some tok ->
        model st = Some m ->
        (forall (features : BatchEncoding) (logits : tensor R),
            tok args = Ok features ->
            m features = Ok logits ->
            shape logits = [N; 1] ->
            exists scores,
              CrossEncoder.rerank request st
              = (Ok (CrossEncoder.mkRerankResponse scores),
                 logged (logged st (TokenizerCall args))
                   (ModelCall features))
              /\ List.length scores = N
              /\ forall i, i < N ->
                   nth i scores 0%R = sigmoid_fn (get logits [i; 0])
                   /\ (0 <= nth i scores 0 <= 1)%R)
        /\ (forall e : exn,
              tok args = Err e ->
              CrossEncoder.rerank request st
              = (Err e, logged st (TokenizerCall args)))
        /\ (forall (features : BatchEncoding) (e : exn),
              tok args = Ok features ->
              m features = Err e ->
              CrossEncoder.rerank request st
              = (Err e,
                 logged (logged st (TokenizerCall args))
                   (ModelCall features))))
    /\ (forall (token_true_id token_false_id : nat) (queries : list string)
               (instruction : option string) (st : state) (tok : Tokenizer)
               (m : Model),
          let args :=
            mkTokenizerArgs
              (map (prompt instruction) (combine queries documents)) None
              true (TruncationNamed "longest_first") Qwen3.MAX_LENGTH in
          let run :=
            Qwen3.run_reranker token_true_id token_false_id queries documents
              instruction st in
          List.length queries = N ->
          tokenizer st = Some tok ->
          model st = Some m ->
          (forall (inputs : BatchEncoding) (logits : tensor R) (S V : nat),
              tok args = Ok inputs ->
              m inputs = Ok logits ->
              shape logits = [N; S; V] ->
              0 < S -> token_true_id < V -> token_false_id < V ->
              exists scores,
                run
                = (Ok (py_floats scores),
                   logged (logged st (TokenizerCall args)) (ModelCall inputs))
                /\ List.length scores = N
                /\ forall i, i < N ->
                     nth i scores 0%R
                     = exp (get logits [i; S - 1; token_true_id]
                            - ln (exp (get logits [i; S - 1; token_false_id])
                                  + exp (get logits
                                           [i; S - 1; token_true_id])))
                     /\ (0 <= nth i scores 0 <= 1)%R)
          /\ (forall e : exn,
                tok args = Err e ->
                run = (Err e, logged st (TokenizerCall args)))
          /\ (forall (inputs : BatchEncoding) (e : exn),
                tok args = Ok inputs ->
                m inputs = Err e ->
                run
                = (Err e,
                   logged (logged st (TokenizerCall args))
                     (ModelCall inputs)))).
Proof.
  intros documents N. split.
  - intros query st tok m request args Htok Hm. split; [|split].
    + intros features logits Hfeat Hrun Hshape.
      exists (map (fun i => sigmoid_fn (get logits [i; 0])) (seq 0 N)).
      split; [|split].
      * rewrite (@rerank_run request st tok m features Htok Hm Hfeat).
        rewrite Hrun. cbn [rbind].
        rewrite (response_of_column logits Hshape). reflexivity.
      * rewrite length_map, length_seq. reflexivity.
      * intros i Hi. rewrite nth_map_seq by exact Hi.
        pose proof (sigmoid_fn_bounds (get logits [i; 0])).
        split; [reflexivity | lra].
    + intros e Herr.
      apply (@rerank_calls_tokenizer request st tok e Htok Herr).
    + intros features e Hfeat Herr.
      rewrite (@rerank_run request st tok m features Htok Hm Hfeat).
      rewrite Herr. reflexivity.
  - intros yes no queries instruction st tok m args run Hlen Htok Hm.
    assert (Hbuild :
              Qwen3.build_inputs queries documents instruction st
              = (rbind (tok args) (fun encoded => Ok encoded),
                 logged st (TokenizerCall args))).
    { rewrite (@build_inputs_run queries documents instruction st tok
                 Hlen Htok).
      fold args. rewrite Hm. reflexivity. }
    split; [|split].
    + intros inputs logits S V Hin Hrun Hshape HS Hyes Hno.
      exists (map (log_softmax_score yes no logits S) (seq 0 N)).
      split; [|split].
      * unfold run, Qwen3.run_reranker, Runtime.bind.
        rewrite Hbuild, Hin. cbn [rbind].
        apply compute_logits_run with (m := m) (V := V); assumption.
      * rewrite length_map, length_seq. reflexivity.
      * intros i Hi. rewrite nth_map_seq by exact Hi.
        split; [reflexivity|].
        unfold log_softmax_score, yes_probability.
        rewrite exp_log_softmax2_yes.
        pose proof (sigmoid_fn_bounds
                      (final_logit logits S yes i
                       - final_logit logits S no i)).
        lra.
    + intros e Herr.
      unfold run, Qwen3.run_reranker, Runtime.bind.
      rewrite Hbuild, Herr. reflexivity.
    + intros inputs e Hin Herr.
      unfold run, Qwen3.run_reranker, Runtime.bind.
      rewrite Hbuild, Hin. cbn [rbind].
      rewrite compute_logits_decision. unfold Runtime.bind.
      rewrite (@call_model_loaded (logged st (TokenizerCall args)) m inputs
                 Hm).
      rewrite Herr. reflexivity.
Qed.

Lemma C1_witness :
  let documents := ["a"; "b"]%string in
  (exists scores,
     fst (CrossEncoder.rerank (CrossEncoder.mkRerankRequest "q" documents)
            (Stub.loaded Stub.tokenizer Stub.classifier))
     = Ok (CrossEncoder.mkRerankResponse scores)
     /\ List.length scores = 2)
  /\ (exists scores,
        fst (Qwen3.run_reranker 1 2 ["q"; "q"]%string documents None
               (Stub.loaded Stub.tokenizer Stub.causal_lm))
        = Ok (py_floats scores)
        /\ List.length scores = 2)
  /\ fst (CrossEncoder.rerank (CrossEncoder.mkRerankRequest "q" [])
            (Stub.loaded Stub.tokenizer Stub.classifier))
     = Ok (CrossEncoder.mkRerankResponse [])
  /\ fst (CrossEncoder.rerank (CrossEncoder.mkRerankRequest "q" [])
            (Stub.loaded Probe.failing_tokenizer Stub.classifier))
     = Err (Raised "IndexError").
Proof.
  intros documents.
  destruct (C1_scores_match_documents_in_order documents) as [Hcross Hlm].
  destruct (C1_scores_match_documents_in_order []) as [Hnone _].
  split; [|split; [|split]].
  - destruct (Hcross "q"%string (Stub.loaded Stub.tokenizer Stub.classifier)
                Stub.tokenizer Stub.classifier eq_refl eq_refl)
      as (Hscores & _ & _).
    destruct (Hscores
                (mkBatchEncoding (mkTensor [2; 3] (fun _ => 7%Z))
                                 (mkTensor [2; 3] (fun _ => 1%Z)))
                (mkTensor [2; 1] (fun idx => INR (hd 0 idx)))
                eq_refl eq_refl eq_refl)
      as (scores & Hrun & Hlen & _).
    exists scores. split; [|exact Hlen].
    fold documents. rewrite Hrun. reflexivity.
  - destruct (Hlm 1 2 ["q"; "q"]%string None
                (Stub.loaded Stub.tokenizer Stub.causal_lm)
                Stub.tokenizer Stub.causal_lm eq_refl eq_refl eq_refl)
      as (Hscores & _ & _).
    destruct (Hscores
                (mkBatchEncoding (mkTensor [2; 3] (fun _ => 7%Z))
                                 (mkTensor [2; 3] (fun _ => 1%Z)))
                (mkTensor [2; 3; 4] (fun idx => INR (nth 2 idx 0)))
                3 4 eq_refl eq_refl eq_refl
                ltac:(lia) ltac:(lia) ltac:(lia))
      as (scores & Hrun & Hlen & _).
    exists scores. split; [|exact Hlen].
    rewrite Hrun. reflexivity.
  - destruct (Hnone "q"%string (Stub.loaded Stub.tokenizer Stub.classifier)
                Stub.tokenizer Stub.classifier eq_refl eq_refl)
      as (Hscores & _ & _).
    destruct (Hscores (Probe.encoding 0)
                (mkTensor [0; 1] (fun idx => INR (hd 0 idx)))
                eq_refl eq_refl eq_refl)
      as (scores & Hrun & Hlen & _).
    rewrite Hrun. destruct scores; [reflexivity | discriminate].
  - destruct (Hnone "q"%string
                (Stub.loaded Probe.failing_tokenizer Stub.classifier)
                Probe.failing_tokenizer Stub.classifier eq_refl eq_refl)
      as (_ & Hraise & _).
    rewrite (Hraise (Raised "IndexError") eq_refl). reflexivity.
Defined.

(** C1, as stated, fails at N = 0: with a tokenizer that rejects the
    empty batch and no other, a request with no documents is answered with
    the tokenizer's exception, not with a sequence of zero scores, in the
    cross-encoder service and in the causal-LM scorer alike; a request
    with one document is scored. *)
Lemma C1_counterexample :
  let st := Stub.loaded Probe.nonempty_tokenizer Stub.classifier in
  let st' := Stub.loaded Probe.nonempty_tokenizer Stub.causal_lm in
  let none := CrossEncoder.mkRerankRequest "q" [] in
  let one := CrossEncoder.mkRerankRequest "q" ["d"]%string in
  fst (CrossEncoder.rerank none st) = Err (Raised "IndexError")
  /\ (forall scores,
        fst (CrossEncoder.rerank none st)
        <> Ok (CrossEncoder.mkRerankResponse scores))
  /\ fst (Qwen3.run_reranker 1 2 [] [] None st') = Err (Raised "IndexError")
  /\ (forall scores,
        fst (Qwen3.run_reranker 1 2 [] [] None st') <> Ok (py_floats scores))
  /\ (exists scores,
        fst (CrossEncoder.rerank one st)
        = Ok (CrossEncoder.mkRerankResponse scores)
        /\ List.length scores = 1).
Proof.
  intros st st' none one.
  assert (Hcross : fst (CrossEncoder.rerank none st)
                   = Err (Raised "IndexError")).
  { unfold none, st.
    rewrite (@rerank_calls_tokenizer
               (CrossEncoder.mkRerankRequest "q" [])
               (Stub.loaded Probe.nonempty_tokenizer Stub.classifier)
               Probe.nonempty_tokenizer (Raised "IndexError")
               eq_refl eq_refl).
    reflexivity. }
  assert (Hlm : fst (Qwen3.run_reranker 1 2 [] [] None st')
                = Err (Raised "IndexError")).
  { unfold Qwen3.run_reranker, Runtime.bind.
    rewrite (@build_inputs_run [] [] None st' Probe.nonempty_tokenizer
               eq_refl eq_refl).
    reflexivity. }
  split; [exact Hcross|]. split; [|split; [exact Hlm|split]].
  - intros scores H. rewrite Hcross in H. discriminate.
  - intros scores H. rewrite Hlm in H. discriminate.
  - exists [sigmoid_fn (INR 0)]. split; [|reflexivity].
    unfold one, st.
    rewrite (@rerank_run
               (CrossEncoder.mkRerankRequest "q" ["d"]%string)
               (Stub.loaded Probe.nonempty_tokenizer Stub.classifier)
               Probe.nonempty_tokenizer Stub.classifier
               (Probe.encoding 1) eq_refl eq_refl eq_refl).
    cbn [fst].
    change (Stub.classifier (Probe.encoding 1))
      with (Ok (mkTensor [1; 1] (fun idx => INR (hd 0 idx)))).
    cbn [rbind].
    rewrite (@response_of_column
               (mkTensor [1; 1] (fun idx => INR (hd 0 idx))) 1 eq_refl).
    reflexivity.
Qed.

(** C4. A rerank request with exactly one document is answered with a
    one-element sequence of floats. When the model output has the usual
    shape [1; 1] the squeeze leaves a one-element vector; when the output
    has collapsed to shape [1] or to a 0-d tensor the squeeze leaves a
    scalar, which is detected and wrapped into a one-element sequence.
    Whatever scalar the squeeze produces is wrapped. *)
Theorem C4_single_document_returns_list :
  forall (query document : string) (st : state) (tok : Tokenizer) (m : Model)
         (features : BatchEncoding) (logits : tensor R),
    let request := CrossEncoder.mkRerankRequest query [document] in
    let args :=
      mkTokenizerArgs [query] (Some [document]) true TruncationTrue 512 in
    tokenizer st = Some tok ->
    model st = Some m ->
    tok args = Ok features ->
    m features = Ok logits ->
    (shape logits = [1; 1] ->
     fst (CrossEncoder.rerank request st)
     = Ok (CrossEncoder.mkRerankResponse [sigmoid_fn (get logits [0; 0])]))
    /\ (shape logits = [1] ->
        fst (CrossEncoder.rerank request st)
        = Ok (CrossEncoder.mkRerankResponse [sigmoid_fn (get logits [0])]))
    /\ (shape logits = [] ->
        fst (CrossEncoder.rerank request st)
        = Ok (CrossEncoder.mkRerankResponse [sigmoid_fn (get logits [])]))
    /\ (forall x,
          tolist (squeeze_last (sigmoid logits)) = PyFloat x ->
          fst (CrossEncoder.rerank request st)
          = Ok (CrossEncoder.mkRerankResponse [x])).
Proof.
  intros query document st tok m features logits request args
         Htok Hm Hfeat Hrun.
  assert (Hres : fst (CrossEncoder.rerank request st) = response_of logits).
  { rewrite (@rerank_run request st tok m features Htok Hm Hfeat).
    rewrite Hrun. reflexivity. }
  rewrite Hres. repeat split.
  - intros Hshape. apply (response_of_column logits Hshape).
  - apply response_of_vector1.
  - apply response_of_scalar.
  - apply response_of_float.
Qed.

Lemma C4_witness :
  let request := CrossEncoder.mkRerankRequest "q" ["d"]%string in
  fst (CrossEncoder.rerank request
         (Stub.loaded Stub.tokenizer Stub.classifier))
  = Ok (CrossEncoder.mkRerankResponse [sigmoid_fn (INR 0)])
  /\ fst (CrossEncoder.rerank request
            (Stub.loaded Stub.tokenizer Stub.collapsed_classifier))
     = Ok (CrossEncoder.mkRerankResponse [sigmoid_fn 0]).
Proof.
  intros request. split.
  - destruct (@C4_single_document_returns_list "q" "d"
                (Stub.loaded Stub.tokenizer Stub.classifier)
                Stub.tokenizer Stub.classifier
                (mkBatchEncoding (mkTensor [1; 3] (fun _ => 7%Z))
                                 (mkTensor [1; 3] (fun _ => 1%Z)))
                (mkTensor [1; 1] (fun idx => INR (hd 0 idx)))
                eq_refl eq_refl eq_refl eq_refl) as (H & _).
    exact (H eq_refl).
  - destruct (@C4_single_document_returns_list "q" "d"
                (Stub.loaded Stub.tokenizer Stub.collapsed_classifier)
                Stub.tokenizer Stub.collapsed_classifier
                (mkBatchEncoding (mkTensor [1; 3] (fun _ => 7%Z))
                                 (mkTensor [1; 3] (fun _ => 1%Z)))
                (mkTensor [1] (fun _ => 0%R))
                eq_refl eq_refl eq_refl eq_refl) as (_ & H & _).
    exact (H eq_refl).
Defined.

(** C8, as the code has it. The readiness probe of either service
    answers every call with the status healthy and the model identifier,
    whatever the globals hold, before load as well as after it; it reads
    and changes nothing, and never reports an unready status. *)
Theorem C8_health_check_always_healthy :
  forall (st : state),
    CrossEncoder.health_check st
    = (Ok [("status", "healthy");
           ("model", "cross-encoder/ms-marco-MiniLM-L6-v2")]%string, st)
    /\ Embedding.health_check st
       = (Ok [("status", "healthy");
              ("model", "BAAI/bge-small-en-v1.5")]%string, st)
    /\ (forall (load_model : string -> result Model)
               (load_tokenizer : string -> result Tokenizer)
               (quantize : Model -> Model),
          let after :=
            snd (CrossEncoder.lifespan_startup load_model load_tokenizer
                   quantize st) in
          fst (CrossEncoder.health_check after)
          = fst (CrossEncoder.health_check st))
    /\ (forall (load_tokenizer : string -> result Tokenizer)
               (load_model : string -> result Model)
               (quantize : Model -> Model),
          let after :=
            snd (Embedding.lifespan_startup load_tokenizer load_model
                   quantize st) in
          fst (Embedding.health_check after)
          = fst (Embedding.health_check st)).
Proof.
  intros st. repeat split; reflexivity.
Qed.

(** C8, as stated, fails: in a process that has not loaded anything, both
    probes report healthy. *)
Lemma C8_counterexample :
  model initial_state = None
  /\ tokenizer initial_state = None
  /\ status (fst (CrossEncoder.health_check initial_state))
     = Some "healthy"%string
  /\ status (fst (Embedding.health_check initial_state))
     = Some "healthy"%string.
Proof.
  repeat split; reflexivity.
Qed.

(** C3, as the code has it. A rerank request with zero documents and an
    embed request with zero texts are not short-circuited: the tokenizer is
    called once, on the empty batch, and when it succeeds the model is
    called once on its result. An exception of either call is the outcome
    of the request. When both succeed and the model output has no rows,
    the result is empty, with dimensions 0 for the embedding. *)
Theorem C3_empty_request_calls_tokenizer_and_model :
  forall (st : state) (tok : Tokenizer) (m : Model),
    tokenizer st = Some tok ->
    model st = Some m ->
    (forall (query : string),
        let request := CrossEncoder.mkRerankRequest query [] in
        let args := mkTokenizerArgs [] (Some []) true TruncationTrue 512 in
        match tok args with
        | Err e =>
            CrossEncoder.rerank request st
            = (Err e, logged st (TokenizerCall args))
        | Ok features =>
            snd (CrossEncoder.rerank request st)
            = logged (logged st (TokenizerCall args)) (ModelCall features)
            /\ match m features with
               | Err e => fst (CrossEncoder.rerank request st) = Err e
               | Ok logits =>
                   forall K, shape logits = [0; K] ->
                     fst (CrossEncoder.rerank request st)
                     = Ok (CrossEncoder.mkRerankResponse [])
               end
        end)
    /\ (let request := Embedding.mkEmbedRequest [] in
        let args := mkTokenizerArgs [] None true TruncationTrue 512 in
        match tok args with
        | Err e =>
            Embedding.embed request st
            = (Err e, logged st (TokenizerCall args))
        | Ok encoded =>
            snd (Embedding.embed request st)
            = logged (logged st (TokenizerCall args)) (ModelCall encoded)
            /\ match m encoded with
               | Err e => fst (Embedding.embed request st) = Err e
               | Ok output =>
                   forall S H,
                     shape output = [0; S; H] ->
                     shape (attention_mask encoded) = [0; S] ->
                     fst (Embedding.embed request st)
                     = Ok (Embedding.mkEmbedResponse [] 0)
               end
        end).
Proof.
  intros st tok m Htok Hm. split.
  - intros query request args.
    destruct (tok args) as [features|e] eqn:Hfeat.
    + rewrite (@rerank_run request st tok m features Htok Hm Hfeat).
      split; [reflexivity|].
      destruct (m features) as [logits|e]; [|reflexivity].
      intros K Hshape. cbn [fst rbind].
      apply (response_of_empty logits Hshape).
    + apply (@rerank_calls_tokenizer request st tok e Htok Hfeat).
  - intros request args.
    rewrite (@embed_run request st tok m Htok Hm).
    change (mkTokenizerArgs (Embedding.texts request) None true
              TruncationTrue 512) with args.
    destruct (tok args) as [encoded|e]; [|reflexivity].
    split; [reflexivity|].
    destruct (m encoded) as [output|e]; [|reflexivity].
    intros S H HE HM. cbn [fst rbind].
    rewrite (embedding_of_run output (attention_mask encoded) HE HM).
    reflexivity.
Qed.

Lemma C3_witness :
  let st := Stub.loaded Stub.tokenizer Stub.classifier in
  let st2 := Stub.loaded Stub.tokenizer (Stub.encoder 1) in
  CrossEncoder.rerank (CrossEncoder.mkRerankRequest "q" []) st
  = (Ok (CrossEncoder.mkRerankResponse []),
     logged
       (logged st
          (TokenizerCall
             (mkTokenizerArgs [] (Some []) true TruncationTrue 512)))
       (ModelCall
          (mkBatchEncoding (mkTensor [0; 3] (fun _ => 7%Z))
                           (mkTensor [0; 3] (fun _ => 1%Z)))))
  /\ Embedding.embed (Embedding.mkEmbedRequest []) st2
     = (Ok (Embedding.mkEmbedResponse [] 0),
        logged
          (logged st2
             (TokenizerCall (mkTokenizerArgs [] None true TruncationTrue 512)))
          (ModelCall
             (mkBatchEncoding (mkTensor [0; 3] (fun _ => 7%Z))
                              (mkTensor [0; 3] (fun _ => 1%Z))))).
Proof.
  intros st st2. split.
  - destruct (@C3_empty_request_calls_tokenizer_and_model st Stub.tokenizer
                Stub.classifier eq_refl eq_refl) as [Hrerank _].
    destruct (Hrerank "q"%string) as [Hlog Hres].
    rewrite (surjective_pairing
               (CrossEncoder.rerank (CrossEncoder.mkRerankRequest "q" []) st)).
    rewrite Hlog, (Hres 1 eq_refl). reflexivity.
  - destruct (@C3_empty_request_calls_tokenizer_and_model st2 Stub.tokenizer
                (Stub.encoder 1) eq_refl eq_refl) as [_ [Hlog Hres]].
    rewrite (surjective_pairing
               (Embedding.embed (Embedding.mkEmbedRequest []) st2)).
    rewrite Hlog, (Hres 3 2 eq_refl eq_refl). reflexivity.
Defined.

(** C3, as stated, fails: with zero documents and with zero texts the
    tokenizer and the model are both called. *)
Lemma C3_counterexample :
  let st := Stub.loaded Stub.tokenizer Stub.classifier in
  let st' :=
    snd (CrossEncoder.rerank (CrossEncoder.mkRerankRequest "q" []) st) in
  let st2 := Stub.loaded Stub.tokenizer (Stub.encoder 1) in
  let st2' := snd (Embedding.embed (Embedding.mkEmbedRequest []) st2) in
  (model_calls st = 0 /\ tokenizer_calls st = 0
   /\ model_calls st' = 1 /\ tokenizer_calls st' = 1)
  /\ (model_calls st2 = 0 /\ tokenizer_calls st2 = 0
      /\ model_calls st2' = 1 /\ tokenizer_calls st2' = 1).
Proof.
  intros st st' st2 st2'.
  assert (H1 : st' = logged
                 (logged st
                    (TokenizerCall
                       (mkTokenizerArgs [] (Some []) true TruncationTrue 512)))
                 (ModelCall
                    (mkBatchEncoding (mkTensor [0; 3] (fun _ => 7%Z))
                                     (mkTensor [0; 3] (fun _ => 1%Z))))).
  { unfold st'.
    rewrite (@rerank_run (CrossEncoder.mkRerankRequest "q" []) st
               Stub.tokenizer Stub.classifier _ eq_refl eq_refl eq_refl).
    reflexivity. }
  assert (H2 : st2' = logged
                 (logged st2
                    (TokenizerCall
                       (mkTokenizerArgs [] None true TruncationTrue 512)))
                 (ModelCall
                    (mkBatchEncoding (mkTensor [0; 3] (fun _ => 7%Z))
                                     (mkTensor [0; 3] (fun _ => 1%Z))))).
  { unfold st2'.
    rewrite (@embed_run (Embedding.mkEmbedRequest []) st2
               Stub.tokenizer (Stub.encoder 1) eq_refl eq_refl).
    reflexivity. }
  rewrite H1, H2. repeat split; reflexivity.
Qed.

(** C5, as the code has it. An embed request with M >= 1 texts is
    answered with M vectors of one common length D, the hidden size, and
    with D itself. Each vector is its pooled vector divided by the larger
    of the pooled vector's Euclidean norm and the floor 1e-12; so every
    returned vector whose pooled vector has norm at least 1e-12 has norm
    exactly 1. *)
Theorem C5_embeddings_normalized_above_floor :
  forall (request : Embedding.EmbedRequest) (st : state) (tok : Tokenizer)
         (m : Model) (encoded : BatchEncoding) (output : tensor R)
         (S H : nat),
    let M := List.length (Embedding.texts request) in
    let args :=
      mkTokenizerArgs (Embedding.texts request) None true TruncationTrue 512 in
    1 <= M ->
    tokenizer st = Some tok ->
    model st = Some m ->
    tok args = Ok encoded ->
    m encoded = Ok output ->
    shape output = [M; S; H] ->
    shape (attention_mask encoded) = [M; S] ->
    exists embeddings,
      fst (Embedding.embed request st)
      = Ok (Embedding.mkEmbedResponse embeddings H)
      /\ List.length embeddings = M
      /\ Forall (fun v => List.length v = H) embeddings
      /\ forall b, b < M ->
           let pooled := pooled_row output (attention_mask encoded) S H b in
           nth b embeddings []
           = map (fun x => (x / Rmax (l2_norm pooled) (1 / 1000000000000))%R)
                 pooled
           /\ ((1 / 1000000000000 <= l2_norm pooled)%R ->
               l2_norm (nth b embeddings []) = 1%R).
Proof.
  intros request st tok m encoded output S H M args
         HM Htok Hm Henc Hout HE Hmask.
  exists (map (normalized_row output (attention_mask encoded) S H) (seq 0 M)).
  split; [|split; [|split]].
  - rewrite (@embed_run request st tok m Htok Hm). fold args.
    rewrite Henc, Hout. cbn [fst rbind].
    rewrite (embedding_of_run output (attention_mask encoded) HE Hmask).
    destruct (Nat.eqb_spec M 0) as [H0|_]; [lia | reflexivity].
  - rewrite length_map, length_seq. reflexivity.
  - apply Forall_forall. intros v Hv.
    apply in_map_iff in Hv. destruct Hv as (b & <- & _).
    unfold normalized_row, pooled_row.
    rewrite !length_map, length_seq. reflexivity.
  - intros b Hb pooled. rewrite nth_map_seq by exact Hb.
    split; [reflexivity|].
    intros Hnorm. apply (l2_norm_normalized pooled Hnorm).
Qed.

Lemma C5_witness :
  let st := Stub.loaded Stub.tokenizer (Stub.encoder 1) in
  exists embeddings,
    fst (Embedding.embed (Embedding.mkEmbedRequest ["a"; "b"]%string) st)
    = Ok (Embedding.mkEmbedResponse embeddings 2)
    /\ List.length embeddings = 2
    /\ Forall (fun v => List.length v = 2) embeddings.
Proof.
  intros st.
  destruct (@C5_embeddings_normalized_above_floor
              (Embedding.mkEmbedRequest ["a"; "b"]%string) st Stub.tokenizer
              (Stub.encoder 1)
              (mkBatchEncoding (mkTensor [2; 3] (fun _ => 7%Z))
                               (mkTensor [2; 3] (fun _ => 1%Z)))
              (mkTensor [2; 3; 2] (fun _ => 1%R)) 3 2
              ltac:(simpl; lia) eq_refl eq_refl eq_refl eq_refl eq_refl
              eq_refl)
    as (embeddings & Hrun & Hlen & Hdim & _).
  exists embeddings. split; [exact Hrun|]. split; [exact Hlen | exact Hdim].
Defined.

(** C5, as stated, fails: when the hidden states are all zero the pooled
    vector is the zero vector, it is divided by the floor 1e-12, and the
    returned vector has norm 0, not 1. *)
Lemma C5_counterexample :
  let st := Stub.loaded Stub.tokenizer (Stub.encoder 0) in
  exists v,
    fst (Embedding.embed (Embedding.mkEmbedRequest ["a"]%string) st)
    = Ok (Embedding.mkEmbedResponse [v] 2)
    /\ l2_norm v = 0%R
    /\ ~ (Rabs (l2_norm v - 1) <= 1 / 100000)%R.
Proof.
  intros st.
  set (encoded := mkBatchEncoding (mkTensor [1; 3] (fun _ => 7%Z))
                                  (mkTensor [1; 3] (fun _ => 1%Z))).
  set (output := mkTensor [1; 3; 2] (fun _ => 0%R)).
  exists (normalized_row output (attention_mask encoded) 3 2 0).
  assert (Hzero : l2_norm (normalized_row output (attention_mask encoded)
                             3 2 0) = 0%R).
  { apply l2_norm_zero. unfold normalized_row, pooled_row.
    apply Forall_forall. intros y Hy.
    apply in_map_iff in Hy. destruct Hy as (x & <- & Hx).
    apply in_map_iff in Hx. destruct Hx as (h & <- & _).
    unfold masked_mean, sum_upto, Rsum, Rdiv. simpl. ring. }
  split; [|split].
  - rewrite (@embed_run (Embedding.mkEmbedRequest ["a"]%string) st
               Stub.tokenizer (Stub.encoder 0) eq_refl eq_refl).
    cbn [Embedding.texts].
    change (Stub.tokenizer
              (mkTokenizerArgs ["a"%string] None true TruncationTrue 512))
      with (Ok encoded).
    cbn [fst].
    change (Stub.encoder 0 encoded) with (Ok output).
    cbn [rbind].
    rewrite (@embedding_of_run output (attention_mask encoded) 1 3 2
               eq_refl eq_refl).
    reflexivity.
  - exact Hzero.
  - rewrite Hzero. unfold Rminus. rewrite Rplus_0_l, Rabs_Ropp, Rabs_R1.
    lra.
Qed.

(** C6. Mean pooling is invariant to padding. The pooled value of a row
    is the sum of its token embeddings weighted by the mask, divided by
    the number of unmasked positions floored at 1e-9; the divisor is
    positive, so the division is defined even for a row that is all
    padding, which pools to 0. The value depends on the embeddings only at
    the positions where the mask is not 0, and a row padded to a longer
    length, on the right or on the left, by positions of mask 0 pools to
    the same vector as the row alone. *)
Theorem C6_mean_pooling_ignores_padding :
  forall (E : tensor R) (mask : tensor Z) (B S H : nat),
    shape E = [B; S; H] ->
    shape mask = [B; S] ->
    exists pooled,
      Embedding.mean_pooling E mask = Ok pooled
      /\ shape pooled = [B; H]
      /\ (forall b h, b < B ->
            let count := sum_upto S (fun t => IZR (get mask [b; t])) in
            get pooled [b; h]
            = (sum_upto S (fun t => get E [b; t; h] * IZR (get mask [b; t]))
               / Rmax (1 / 1000000000) count)%R
            /\ (0 < Rmax (1 / 1000000000) count)%R)
      /\ (forall b h, b < B ->
            (forall t, t < S -> get mask [b; t] = 0%Z) ->
            get pooled [b; h] = 0%R)
      /\ (forall E',
            shape E' = [B; S; H] ->
            (forall b t h, b < B -> t < S -> h < H ->
               get mask [b; t] <> 0%Z ->
               get E' [b; t; h] = get E [b; t; h]) ->
            exists pooled',
              Embedding.mean_pooling E' mask = Ok pooled'
              /\ tolist pooled' = tolist pooled)
      /\ (forall P E' mask',
            shape E' = [B; S + P; H] ->
            shape mask' = [B; S + P] ->
            (forall b t, b < B -> t < S ->
               get mask' [b; t] = get mask [b; t]) ->
            (forall b t h, b < B -> t < S -> h < H ->
               get E' [b; t; h] = get E [b; t; h]) ->
            (forall b t, b < B -> S <= t < S + P ->
               get mask' [b; t] = 0%Z) ->
            exists pooled',
              Embedding.mean_pooling E' mask' = Ok pooled'
              /\ tolist pooled' = tolist pooled)
      /\ (forall P E' mask',
            shape E' = [B; P + S; H] ->
            shape mask' = [B; P + S] ->
            (forall b t, b < B -> t < S ->
               get mask' [b; P + t] = get mask [b; t]) ->
            (forall b t h, b < B -> t < S -> h < H ->
               get E' [b; P + t; h] = get E [b; t; h]) ->
            (forall b t, b < B -> t < P -> get mask' [b; t] = 0%Z) ->
            exists pooled',
              Embedding.mean_pooling E' mask' = Ok pooled'
              /\ tolist pooled' = tolist pooled).
Proof.
  intros E mask B S H HE HM.
  destruct (mean_pooling_run E mask HE HM) as (pooled & Hp & Hsh & Hget).
  exists pooled. split; [exact Hp|]. split; [exact Hsh|].
  split; [|split; [|split; [|split]]].
  - intros b h Hb count. split.
    + rewrite (Hget b h Hb). reflexivity.
    + apply floor_divisor_pos.
  - intros b h Hb Hpad. rewrite (Hget b h Hb).
    apply masked_mean_all_padding. exact Hpad.
  - intros E' HE' Hagree.
    destruct (mean_pooling_run E' mask HE' HM)
      as (pooled' & Hp' & Hsh' & Hget').
    exists pooled'. split; [exact Hp'|].
    apply (tolist_ext_matrix pooled' pooled Hsh' Hsh).
    intros b h Hb Hh. rewrite (Hget b h Hb), (Hget' b h Hb).
    apply masked_mean_ext. intros t Ht Hnz. apply Hagree; assumption.
  - intros P E' mask' HE' HM' Hmask Hemb Hpad.
    destruct (mean_pooling_run E' mask' HE' HM')
      as (pooled' & Hp' & Hsh' & Hget').
    exists pooled'. split; [exact Hp'|].
    apply (tolist_ext_matrix pooled' pooled Hsh' Hsh).
    intros b h Hb Hh. rewrite (Hget b h Hb), (Hget' b h Hb).
    apply masked_mean_pad_right.
    + intros t Ht. apply Hmask; assumption.
    + intros t Ht. apply Hemb; assumption.
    + intros t Ht. apply Hpad; assumption.
  - intros P E' mask' HE' HM' Hmask Hemb Hpad.
    destruct (mean_pooling_run E' mask' HE' HM')
      as (pooled' & Hp' & Hsh' & Hget').
    exists pooled'. split; [exact Hp'|].
    apply (tolist_ext_matrix pooled' pooled Hsh' Hsh).
    intros b h Hb Hh. rewrite (Hget b h Hb), (Hget' b h Hb).
    apply masked_mean_pad_left.
    + intros t Ht. apply Hmask; assumption.
    + intros t Ht. apply Hemb; assumption.
    + intros t Ht. apply Hpad; assumption.
Qed.

Lemma C6_witness :
  exists pooled pooled',
    Embedding.mean_pooling Stub.alone_embeddings Stub.alone_mask = Ok pooled
    /\ Embedding.mean_pooling Stub.padded_embeddings Stub.padded_mask
       = Ok pooled'
    /\ tolist pooled' = tolist pooled.
Proof.
  destruct (@C6_mean_pooling_ignores_padding Stub.alone_embeddings
              Stub.alone_mask 1 2 2 eq_refl eq_refl)
    as (pooled & Hp & _ & _ & _ & _ & Hright & _).
  destruct (Hright 1 Stub.padded_embeddings Stub.padded_mask
              eq_refl eq_refl) as (pooled' & Hp' & Heq).
  - intros b t _ Ht. simpl. apply Nat.ltb_lt in Ht. rewrite Ht. reflexivity.
  - intros b t h _ Ht _. simpl. apply Nat.ltb_lt in Ht. rewrite Ht.
    reflexivity.
  - intros b t _ Ht. simpl.
    destruct (Nat.ltb_spec t 2) as [Hlt|_]; [lia | reflexivity].
  - exists pooled, pooled'. split; [exact Hp|]. split; [exact Hp' | exact Heq].
Defined.

End Claims.

(* ================================================================== *)
(** * Further properties of the services                               *)
(* ================================================================== *)

Section CallDiscipline.

Import Described Protocol.

Lemma logged_model_calls_tokenizer (st : state) (args : tokenizer_args) :
  model_calls (logged st (TokenizerCall args)) = model_calls st.
Proof.
  unfold model_calls, logged. cbn [calls].
  rewrite filter_app, length_app. simpl. lia.
Qed.

Lemma logged_model_calls_model (st : state) (inputs : BatchEncoding) :
  model_calls (logged st (ModelCall inputs)) = S (model_calls st).
Proof.
  unfold model_calls, logged. cbn [calls].
  rewrite filter_app, length_app. simpl. lia.
Qed.

Lemma pass_model_calls (args : tokenizer_args) (st st' : state) :
  pass args st st' ->
  model st' = model st /\ tokenizer st' = tokenizer st
  /\ model_calls st <= model_calls st' <= S (model_calls st).
Proof.
  intros [Htok ->|tok Htok _ ->|tok m features Htok Hfeat Hm ->].
  - repeat split; lia.
  - rewrite logged_model_calls_tokenizer. repeat split; lia.
  - rewrite logged_model_calls_model, logged_model_calls_tokenizer.
    repeat split; lia.
Qed.

Lemma call_tokenizer_unloaded (st : state) (args : tokenizer_args) :
  tokenizer st = None -> call_tokenizer args st = (Err TypeError, st).
Proof. intros H. unfold call_tokenizer. rewrite H. reflexivity. Qed.

Lemma call_model_unloaded (st : state) (inputs : BatchEncoding) :
  model st = None -> call_model inputs st = (Err TypeError, st).
Proof. intros H. unfold call_model. rewrite H. reflexivity. Qed.

(** X1. The cross-encoder's rerank handler keeps to one pass: whatever
    the request and the state, it leaves the globals as they are, calls
    the tokenizer at most once and the model at most once, and calls the
    model only on what the tokenizer returned for this request. *)
Theorem X1_rerank_keeps_to_one_pass :
  forall (request : CrossEncoder.RerankRequest) (st : state),
    let st' := snd (CrossEncoder.rerank request st) in
    pass (rerank_args request) st st'
    /\ model st' = model st
    /\ tokenizer st' = tokenizer st
    /\ model_calls st <= model_calls st' <= S (model_calls st).
Proof.
  intros request st st'.
  assert (Hpass : pass (rerank_args request) st st').
  { unfold st'.
    destruct (tokenizer st) as [tok|] eqn:Htok.
    - destruct (tok (rerank_args request)) as [features|e] eqn:Hfeat.
      + destruct (model st) as [m|] eqn:Hm.
        * apply (TokenizedAndScored Htok Hfeat Hm).
          rewrite (@rerank_run request st tok m features Htok Hm Hfeat).
          reflexivity.
        * apply (@TokenizedOnly _ st _ tok Htok).
          { intros features' _. exact Hm. }
          unfold CrossEncoder.rerank. unfold_prog.
          rewrite (@call_tokenizer_loaded st tok _ Htok).
          fold (rerank_args request). rewrite Hfeat.
          rewrite call_model_unloaded by exact Hm. reflexivity.
      + apply (@TokenizedOnly _ st _ tok Htok).
        { intros features' Hf. congruence. }
        rewrite (@rerank_calls_tokenizer request st tok e Htok Hfeat).
        reflexivity.
    - apply NotTokenized; [exact Htok|].
      unfold CrossEncoder.rerank. unfold_prog.
      rewrite call_tokenizer_unloaded by exact Htok. reflexivity. }
  split; [exact Hpass|]. exact (pass_model_calls Hpass).
Qed.

End CallDiscipline.

Section HandlerEdges.

Import Described Protocol.

Lemma embed_unloaded_model (request : Embedding.EmbedRequest) (st : state)
    (tok : Tokenizer) :
  tokenizer st = Some tok ->
  model st = None ->
  Embedding.embed request st
  = (rbind (tok (embed_args request)) (fun _ => Err TypeError),
     logged st (TokenizerCall (embed_args request))).
Proof.
  intros Htok Hm. unfold Embedding.embed. unfold_prog.
  rewrite (@call_tokenizer_loaded st tok _ Htok).
  fold (embed_args request).
  destruct (tok (embed_args request)) as [encoded|e]; [|reflexivity].
  rewrite call_model_unloaded by exact Hm. reflexivity.
Qed.

Lemma embed_unloaded_tokenizer (request : Embedding.EmbedRequest)
    (st : state) :
  tokenizer st = None ->
  Embedding.embed request st = (Err TypeError, st).
Proof.
  intros Htok. unfold Embedding.embed. unfold_prog.
  rewrite call_tokenizer_unloaded by exact Htok. reflexivity.
Qed.

Lemma rerank_unloaded_tokenizer (request : CrossEncoder.RerankRequest)
    (st : state) :
  tokenizer st = None ->
  CrossEncoder.rerank request st = (Err TypeError, st).
Proof.
  intros Htok. unfold CrossEncoder.rerank. unfold_prog.
  rewrite call_tokenizer_unloaded by exact Htok. reflexivity.
Qed.

Lemma rerank_unloaded_model (request : CrossEncoder.RerankRequest)
    (st : state) (tok : Tokenizer) :
  tokenizer st = Some tok ->
  model st = None ->
  CrossEncoder.rerank request st
  = (rbind (tok (rerank_args request)) (fun _ => Err TypeError),
     logged st (TokenizerCall (rerank_args request))).
Proof.
  intros Htok Hm. unfold CrossEncoder.rerank. unfold_prog.
  rewrite (@call_tokenizer_loaded st tok _ Htok).
  fold (rerank_args request).
  destruct (tok (rerank_args request)) as [features|e]; [|reflexivity].
  rewrite call_model_unloaded by exact Hm. reflexivity.
Qed.

(** X2. The embed handler keeps to one pass: whatever the request and the
    state, it leaves the globals as they are, calls the tokenizer at most
    once and the model at most once, and calls the model only on what the
    tokenizer returned for this request. *)
Theorem X2_embed_keeps_to_one_pass :
  forall (request : Embedding.EmbedRequest) (st : state),
    let st' := snd (Embedding.embed request st) in
    pass (embed_args request) st st'
    /\ model st' = model st
    /\ tokenizer st' = tokenizer st
    /\ model_calls st <= model_calls st' <= S (model_calls st).
Proof.
  intros request st st'.
  assert (Hpass : pass (embed_args request) st st').
  { unfold st'.
    destruct (tokenizer st) as [tok|] eqn:Htok.
    - destruct (model st) as [m|] eqn:Hm.
      + rewrite (@embed_run request st tok m Htok Hm).
        fold (embed_args request).
        destruct (tok (embed_args request)) as [encoded|e] eqn:Henc.
        * apply (TokenizedAndScored Htok Henc Hm). reflexivity.
        * apply (@TokenizedOnly _ st _ tok Htok); [|reflexivity].
          intros features Hf. congruence.
      + rewrite (@embed_unloaded_model request st tok Htok Hm).
        apply (@TokenizedOnly _ st _ tok Htok); [|reflexivity].
        intros features _. exact Hm.
    - rewrite (@embed_unloaded_tokenizer request st Htok).
      apply NotTokenized; [exact Htok | reflexivity]. }
  split; [exact Hpass|]. exact (pass_model_calls Hpass).
Qed.

(** X3. A rerank request served before the tokenizer is loaded fails with
    a TypeError and does nothing. When the tokenizer is loaded but the
    model is not, the batch is tokenized first and the request then fails
    with a TypeError at the model call. *)
Theorem X3_rerank_before_load :
  forall (request : CrossEncoder.RerankRequest) (st : state),
    let args :=
      mkTokenizerArgs
        (repeat (CrossEncoder.query request)
           (List.length (CrossEncoder.documents request)))
        (Some (CrossEncoder.documents request)) true TruncationTrue 512 in
    (tokenizer st = None ->
     CrossEncoder.rerank request st = (Err TypeError, st))
    /\ (forall tok features,
          tokenizer st = Some tok ->
          tok args = Ok features ->
          model st = None ->
          CrossEncoder.rerank request st
          = (Err TypeError, logged st (TokenizerCall args))).
Proof.
  intros request st args. split.
  - apply rerank_unloaded_tokenizer.
  - intros tok features Htok Hfeat Hm.
    rewrite (@rerank_unloaded_model request st tok Htok Hm).
    change (rerank_args request) with args. rewrite Hfeat. reflexivity.
Qed.

Lemma X3_witness :
  let request := CrossEncoder.mkRerankRequest "q" ["d"]%string in
  CrossEncoder.rerank request initial_state = (Err TypeError, initial_state)
  /\ model_calls
       (snd (CrossEncoder.rerank request
               (Probe.tokenizer_only Stub.tokenizer))) = 0
  /\ tokenizer_calls
       (snd (CrossEncoder.rerank request
               (Probe.tokenizer_only Stub.tokenizer))) = 1.
Proof.
  intros request.
  destruct (X3_rerank_before_load request initial_state) as [Hnone _].
  destruct (X3_rerank_before_load request
              (Probe.tokenizer_only Stub.tokenizer)) as [_ Hsome].
  split; [exact (Hnone eq_refl)|].
  rewrite (Hsome Stub.tokenizer (Probe.encoding 1) eq_refl eq_refl eq_refl).
  split; reflexivity.
Defined.

(** X4. An embed request served before the tokenizer is loaded fails with
    a TypeError and does nothing. When the tokenizer is loaded but the
    model is not, the texts are tokenized first and the request then fails
    with a TypeError at the model call. *)
Theorem X4_embed_before_load :
  forall (request : Embedding.EmbedRequest) (st : state),
    let args :=
      mkTokenizerArgs (Embedding.texts request) None true TruncationTrue 512 in
    (tokenizer st = None ->
     Embedding.embed request st = (Err TypeError, st))
    /\ (forall tok encoded,
          tokenizer st = Some tok ->
          tok args = Ok encoded ->
          model st = None ->
          Embedding.embed request st
          = (Err TypeError, logged st (TokenizerCall args))).
Proof.
  intros request st args. split.
  - apply embed_unloaded_tokenizer.
  - intros tok encoded Htok Henc Hm.
    rewrite (@embed_unloaded_model request st tok Htok Hm).
    change (embed_args request) with args. rewrite Henc. reflexivity.
Qed.

Lemma X4_witness :
  let request := Embedding.mkEmbedRequest ["a"]%string in
  Embedding.embed request initial_state = (Err TypeError, initial_state)
  /\ model_calls
       (snd (Embedding.embed request (Probe.tokenizer_only Stub.tokenizer)))
     = 0
  /\ tokenizer_calls
       (snd (Embedding.embed request (Probe.tokenizer_only Stub.tokenizer)))
     = 1.
Proof.
  intros request.
  destruct (X4_embed_before_load request initial_state) as [Hnone _].
  destruct (X4_embed_before_load request
              (Probe.tokenizer_only Stub.tokenizer)) as [_ Hsome].
  split; [exact (Hnone eq_refl)|].
  rewrite (Hsome Stub.tokenizer (Probe.encoding 1) eq_refl eq_refl eq_refl).
  split; reflexivity.
Defined.

Lemma response_of_matrix (logits : tensor R) (N K : nat) :
  shape logits = [N; K] ->
  1 <= N -> K <> 1 ->
  response_of logits = Err ValidationError.
Proof.
  intros Hshape HN HK.
  destruct logits as [sh g]; simpl in Hshape; subst sh.
  destruct N as [|N']; [lia|].
  destruct K as [|[|K']]; [reflexivity | congruence | reflexivity].
Qed.

(** X5. The rerank handler serves only a model with a single logit per
    pair: when the model returns two or more logits per pair, or none,
    for at least one document, the squeeze changes nothing, the scores are
    a list of lists, and the response is refused with a validation error
    after the tokenizer and the model have been called. *)
Theorem X5_rerank_refuses_several_logits_per_pair :
  forall (request : CrossEncoder.RerankRequest) (st : state)
         (tok : Tokenizer) (m : Model) (features : BatchEncoding)
         (logits : tensor R) (N K : nat),
    let args :=
      mkTokenizerArgs
        (repeat (CrossEncoder.query request)
           (List.length (CrossEncoder.documents request)))
        (Some (CrossEncoder.documents request)) true TruncationTrue 512 in
    tokenizer st = Some tok ->
    model st = Some m ->
    tok args = Ok features ->
    m features = Ok logits ->
    shape logits = [N; K] ->
    1 <= N -> K <> 1 ->
    CrossEncoder.rerank request st
    = (Err ValidationError,
       logged (logged st (TokenizerCall args)) (ModelCall features)).
Proof.
  intros request st tok m features logits N K args
         Htok Hm Hfeat Hrun Hshape HN HK.
  rewrite (@rerank_run request st tok m features Htok Hm Hfeat).
  rewrite Hrun. cbn [rbind].
  rewrite (response_of_matrix logits Hshape HN HK). reflexivity.
Qed.

Lemma X5_witness :
  let st := Stub.loaded Stub.tokenizer Probe.two_label_classifier in
  fst (CrossEncoder.rerank
         (CrossEncoder.mkRerankRequest "q" ["a"; "b"]%string) st)
  = Err ValidationError.
Proof.
  intros st.
  rewrite (@X5_rerank_refuses_several_logits_per_pair
             (CrossEncoder.mkRerankRequest "q" ["a"; "b"]%string) st
             Stub.tokenizer Probe.two_label_classifier (Probe.encoding 2)
             (mkTensor [2; 2] (fun _ => 0%R)) 2 2
             eq_refl eq_refl eq_refl eq_refl eq_refl
             ltac:(lia) ltac:(lia)).
  reflexivity.
Defined.

End HandlerEdges.

(** ** Order and symmetry of the scores *)

Section ScoreOrder.

Import Described.

Local Open Scope R_scope.

Lemma sigmoid_fn_increasing (x y : R) :
  x < y -> sigmoid_fn x < sigmoid_fn y.
Proof.
  intros Hxy. unfold sigmoid_fn, Rdiv. rewrite !Rmult_1_l.
  pose proof (exp_pos (- x)) as Hx. pose proof (exp_pos (- y)) as Hy.
  apply Rinv_lt_contravar; [nra|].
  apply Rplus_lt_compat_l. apply exp_increasing. lra.
Qed.

Lemma sigmoid_fn_monotone (x y : R) :
  x <= y -> sigmoid_fn x <= sigmoid_fn y.
Proof.
  intros [Hxy| ->]; [|lra].
  left. apply sigmoid_fn_increasing. exact Hxy.
Qed.

Lemma sigmoid_fn_0 : sigmoid_fn 0 = 1 / 2.
Proof. unfold sigmoid_fn. rewrite Ropp_0, exp_0. lra. Qed.


Lemma log_softmax_score_sigmoid (yes no : nat) (logits : tensor R)
    (S b : nat) :
  log_softmax_score yes no logits S b = sigmoid_score yes no logits S b.
Proof.
  unfold log_softmax_score, yes_probability, sigmoid_score.
  apply exp_log_softmax2_yes.
Qed.

End ScoreOrder.

Section ScoreLaws.

Import Described.

(** X6. The cross-encoder's scores never reverse the order of the
    logits: a document whose logit is at least that of another gets a
    score that is at least as high, equal scores for different logits
    being allowed; a logit that is not negative gives a score of at least
    one half, and a logit that is not positive a score of at most one
    half. *)
Theorem X6_rerank_scores_keep_logit_order :
  forall (request : CrossEncoder.RerankRequest) (st : state)
         (tok : Tokenizer) (m : Model) (features : BatchEncoding)
         (logits : tensor R),
    let N := List.length (CrossEncoder.documents request) in
    let args :=
      mkTokenizerArgs (repeat (CrossEncoder.query request) N)
        (Some (CrossEncoder.documents request)) true TruncationTrue 512 in
    tokenizer st = Some tok ->
    model st = Some m ->
    tok args = Ok features ->
    m features = Ok logits ->
    shape logits = [N; 1] ->
    exists scores,
      fst (CrossEncoder.rerank request st)
      = Ok (CrossEncoder.mkRerankResponse scores)
      /\ (forall i j, i < N -> j < N ->
            (get logits [i; 0%nat] <= get logits [j; 0%nat])%R ->
            (nth i scores 0 <= nth j scores 0)%R)
      /\ (forall i, i < N ->
            ((0 <= get logits [i; 0%nat])%R -> (1 / 2 <= nth i scores 0)%R)
            /\ ((get logits [i; 0%nat] <= 0)%R ->
                (nth i scores 0 <= 1 / 2)%R)).
Proof.
  intros request st tok m features logits N args Htok Hm Hfeat Hrun Hshape.
  exists (map (fun i => sigmoid_fn (get logits [i; 0])) (seq 0 N)).
  split; [|split].
  - rewrite (@rerank_run request st tok m features Htok Hm Hfeat).
    rewrite Hrun. cbn [fst rbind].
    apply (response_of_column logits Hshape).
  - intros i j Hi Hj Hle. rewrite !nth_map_seq by assumption.
    apply sigmoid_fn_monotone. exact Hle.
  - intros i Hi. rewrite nth_map_seq by assumption.
    rewrite <- sigmoid_fn_0.
    split; intros Hle; apply sigmoid_fn_monotone; exact Hle.
Qed.

Lemma X6_witness :
  let request := CrossEncoder.mkRerankRequest "q" ["a"; "b"]%string in
  let st := Stub.loaded Stub.tokenizer Stub.classifier in
  exists scores,
    fst (CrossEncoder.rerank request st)
    = Ok (CrossEncoder.mkRerankResponse scores)
    /\ (1 / 2 <= nth 0 scores 0 <= nth 1 scores 0)%R.
Proof.
  intros request st.
  destruct (@X6_rerank_scores_keep_logit_order request st Stub.tokenizer
              Stub.classifier (Probe.encoding 2)
              (mkTensor [2; 1] (fun idx => INR (hd 0 idx)))
              eq_refl eq_refl eq_refl eq_refl eq_refl)
    as (scores & Hrun & Horder & Hhalf).
  exists scores. split; [exact Hrun|]. split.
  - apply (Hhalf 0); [simpl; lia|]. simpl. lra.
  - apply (Horder 0 1); [simpl; lia | simpl; lia |].
    simpl. lra.
Defined.

Variables token_true_id token_false_id : nat.

(** The scores of a batch as [compute_logits] returns them, when it
    returns. *)
Lemma compute_logits_scores (inputs : BatchEncoding) (st : state) (m : Model)
    (logits : tensor R) (N S V : nat) :
  model st = Some m ->
  m inputs = Ok logits ->
  shape logits = [N; S; V] ->
  0 < S -> token_true_id < V -> token_false_id < V ->
  fst (Qwen3.compute_logits token_true_id token_false_id inputs st)
  = Ok (py_floats
          (map (sigmoid_score token_true_id token_false_id logits S)
               (seq 0 N))).
Proof.
  intros Hm Hrun Hshape HS Hyes Hno.
  rewrite compute_logits_run with (m := m) (logits := logits) (B := N)
    (S := S) (V := V) by assumption.
  cbn [fst]. f_equal. f_equal. apply map_ext.
  intros b. apply log_softmax_score_sigmoid.
Qed.

End ScoreLaws.

(** ** Laws of the causal-LM scores *)

Section CausalScoreLaws.

Import Described.

(** X7. The causal-LM scores depend on the logits only through the gap
    between the yes logit and the no logit at the final position: two
    batches of logits with the same gaps, whatever their other
    vocabulary entries, their earlier positions, their sequence lengths
    or a common shift of both logits, get the same scores. *)
Theorem X7_scores_depend_only_on_logit_gap :
  forall (token_true_id token_false_id : nat)
         (inputs inputs' : BatchEncoding) (st st' : state) (m m' : Model)
         (logits logits' : tensor R) (N S S' V V' : nat),
    model st = Some m ->
    m inputs = Ok logits ->
    shape logits = [N; S; V] ->
    0 < S -> token_true_id < V -> token_false_id < V ->
    model st' = Some m' ->
    m' inputs' = Ok logits' ->
    shape logits' = [N; S'; V'] ->
    0 < S' -> token_true_id < V' -> token_false_id < V' ->
    (forall b, b < N ->
       let lyes := get logits [b; S - 1; token_true_id] in
       let lno := get logits [b; S - 1; token_false_id] in
       let lyes' := get logits' [b; S' - 1; token_true_id] in
       let lno' := get logits' [b; S' - 1; token_false_id] in
       (lyes' - lno' = lyes - lno)%R) ->
    fst (Qwen3.compute_logits token_true_id token_false_id inputs' st')
    = fst (Qwen3.compute_logits token_true_id token_false_id inputs st).
Proof.
  intros yes no inputs inputs' st st' m m' logits logits' N S S' V V'
         Hm Hrun Hshape HS Hyes Hno Hm' Hrun' Hshape' HS' Hyes' Hno' Hgap.
  rewrite (@compute_logits_scores yes no inputs st m logits N S V)
    by assumption.
  rewrite (@compute_logits_scores yes no inputs' st' m' logits' N S' V')
    by assumption.
  f_equal. f_equal. apply map_ext_in. intros b Hb. apply in_seq in Hb.
  unfold sigmoid_score, final_logit. f_equal. apply Hgap. lia.
Qed.

Lemma X7_witness :
  fst (Qwen3.compute_logits 1 2 (Probe.encoding 2)
         (Stub.loaded Stub.tokenizer
            (Probe.constant_model Probe.shifted_logits)))
  = fst (Qwen3.compute_logits 1 2 (Probe.encoding 2)
           (Stub.loaded Stub.tokenizer
              (Probe.constant_model Probe.graded_logits))).
Proof.
  apply (@X7_scores_depend_only_on_logit_gap 1 2
           (Probe.encoding 2) (Probe.encoding 2) _ _
           (Probe.constant_model Probe.graded_logits)
           (Probe.constant_model Probe.shifted_logits)
           Probe.graded_logits Probe.shifted_logits 2 3 1 4 4);
    try reflexivity; try lia.
  intros b Hb. simpl. lra.
Defined.





Lemma map_const_seq {A : Type} (c : A) (k n : nat) :
  map (fun _ => c) (seq k n) = repeat c n.
Proof.
  revert k. induction n as [|n IH]; intros k; simpl; [reflexivity|].
  rewrite IH. reflexivity.
Qed.

(** X10. When the yes token and the no token have the same identifier,
    as when the tokenizer maps both words to its unknown token, every
    pair is scored exactly one half, whatever the logits. *)
Theorem X10_equal_token_ids_score_one_half :
  forall (token_id : nat) (inputs : BatchEncoding) (st : state) (m : Model)
         (logits : tensor R) (N S V : nat),
    model st = Some m ->
    m inputs = Ok logits ->
    shape logits = [N; S; V] ->
    0 < S -> token_id < V ->
    fst (Qwen3.compute_logits token_id token_id inputs st)
    = Ok (py_floats (repeat (1 / 2)%R N)).
Proof.
  intros id inputs st m logits N S V Hm Hrun Hshape HS Hid.
  rewrite (@compute_logits_scores id id inputs st m logits N S V)
    by assumption.
  f_equal. f_equal.
  rewrite (map_ext (sigmoid_score id id logits S) (fun _ => (1 / 2)%R)).
  - apply map_const_seq.
  - intros b. unfold sigmoid_score.
    rewrite Rminus_diag. apply sigmoid_fn_0.
Qed.

Lemma X10_witness :
  fst (Qwen3.compute_logits 3 3 (Probe.encoding 2)
         (Stub.loaded Stub.tokenizer Stub.causal_lm))
  = Ok (py_floats [(1 / 2)%R; (1 / 2)%R]).
Proof.
  apply (@X10_equal_token_ids_score_one_half 3 (Probe.encoding 2)
           (Stub.loaded Stub.tokenizer Stub.causal_lm) Stub.causal_lm
           (mkTensor [2; 3; 4] (fun idx => INR (nth 2 idx 0))) 2 3 4
           eq_refl eq_refl eq_refl ltac:(lia) ltac:(lia)).
Defined.

End CausalScoreLaws.

(** ** Edges of the causal-LM path *)

Section CausalEdges.

Import Described Protocol.

Local Open Scope string_scope.

Lemma string_append_assoc (a b c : string) : (a ++ b) ++ c = a ++ (b ++ c).
Proof.
  induction a as [|x a IH]; simpl; [reflexivity|].
  rewrite IH. reflexivity.
Qed.

Lemma string_length_append (a b : string) :
  String.length (a ++ b) = (String.length a + String.length b)%nat.
Proof.
  induction a as [|x a IH]; simpl; [reflexivity|].
  rewrite IH. reflexivity.
Qed.

Lemma string_append_cancel_l (s a b : string) : s ++ a = s ++ b -> a = b.
Proof.
  induction s as [|x s IH]; simpl; intros H; [exact H|].
  injection H as H. exact (IH H).
Qed.

Lemma string_append_cancel_r (s a b : string) : a ++ s = b ++ s -> a = b.
Proof.
  revert b. induction a as [|x a IH]; intros [|y b] H; simpl in H.
  - reflexivity.
  - apply (f_equal String.length) in H. simpl in H.
    rewrite string_length_append in H. lia.
  - apply (f_equal String.length) in H. simpl in H.
    rewrite string_length_append in H. lia.
  - injection H as Hxy H. subst y. f_equal. exact (IH b H).
Qed.

Lemma build_inputs_unloaded_tokenizer (queries documents : list string)
    (instruction : option string) (st : state) :
  List.length queries = List.length documents ->
  tokenizer st = None ->
  Qwen3.build_inputs queries documents instruction st = (Err TypeError, st).
Proof.
  intros Hlen Htok. unfold Qwen3.build_inputs. unfold_prog.
  rewrite Hlen, Nat.eqb_refl.
  rewrite Qwen3Facts.render_texts_map. cbv beta iota.
  rewrite call_tokenizer_unloaded by exact Htok. reflexivity.
Qed.

(** X11. With queries and documents of equal length, build_inputs fails
    with a TypeError and does nothing when the tokenizer is not loaded;
    an exception of the tokenizer is its outcome; and when the tokenizer
    succeeds but the model is not loaded, the texts have already been
    tokenized when the lookup of the model's device fails with an
    AttributeError. *)
Theorem X11_build_inputs_before_load :
  forall (queries documents : list string) (instruction : option string)
         (st : state),
    let args :=
      mkTokenizerArgs (map (prompt instruction) (combine queries documents))
        None true (TruncationNamed "longest_first") Qwen3.MAX_LENGTH in
    List.length queries = List.length documents ->
    (tokenizer st = None ->
     Qwen3.build_inputs queries documents instruction st
     = (Err TypeError, st))
    /\ (forall tok e,
          tokenizer st = Some tok ->
          tok args = Err e ->
          Qwen3.build_inputs queries documents instruction st
          = (Err e, logged st (TokenizerCall args)))
    /\ (forall tok encoded,
          tokenizer st = Some tok ->
          tok args = Ok encoded ->
          model st = None ->
          Qwen3.build_inputs queries documents instruction st
          = (Err AttributeError, logged st (TokenizerCall args))).
Proof.
  intros queries documents instruction st args Hlen.
  split; [|split].
  - intros Htok. apply build_inputs_unloaded_tokenizer; assumption.
  - intros tok e Htok Herr.
    rewrite (@build_inputs_run queries documents instruction st tok
               Hlen Htok).
    fold args. rewrite Herr. reflexivity.
  - intros tok encoded Htok Henc Hm.
    rewrite (@build_inputs_run queries documents instruction st tok
               Hlen Htok).
    fold args. rewrite Henc. cbn [rbind]. rewrite Hm. reflexivity.
Qed.

Lemma X11_witness :
  Qwen3.build_inputs ["q"] ["d"] None initial_state
  = (Err TypeError, initial_state)
  /\ fst (Qwen3.build_inputs ["q"] ["d"] None
            (Probe.tokenizer_only Stub.tokenizer))
     = Err AttributeError
  /\ tokenizer_calls
       (snd (Qwen3.build_inputs ["q"] ["d"] None
               (Probe.tokenizer_only Stub.tokenizer)))
     = 1%nat.
Proof.
  destruct (@X11_build_inputs_before_load ["q"] ["d"] None initial_state
              eq_refl) as (Hnone & _ & _).
  destruct (@X11_build_inputs_before_load ["q"] ["d"] None
              (Probe.tokenizer_only Stub.tokenizer) eq_refl)
    as (_ & _ & Hdev).
  split; [exact (Hnone eq_refl)|].
  rewrite (Hdev Stub.tokenizer (Probe.encoding 1) eq_refl eq_refl eq_refl).
  split; reflexivity.
Defined.

(** X12. The boundary between query and document cannot be recovered from
    a prompt: a query that ends with the text of the Document line
    followed by [b] gives, with document [c], the very prompt that the
    query without that ending gives with the document that starts with
    [b] followed by the Document line and [c]. *)
Theorem X12_prompt_boundary_is_ambiguous :
  forall (instruction : option string) (a b c : string),
    let document_line := Qwen3.nl ++ "<Document>: " in
    Qwen3.format_instruction instruction (a ++ document_line ++ b) c
    = Qwen3.format_instruction instruction a (b ++ document_line ++ c)
    /\ Qwen3.render_texts instruction [(a ++ document_line ++ b, c)]
       = Qwen3.render_texts instruction [(a, b ++ document_line ++ c)].
Proof.
  intros instruction a b c document_line.
  assert (Hcore :
            core_text (instruction_or_default instruction)
              (a ++ document_line ++ b) c
            = core_text (instruction_or_default instruction) a
                (b ++ document_line ++ c)).
  { unfold core_text, document_line.
    rewrite !string_append_assoc. reflexivity. }
  split.
  - rewrite !Qwen3Facts.format_instruction_core, Hcore. reflexivity.
  - rewrite !Qwen3Facts.render_texts_map. cbn [map]. unfold prompt.
    cbn [fst snd]. rewrite Hcore. reflexivity.
Qed.

Lemma prompt_injective_in_document (instruction : option string)
    (q d1 d2 : string) :
  prompt instruction (q, d1) = prompt instruction (q, d2) -> d1 = d2.
Proof.
  unfold prompt, core_text. cbn [fst snd]. intros H.
  apply string_append_cancel_l in H.
  apply string_append_cancel_r in H.
  repeat apply string_append_cancel_l in H. exact H.
Qed.

(** X13. Under one instruction and one list of queries, the prompts
    determine the documents: two document lists of the length of the
    query list that are rendered to the same texts are the same list. *)
Theorem X13_prompts_determine_documents :
  forall (instruction : option string) (queries docs1 docs2 : list string),
    List.length docs1 = List.length queries ->
    List.length docs2 = List.length queries ->
    Qwen3.render_texts instruction (combine queries docs1)
    = Qwen3.render_texts instruction (combine queries docs2) ->
    docs1 = docs2.
Proof.
  intros instruction queries docs1 docs2 H1 H2 Heq.
  rewrite !Qwen3Facts.render_texts_map in Heq.
  injection Heq as Heq.
  revert docs1 docs2 H1 H2 Heq.
  induction queries as [|q queries IH]; intros [|d1 docs1] [|d2 docs2] H1 H2 Heq;
    simpl in H1, H2; try discriminate; [reflexivity|].
  cbn [combine map] in Heq.
  pose proof (f_equal (hd EmptyString) Heq) as Hhead.
  pose proof (f_equal (@tl string) Heq) as Htail.
  cbn [hd tl] in Hhead, Htail.
  f_equal.
  - exact (@prompt_injective_in_document instruction q d1 d2 Hhead).
  - apply IH; [lia | lia | exact Htail].
Qed.

Lemma X13_witness :
  Qwen3.render_texts None (combine ["q"; "r"] ["d"; "e"])
  = Qwen3.render_texts None (combine ["q"; "r"] ["d"; "e"])
  /\ ["d"; "e"] = ["d"; "e"].
Proof.
  split; [reflexivity|].
  exact (@X13_prompts_determine_documents None ["q"; "r"] ["d"; "e"]
           ["d"; "e"] eq_refl eq_refl eq_refl).
Defined.

End CausalEdges.

Section CausalFailures.

Import Described Protocol.

Lemma compute_logits_state (yes no : nat) (inputs : BatchEncoding)
    (st : state) :
  snd (Qwen3.compute_logits yes no inputs st) = snd (call_model inputs st).
Proof.
  rewrite compute_logits_decision. unfold Runtime.bind.
  destruct (call_model inputs st) as [[logits|e] st1]; reflexivity.
Qed.

Lemma compute_logits_result (yes no : nat) (inputs : BatchEncoding)
    (st : state) (m : Model) :
  model st = Some m ->
  Qwen3.compute_logits yes no inputs st
  = (rbind (m inputs) (fun logits =>
       rbind (decision_log_probs yes no logits) (fun lsm =>
       rbind (select_dim1 1 lsm) (fun yes_column =>
       Ok (tolist (texp yes_column))))),
     logged st (ModelCall inputs)).
Proof.
  intros Hm. rewrite compute_logits_decision. unfold Runtime.bind.
  rewrite (@call_model_loaded st m inputs Hm).
  destruct (m inputs) as [logits|e]; reflexivity.
Qed.

Lemma decision_log_probs_out_of_range (yes no : nat) (logits : tensor R)
    (B S V : nat) :
  shape logits = [B; S; V] ->
  S = 0 \/ V <= yes \/ V <= no ->
  decision_log_probs yes no logits = Err IndexError.
Proof.
  intros Hshape Hbad.
  destruct logits as [sh g]; simpl in Hshape; subst sh.
  unfold decision_log_probs, select_last_dim1. cbn [shape].
  destruct S as [|S']; [reflexivity|]. cbn [Nat.eqb rbind].
  unfold select_dim1 at 1. cbn [shape].
  destruct (Nat.ltb_spec yes V) as [Hyes|Hyes]; [|reflexivity].
  cbn [rbind]. unfold select_dim1 at 1. cbn [shape].
  destruct (Nat.ltb_spec no V) as [Hno|Hno]; [|reflexivity].
  lia.
Qed.

Lemma decision_log_probs_low_rank (yes no : nat) (logits : tensor R) :
  List.length (shape logits) < 3 ->
  decision_log_probs yes no logits = Err IndexError.
Proof.
  intros Hrank. destruct logits as [sh g]. cbn [shape] in Hrank.
  unfold decision_log_probs, select_last_dim1. cbn [shape].
  destruct sh as [|a [|b [|c rest]]]; simpl in Hrank; try lia; reflexivity.
Qed.

(** X14. The causal-LM scorer fails as follows. With no model loaded it
    raises a TypeError and does nothing. With a model loaded it calls the
    model once; an exception of the model is its outcome, and it raises an
    IndexError after that call when the logits have fewer than three
    dimensions, when their sequence dimension is empty, or when the
    identifier of the yes or the no token is outside the vocabulary. *)
Theorem X14_compute_logits_failures :
  forall (token_true_id token_false_id : nat) (inputs : BatchEncoding)
         (st : state),
    (model st = None ->
     Qwen3.compute_logits token_true_id token_false_id inputs st
     = (Err TypeError, st))
    /\ (forall m, model st = Some m ->
          (forall e, m inputs = Err e ->
             Qwen3.compute_logits token_true_id token_false_id inputs st
             = (Err e, logged st (ModelCall inputs)))
          /\ (forall logits, m inputs = Ok logits ->
                List.length (shape logits) < 3 ->
                Qwen3.compute_logits token_true_id token_false_id inputs st
                = (Err IndexError, logged st (ModelCall inputs)))
          /\ (forall logits B S V, m inputs = Ok logits ->
                shape logits = [B; S; V] ->
                S = 0 \/ V <= token_true_id \/ V <= token_false_id ->
                Qwen3.compute_logits token_true_id token_false_id inputs st
                = (Err IndexError, logged st (ModelCall inputs)))).
Proof.
  intros yes no inputs st. split.
  - intros Hm. rewrite compute_logits_decision. unfold Runtime.bind.
    rewrite call_model_unloaded by exact Hm. reflexivity.
  - intros m Hm. rewrite (@compute_logits_result yes no inputs st m Hm).
    split; [|split].
    + intros e Herr. rewrite Herr. reflexivity.
    + intros logits Hrun Hrank. rewrite Hrun. cbn [rbind].
      rewrite (decision_log_probs_low_rank yes no logits Hrank).
      reflexivity.
    + intros logits B S V Hrun Hshape Hbad. rewrite Hrun. cbn [rbind].
      rewrite (@decision_log_probs_out_of_range yes no logits B S V
                 Hshape Hbad).
      reflexivity.
Qed.

Lemma X14_witness :
  Qwen3.compute_logits 1 2 (Probe.encoding 2) initial_state
  = (Err TypeError, initial_state)
  /\ Qwen3.compute_logits 1 7 (Probe.encoding 2)
       (Stub.loaded Stub.tokenizer Stub.causal_lm)
     = (Err IndexError,
        logged (Stub.loaded Stub.tokenizer Stub.causal_lm)
          (ModelCall (Probe.encoding 2)))
  /\ Qwen3.compute_logits 0 0 (Probe.encoding 2)
       (Stub.loaded Stub.tokenizer Stub.classifier)
     = (Err IndexError,
        logged (Stub.loaded Stub.tokenizer Stub.classifier)
          (ModelCall (Probe.encoding 2))).
Proof.
  split; [|split].
  - destruct (X14_compute_logits_failures 1 2 (Probe.encoding 2)
                initial_state) as [Hnone _].
    exact (Hnone eq_refl).
  - destruct (X14_compute_logits_failures 1 7 (Probe.encoding 2)
                (Stub.loaded Stub.tokenizer Stub.causal_lm)) as [_ Hsome].
    destruct (Hsome Stub.causal_lm eq_refl) as (_ & _ & Hrange).
    apply (Hrange (mkTensor [2; 3; 4] (fun idx => INR (nth 2 idx 0)))
             2 3 4 eq_refl eq_refl).
    right. right. lia.
  - destruct (X14_compute_logits_failures 0 0 (Probe.encoding 2)
                (Stub.loaded Stub.tokenizer Stub.classifier)) as [_ Hsome].
    destruct (Hsome Stub.classifier eq_refl) as (_ & Hrank & _).
    apply (Hrank (mkTensor [2; 1] (fun idx => INR (hd 0 idx))) eq_refl).
    simpl. lia.
Defined.

(** X15. The causal-LM pipeline, build_inputs followed by
    compute_logits, keeps to one pass when the queries and the documents
    have the same length: it leaves the globals as they are, calls the
    tokenizer at most once, on the rendered prompts, and the model at most
    once, on what the tokenizer returned; when the lengths differ it
    leaves the whole state as it was. *)
Theorem X15_run_reranker_keeps_to_one_pass :
  forall (token_true_id token_false_id : nat)
         (queries documents : list string) (instruction : option string)
         (st : state),
    let st' :=
      snd (Qwen3.run_reranker token_true_id token_false_id queries documents
             instruction st) in
    (List.length queries = List.length documents ->
     pass (build_inputs_args queries documents instruction) st st'
     /\ model_calls st <= model_calls st' <= S (model_calls st))
    /\ (List.length queries <> List.length documents -> st' = st).
Proof.
  intros yes no queries documents instruction st st'. split.
  - intros Hlen.
    assert (Hpass : pass (build_inputs_args queries documents instruction)
                      st st').
    { unfold st', Qwen3.run_reranker, Runtime.bind.
      destruct (tokenizer st) as [tok|] eqn:Htok.
      - rewrite (@build_inputs_run queries documents instruction st tok
                   Hlen Htok).
        fold (build_inputs_args queries documents instruction).
        destruct (tok (build_inputs_args queries documents instruction))
          as [encoded|e] eqn:Henc; cbn [rbind].
        + destruct (model st) as [m|] eqn:Hm.
          * rewrite compute_logits_state.
            rewrite (@call_model_loaded
                       (logged st
                          (TokenizerCall
                             (build_inputs_args queries documents
                                instruction)))
                       m encoded Hm).
            apply (TokenizedAndScored Htok Henc Hm). reflexivity.
          * apply (@TokenizedOnly _ st _ tok Htok); [|reflexivity].
            intros features _. exact Hm.
        + apply (@TokenizedOnly _ st _ tok Htok); [|reflexivity].
          intros features Hf. congruence.
      - rewrite (@build_inputs_unloaded_tokenizer queries documents
                   instruction st Hlen Htok).
        apply NotTokenized; [exact Htok | reflexivity]. }
    split; [exact Hpass|].
    destruct (pass_model_calls Hpass) as (_ & _ & Hcount). exact Hcount.
  - intros Hlen. unfold st', Qwen3.run_reranker, Runtime.bind.
    rewrite (@build_inputs_mismatch queries documents instruction st Hlen).
    reflexivity.
Qed.

Lemma X15_witness :
  let st := Stub.loaded Stub.tokenizer Stub.causal_lm in
  model_calls
    (snd (Qwen3.run_reranker 1 2 ["q"]%string ["d"]%string None st))
  <= 1
  /\ snd (Qwen3.run_reranker 1 2 ["q"]%string [] None st) = st.
Proof.
  intros st. split.
  - destruct (X15_run_reranker_keeps_to_one_pass 1 2 ["q"]%string
                ["d"]%string None st) as [Heq _].
    destruct (Heq eq_refl) as [_ [_ Hcount]]. exact Hcount.
  - destruct (X15_run_reranker_keeps_to_one_pass 1 2 ["q"]%string []
                None st) as [_ Hneq].
    apply Hneq. simpl. lia.
Defined.

End CausalFailures.

(** ** Laws of the embeddings *)

Section NormLaws.

Import Described.

Local Open Scope R_scope.

Lemma l2_norm_nonneg (v : list R) : 0 <= l2_norm v.
Proof. unfold l2_norm. apply sqrt_pos. Qed.

Lemma l2_norm_sqr (v : list R) : l2_norm v * l2_norm v = Rsum (map Rsqr v).
Proof. unfold l2_norm. apply sqrt_sqrt. apply Rsum_sqr_nonneg. Qed.

(** Scaling a vector by a non-negative factor scales its norm. *)
Lemma l2_norm_scale (c : R) (v : list R) :
  0 <= c -> l2_norm (map (fun x => c * x) v) = c * l2_norm v.
Proof.
  intros Hc. unfold l2_norm at 1.
  apply sqrt_lem_1.
  - apply Rsum_sqr_nonneg.
  - pose proof (l2_norm_nonneg v). nra.
  - rewrite map_map.
    rewrite (map_ext (fun x => Rsqr (c * x)) (fun x => (c * c) * Rsqr x))
      by (intros x; unfold Rsqr; ring).
    rewrite <- (map_map Rsqr (fun y => (c * c) * y)), Rsum_scale.
    rewrite <- l2_norm_sqr. ring.
Qed.

Lemma l2_norm_div (d : R) (v : list R) :
  0 < d -> l2_norm (map (fun x => x / d) v) = l2_norm v / d.
Proof.
  intros Hd.
  rewrite (map_ext (fun x => x / d) (fun x => / d * x))
    by (intros x; unfold Rdiv; ring).
  rewrite l2_norm_scale.
  - unfold Rdiv. ring.
  - left. apply Rinv_0_lt_compat. exact Hd.
Qed.

(** No coordinate exceeds the norm. *)
Lemma coordinate_le_l2_norm (v : list R) (x : R) :
  In x v -> Rabs x <= l2_norm v.
Proof.
  intros Hin. rewrite <- sqrt_Rsqr_abs. unfold l2_norm.
  apply sqrt_le_1; [apply Rle_0_sqr | apply Rsum_sqr_nonneg |].
  induction v as [|y v IH]; [contradiction|].
  simpl. pose proof (Rsum_sqr_nonneg v) as Hv. pose proof (Rle_0_sqr y).
  destruct Hin as [->|Hin]; [lra|].
  specialize (IH Hin). lra.
Qed.

Lemma normalize_divisor_pos (n : R) : 0 < Rmax n normalize_eps.
Proof.
  pose proof normalize_eps_pos. pose proof (Rmax_r n normalize_eps). lra.
Qed.

(** What the normalization returns has norm at most 1 and coordinates
    between -1 and 1, whatever the pooled vector. *)
Lemma normalized_vector_bounded (v : list R) :
  let w := map (fun x => x / Rmax (l2_norm v) normalize_eps) v in
  l2_norm w <= 1 /\ Forall (fun y => -1 <= y <= 1) w.
Proof.
  intros w. set (d := Rmax (l2_norm v) normalize_eps).
  assert (Hd : 0 < d) by apply normalize_divisor_pos.
  assert (Hn : l2_norm v <= d) by apply Rmax_l.
  assert (Hw : l2_norm w <= 1).
  { unfold w. fold d. rewrite l2_norm_div by exact Hd.
    apply (Rmult_le_reg_r d); [exact Hd|].
    unfold Rdiv. rewrite Rmult_assoc, Rinv_l by lra. lra. }
  split; [exact Hw|].
  apply Forall_forall. intros y Hy.
  pose proof (coordinate_le_l2_norm w y Hy) as Habs.
  unfold Rabs in Habs. destruct (Rcase_abs y); lra.
Qed.

End NormLaws.

Section EmbeddingLaws.

Import Described.

(** X16. Whatever the hidden states, every vector the embed handler
    returns has Euclidean norm at most 1 and every coordinate between -1
    and 1; the floor of the normalization never lets a vector grow beyond
    the unit ball. *)
Theorem X16_embeddings_lie_in_unit_ball :
  forall (request : Embedding.EmbedRequest) (st : state) (tok : Tokenizer)
         (m : Model) (encoded : BatchEncoding) (output : tensor R)
         (S H : nat),
    let M := List.length (Embedding.texts request) in
    let args :=
      mkTokenizerArgs (Embedding.texts request) None true TruncationTrue 512 in
    tokenizer st = Some tok ->
    model st = Some m ->
    tok args = Ok encoded ->
    m encoded = Ok output ->
    shape output = [M; S; H] ->
    shape (attention_mask encoded) = [M; S] ->
    exists response,
      fst (Embedding.embed request st) = Ok response
      /\ List.length (Embedding.embeddings response) = M
      /\ Forall (fun v => (l2_norm v <= 1)%R
                          /\ Forall (fun y => (-1 <= y <= 1)%R) v)
           (Embedding.embeddings response).
Proof.
  intros request st tok m encoded output S H M args
         Htok Hm Henc Hout HE Hmask.
  eexists. split; [|split].
  - rewrite (@embed_run request st tok m Htok Hm). fold args.
    rewrite Henc, Hout. cbn [fst rbind].
    apply (embedding_of_run output (attention_mask encoded) HE Hmask).
  - cbn [Embedding.embeddings]. rewrite length_map, length_seq. reflexivity.
  - cbn [Embedding.embeddings]. apply Forall_forall. intros v Hv.
    apply in_map_iff in Hv. destruct Hv as (b & <- & _).
    apply normalized_vector_bounded.
Qed.

Lemma X16_witness :
  let st := Stub.loaded Stub.tokenizer (Stub.encoder 5) in
  exists response,
    fst (Embedding.embed (Embedding.mkEmbedRequest ["a"; "b"]%string) st)
    = Ok response
    /\ Forall (fun v => (l2_norm v <= 1)%R) (Embedding.embeddings response).
Proof.
  intros st.
  destruct (@X16_embeddings_lie_in_unit_ball
              (Embedding.mkEmbedRequest ["a"; "b"]%string) st Stub.tokenizer
              (Stub.encoder 5) (Probe.encoding 2)
              (mkTensor [2; 3; 2] (fun _ => 5%R)) 3 2
              eq_refl eq_refl eq_refl eq_refl eq_refl eq_refl)
    as (response & Hrun & _ & Hball).
  exists response. split; [exact Hrun|].
  apply (Forall_impl _ (fun v Hv => proj1 Hv) Hball).
Defined.

End EmbeddingLaws.

Section PoolingLaws.

Import Described.

Local Open Scope R_scope.

Lemma sum_upto_scale (c : R) (n : nat) (f : nat -> R) :
  sum_upto n (fun j => c * f j) = c * sum_upto n f.
Proof.
  unfold sum_upto. rewrite <- (map_map f (fun y => c * y)).
  apply Rsum_scale.
Qed.

Lemma Rsum_map_le {A : Type} (l : list A) (f g : A -> R) :
  (forall x, In x l -> f x <= g x) -> Rsum (map f l) <= Rsum (map g l).
Proof.
  induction l as [|a l IH]; intros H; simpl; [lra|].
  pose proof (H a (or_introl eq_refl)).
  assert (Rsum (map f l) <= Rsum (map g l))
    by (apply IH; intros x Hx; apply H; right; exact Hx).
  lra.
Qed.

Lemma Rsum_permutation (l l' : list R) :
  Permutation l l' -> Rsum l = Rsum l'.
Proof.
  induction 1 as [|x l l' _ IH|x y l|l l' l'' _ IH1 _ IH2]; simpl.
  - reflexivity.
  - rewrite IH. reflexivity.
  - ring.
  - rewrite IH1. exact IH2.
Qed.

Lemma sum_upto_le (n : nat) (f g : nat -> R) :
  (forall j, (j < n)%nat -> f j <= g j) -> sum_upto n f <= sum_upto n g.
Proof.
  intros H. unfold sum_upto. apply Rsum_map_le.
  intros j Hj. apply in_seq in Hj. apply H. lia.
Qed.

Lemma Rsum_map_ge_term {A : Type} (l : list A) (f : A -> R) (a : A) :
  (forall x, In x l -> 0 <= f x) -> In a l -> f a <= Rsum (map f l).
Proof.
  induction l as [|y l IH]; intros Hpos Hin; [contradiction|].
  simpl.
  assert (Hl : 0 <= Rsum (map f l)).
  { apply Rsum_nonneg. apply Forall_forall. intros z Hz.
    apply in_map_iff in Hz. destruct Hz as (x & <- & Hx).
    apply Hpos. right. exact Hx. }
  pose proof (Hpos y (or_introl eq_refl)).
  destruct Hin as [->|Hin]; [lra|].
  assert (f a <= Rsum (map f l))
    by (apply IH; [intros x Hx; apply Hpos; right; exact Hx | exact Hin]).
  lra.
Qed.

(** The number of unmasked positions of a row with a non-negative mask
    that is not all zero is at least 1. *)
Lemma mask_count_ge_1 (mask : tensor Z) (S b : nat) :
  (forall t, (t < S)%nat -> (0 <= get mask [b; t])%Z) ->
  (exists t, (t < S)%nat /\ get mask [b; t] <> 0%Z) ->
  1 <= sum_upto S (fun t => IZR (get mask [b; t])).
Proof.
  intros Hnonneg (t0 & Ht0 & Hnz).
  assert (Hterm : 1 <= IZR (get mask [b; t0])).
  { apply IZR_le. specialize (Hnonneg t0 Ht0). lia. }
  unfold sum_upto.
  pose proof (@Rsum_map_ge_term nat (seq 0 S)
                (fun t => IZR (get mask [b; t])) t0) as Hge.
  cbv beta in Hge.
  assert (IZR (get mask [b; t0])
          <= Rsum (map (fun t => IZR (get mask [b; t])) (seq 0 S))).
  { apply Hge.
    - intros t Ht. apply in_seq in Ht. apply IZR_le. apply Hnonneg. lia.
    - apply in_seq. lia. }
  lra.
Qed.

(** The masked mean is homogeneous in the embeddings. *)
Lemma masked_mean_scale (E E' : tensor R) (mask : tensor Z) (c : R)
    (S b h : nat) :
  (forall t, (t < S)%nat -> get E' [b; t; h] = c * get E [b; t; h]) ->
  masked_mean E' mask S b h = c * masked_mean E mask S b h.
Proof.
  intros Hscale. unfold masked_mean.
  rewrite (@sum_upto_ext_in S
             (fun t => get E' [b; t; h] * IZR (get mask [b; t]))
             (fun t => c * (get E [b; t; h] * IZR (get mask [b; t])))).
  - rewrite sum_upto_scale. unfold Rdiv. ring.
  - intros t Ht. rewrite (Hscale t Ht). ring.
Qed.

(** The masked mean of a row with a non-negative mask that is not all
    zero lies between any two bounds of its unmasked embeddings. *)
Lemma masked_mean_between (E : tensor R) (mask : tensor Z) (S b h : nat)
    (lo hi : R) :
  (forall t, (t < S)%nat -> (0 <= get mask [b; t])%Z) ->
  (exists t, (t < S)%nat /\ get mask [b; t] <> 0%Z) ->
  (forall t, (t < S)%nat -> get mask [b; t] <> 0%Z ->
             lo <= get E [b; t; h] <= hi) ->
  lo <= masked_mean E mask S b h <= hi.
Proof.
  intros Hnonneg Hsome Hbounds.
  pose proof (@mask_count_ge_1 mask S b Hnonneg Hsome) as Hcount.
  unfold masked_mean.
  set (W := sum_upto S (fun t => IZR (get mask [b; t]))) in *.
  set (num := sum_upto S
                (fun t => get E [b; t; h] * IZR (get mask [b; t]))).
  assert (Hfloor : Rmax Embedding.pooling_floor W = W).
  { apply Rmax_right. unfold Embedding.pooling_floor. lra. }
  rewrite Hfloor.
  assert (Hterm : forall t, (t < S)%nat ->
            lo * IZR (get mask [b; t])
            <= get E [b; t; h] * IZR (get mask [b; t])
            <= hi * IZR (get mask [b; t])).
  { intros t Ht.
    assert (Hw : 0 <= IZR (get mask [b; t]))
      by (apply IZR_le; apply Hnonneg; exact Ht).
    destruct (Z.eq_dec (get mask [b; t]) 0) as [Hz|Hnz].
    - rewrite Hz. simpl. lra.
    - specialize (Hbounds t Ht Hnz). nra. }
  assert (Hlo : lo * W <= num).
  { unfold W, num. rewrite <- sum_upto_scale.
    apply sum_upto_le. intros t Ht. apply (Hterm t Ht). }
  assert (Hhi : num <= hi * W).
  { unfold W, num. rewrite <- sum_upto_scale.
    apply sum_upto_le. intros t Ht. apply (Hterm t Ht). }
  assert (HW : 0 < W) by lra.
  split.
  - apply (Rmult_le_reg_r W); [exact HW|].
    unfold Rdiv. rewrite Rmult_assoc, Rinv_l by lra. lra.
  - apply (Rmult_le_reg_r W); [exact HW|].
    unfold Rdiv. rewrite Rmult_assoc, Rinv_l by lra. lra.
Qed.

End PoolingLaws.

Section PoolingTheorems.

Import Described.

(** X17. Mean pooling is an average: for a row whose mask is
    non-negative and not all zero, each pooled value lies between any two
    bounds of the row's embeddings at the unmasked positions; so
    identical unmasked token embeddings pool to that same embedding. *)
Theorem X17_mean_pooling_is_an_average :
  forall (E : tensor R) (mask : tensor Z) (B S H b h : nat) (lo hi : R),
    shape E = [B; S; H] ->
    shape mask = [B; S] ->
    b < B ->
    (forall t, t < S -> (0 <= get mask [b; t])%Z) ->
    (exists t, t < S /\ get mask [b; t] <> 0%Z) ->
    (forall t, t < S -> get mask [b; t] <> 0%Z ->
               (lo <= get E [b; t; h] <= hi)%R) ->
    exists pooled,
      Embedding.mean_pooling E mask = Ok pooled
      /\ (lo <= get pooled [b; h] <= hi)%R.
Proof.
  intros E mask B S H b h lo hi HE HM Hb Hnonneg Hsome Hbounds.
  destruct (mean_pooling_run E mask HE HM) as (pooled & Hp & _ & Hget).
  exists pooled. split; [exact Hp|].
  rewrite (Hget b h Hb).
  apply masked_mean_between; assumption.
Qed.

Lemma X17_witness :
  exists pooled,
    Embedding.mean_pooling Stub.padded_embeddings Stub.padded_mask
    = Ok pooled
    /\ (1 <= get pooled [0%nat; 0%nat] <= 1)%R.
Proof.
  apply (@X17_mean_pooling_is_an_average Stub.padded_embeddings
           Stub.padded_mask 1 3 2 0 0 1%R 1%R eq_refl eq_refl).
  - lia.
  - intros t _. simpl. destruct (t <? 2); lia.
  - exists 0. split; [lia|]. simpl. lia.
  - intros t _ Hnz. simpl in *.
    destruct (t <? 2); [lra | congruence].
Defined.

End PoolingTheorems.

Section ScalingLaws.

Import Described.

Local Open Scope R_scope.

Lemma pooled_row_scale (E E' : tensor R) (mask : tensor Z) (c : R)
    (S H b : nat) :
  (forall t h, (t < S)%nat -> (h < H)%nat ->
     get E' [b; t; h] = c * get E [b; t; h]) ->
  pooled_row E' mask S H b = map (fun x => c * x) (pooled_row E mask S H b).
Proof.
  intros Hscale. unfold pooled_row. rewrite map_map.
  apply map_ext_in. intros h Hh. apply in_seq in Hh.
  apply masked_mean_scale. intros t Ht. apply Hscale; lia.
Qed.

(** Above the floor, the normalized vector of a scaled vector is the
    normalized vector. *)
Lemma normalized_scale (c : R) (v : list R) :
  0 < c ->
  normalize_eps <= l2_norm v ->
  normalize_eps <= c * l2_norm v ->
  let v' := map (fun x => c * x) v in
  map (fun x => x / Rmax (l2_norm v') normalize_eps) v'
  = map (fun x => x / Rmax (l2_norm v) normalize_eps) v.
Proof.
  intros Hc Hn Hcn v'. pose proof normalize_eps_pos as Heps.
  unfold v'. rewrite l2_norm_scale by lra.
  rewrite !Rmax_left by assumption.
  rewrite map_map. apply map_ext. intros x. field. split; lra.
Qed.

End ScalingLaws.

Section ScalingTheorems.

Import Described.

(** X18. The embeddings keep only the direction of the pooled vectors:
    when the hidden states of a batch are all multiplied by one positive
    factor, and every pooled vector has norm at least the floor 1e-12
    before and after, the embed handler returns the same embeddings. *)
Theorem X18_embeddings_invariant_under_scaling :
  forall (request : Embedding.EmbedRequest) (st st' : state)
         (tok : Tokenizer) (m m' : Model) (encoded : BatchEncoding)
         (output output' : tensor R) (S H : nat) (c : R),
    let M := List.length (Embedding.texts request) in
    let args :=
      mkTokenizerArgs (Embedding.texts request) None true TruncationTrue 512 in
    let mask := attention_mask encoded in
    tokenizer st = Some tok -> model st = Some m ->
    tokenizer st' = Some tok -> model st' = Some m' ->
    tok args = Ok encoded ->
    m encoded = Ok output ->
    m' encoded = Ok output' ->
    shape output = [M; S; H] ->
    shape output' = [M; S; H] ->
    shape mask = [M; S] ->
    (0 < c)%R ->
    (forall b t h, b < M -> t < S -> h < H ->
       get output' [b; t; h] = (c * get output [b; t; h])%R) ->
    (forall b, b < M ->
       (1 / 1000000000000 <= l2_norm (pooled_row output mask S H b))%R
       /\ (1 / 1000000000000
           <= c * l2_norm (pooled_row output mask S H b))%R) ->
    fst (Embedding.embed request st') = fst (Embedding.embed request st).
Proof.
  intros request st st' tok m m' encoded output output' S H c M args mask
         Htok Hm Htok' Hm' Henc Hout Hout' HE HE' Hmask Hc Hscale Hnorm.
  rewrite (@embed_run request st tok m Htok Hm).
  rewrite (@embed_run request st' tok m' Htok' Hm').
  fold args. rewrite Henc, Hout, Hout'. cbn [fst rbind].
  rewrite (embedding_of_run output (attention_mask encoded) HE Hmask).
  rewrite (embedding_of_run output' (attention_mask encoded) HE' Hmask).
  f_equal. f_equal.
  apply map_ext_in. intros b Hb. apply in_seq in Hb.
  unfold normalized_row.
  rewrite (@pooled_row_scale output output' (attention_mask encoded) c S H b).
  - destruct (Hnorm b ltac:(lia)) as [Hn Hcn].
    apply normalized_scale; assumption.
  - intros t h Ht Hh. apply Hscale; lia.
Qed.

Lemma X18_witness :
  let request := Embedding.mkEmbedRequest ["a"]%string in
  fst (Embedding.embed request
         (Stub.loaded Stub.tokenizer (Stub.encoder 3)))
  = fst (Embedding.embed request
           (Stub.loaded Stub.tokenizer (Stub.encoder 1))).
Proof.
  intros request.
  assert (Hone : forall h, masked_mean (mkTensor [1; 3; 2] (fun _ => 1%R))
                             (attention_mask (Probe.encoding 1)) 3 0 h
                           = 1%R).
  { intros h. unfold masked_mean, sum_upto, Rsum. simpl.
    rewrite Rmax_right by (unfold Embedding.pooling_floor; lra).
    field. }
  assert (Hnorm : l2_norm (pooled_row (mkTensor [1; 3; 2] (fun _ => 1%R))
                             (attention_mask (Probe.encoding 1)) 3 2 0)
                  = sqrt 2).
  { unfold pooled_row, l2_norm. simpl. rewrite !Hone.
    f_equal. unfold Rsqr. ring. }
  assert (Hsqrt : (1 <= sqrt 2)%R).
  { rewrite <- sqrt_1 at 1. apply sqrt_le_1; lra. }
  apply (@X18_embeddings_invariant_under_scaling request
           (Stub.loaded Stub.tokenizer (Stub.encoder 1))
           (Stub.loaded Stub.tokenizer (Stub.encoder 3))
           Stub.tokenizer (Stub.encoder 1) (Stub.encoder 3)
           (Probe.encoding 1)
           (mkTensor [1; 3; 2] (fun _ => 1%R))
           (mkTensor [1; 3; 2] (fun _ => 3%R)) 3 2 3%R);
    try reflexivity.
  - lra.
  - intros b t h _ _ _. simpl. lra.
  - intros b Hb. simpl in Hb.
    assert (b = 0) by lia. subst b. rewrite Hnorm. split; lra.
Defined.

(** X19. Mean pooling treats the tokens of a text as a bag: when the
    positions of every row are rearranged by one permutation, in the
    embeddings and in the mask alike, the pooled vectors do not change. *)
Theorem X19_mean_pooling_ignores_token_order :
  forall (E E' : tensor R) (mask mask' : tensor Z) (B S H : nat)
         (sigma : nat -> nat),
    shape E = [B; S; H] -> shape E' = [B; S; H] ->
    shape mask = [B; S] -> shape mask' = [B; S] ->
    Permutation (map sigma (seq 0 S)) (seq 0 S) ->
    (forall b t h, b < B -> t < S -> h < H ->
       get E' [b; t; h] = get E [b; sigma t; h]) ->
    (forall b t, b < B -> t < S ->
       get mask' [b; t] = get mask [b; sigma t]) ->
    exists pooled pooled',
      Embedding.mean_pooling E mask = Ok pooled
      /\ Embedding.mean_pooling E' mask' = Ok pooled'
      /\ tolist pooled' = tolist pooled.
Proof.
  intros E E' mask mask' B S H sigma HE HE' HM HM' Hperm Hemb Hmask.
  destruct (mean_pooling_run E mask HE HM) as (pooled & Hp & Hsh & Hget).
  destruct (mean_pooling_run E' mask' HE' HM')
    as (pooled' & Hp' & Hsh' & Hget').
  exists pooled, pooled'. split; [exact Hp|]. split; [exact Hp'|].
  apply (tolist_ext_matrix pooled' pooled Hsh' Hsh).
  intros b h Hb Hh. rewrite (Hget b h Hb), (Hget' b h Hb).
  assert (Hsum : forall f : nat -> R,
            sum_upto S (fun t => f (sigma t)) = sum_upto S f).
  { intros f. unfold sum_upto.
    rewrite <- (map_map sigma f).
    apply Rsum_permutation. apply Permutation_map. exact Hperm. }
  unfold masked_mean. f_equal.
  - rewrite <- (Hsum (fun t => (get E [b; t; h]
                                * IZR (get mask [b; t]))%R)).
    apply sum_upto_ext_in. intros t Ht.
    rewrite (Hemb b t h Hb Ht Hh), (Hmask b t Hb Ht). reflexivity.
  - f_equal.
    rewrite <- (Hsum (fun t => IZR (get mask [b; t]))).
    apply sum_upto_ext_in. intros t Ht.
    rewrite (Hmask b t Hb Ht). reflexivity.
Qed.

Lemma X19_witness :
  exists pooled pooled',
    Embedding.mean_pooling Probe.two_tokens Probe.two_tokens_mask
    = Ok pooled
    /\ Embedding.mean_pooling Probe.two_tokens_swapped Probe.two_tokens_mask
       = Ok pooled'
    /\ tolist pooled' = tolist pooled.
Proof.
  apply (@X19_mean_pooling_ignores_token_order Probe.two_tokens
           Probe.two_tokens_swapped Probe.two_tokens_mask
           Probe.two_tokens_mask 1 2 1 (fun t => 1 - t)
           eq_refl eq_refl eq_refl eq_refl).
  - simpl. apply perm_swap.
  - intros b t h _ Ht _. simpl.
    destruct t as [|[|t]]; [reflexivity | reflexivity | lia].
  - intros b t _ _. reflexivity.
Defined.

End ScalingTheorems.

Section MaskShapes.

Import Described.

(** X20. Mean pooling accepts a mask exactly when it can be broadcast
    over the token embeddings: for embeddings of shape [B; S; H] and a
    mask of shape [B'; S'], it returns a tensor of shape [B; H] when B' is
    B or 1 and S' is S or 1, a mask of one row or one position being
    repeated without notice, and it raises a RuntimeError otherwise. *)
Theorem X20_mean_pooling_accepts_broadcastable_masks :
  forall (E : tensor R) (mask : tensor Z) (B S H B' S' : nat),
    shape E = [B; S; H] ->
    shape mask = [B'; S'] ->
    ((B' = B \/ B' = 1) /\ (S' = S \/ S' = 1) ->
     exists pooled,
       Embedding.mean_pooling E mask = Ok pooled /\ shape pooled = [B; H])
    /\ (~ ((B' = B \/ B' = 1) /\ (S' = S \/ S' = 1)) ->
        Embedding.mean_pooling E mask = Err RuntimeError).
Proof.
  intros E mask B S H B' S' HE HM.
  destruct E as [she g]; destruct mask as [shm gm].
  simpl in HE, HM; subst she shm.
  unfold Embedding.mean_pooling, expand, unsqueeze_last.
  cbn [shape get app List.length Nat.sub repeat Nat.leb expandable andb].
  assert (Hlast : ((1 =? H) || (1 =? 1)) = true)
    by (rewrite Nat.eqb_refl; apply orb_true_r).
  rewrite Hlast. cbn [andb]. rewrite !andb_true_r.
  destruct (((B' =? B) || (B' =? 1)) && ((S' =? S) || (S' =? 1)))
    eqn:Hcheck.
  - split.
    + intros _. cbn [rbind].
      unfold mul, zip_with. simpl. rewrite shape_eqb_refl. simpl.
      unfold div, zip_with. simpl. rewrite shape_eqb_refl.
      eexists. split; reflexivity.
    + intros Hbad. exfalso. apply Hbad.
      apply andb_prop in Hcheck. destruct Hcheck as [HB HS].
      apply orb_prop in HB. apply orb_prop in HS.
      split.
      * destruct HB as [HB|HB]; apply Nat.eqb_eq in HB; auto.
      * destruct HS as [HS|HS]; apply Nat.eqb_eq in HS; auto.
  - split.
    + intros [HB HS]. exfalso.
      assert (((B' =? B) || (B' =? 1)) = true)
        by (destruct HB as [->| ->]; rewrite Nat.eqb_refl;
            [reflexivity | apply orb_true_r]).
      assert (((S' =? S) || (S' =? 1)) = true)
        by (destruct HS as [->| ->]; rewrite Nat.eqb_refl;
            [reflexivity | apply orb_true_r]).
      rewrite H0, H1 in Hcheck. discriminate.
    + intros _. reflexivity.
Qed.

Lemma X20_witness :
  (exists pooled,
     Embedding.mean_pooling Stub.padded_embeddings Probe.one_position_mask
     = Ok pooled
     /\ shape pooled = [1; 2])
  /\ Embedding.mean_pooling Stub.padded_embeddings Probe.two_tokens_mask
     = Err RuntimeError.
Proof.
  split.
  - destruct (@X20_mean_pooling_accepts_broadcastable_masks
                Stub.padded_embeddings Probe.one_position_mask 1 3 2 1 1
                eq_refl eq_refl) as [Hgood _].
    apply Hgood. split; [left | right]; reflexivity.
  - destruct (@X20_mean_pooling_accepts_broadcastable_masks
                Stub.padded_embeddings Probe.two_tokens_mask 1 3 2 1 2
                eq_refl eq_refl) as [_ Hbad].
    apply Hbad. intros [_ [H|H]]; discriminate.
Defined.

End MaskShapes.

(** ** Start-up *)

Section Startup.

Import Described.

(** X21. The start-up of the cross-encoder service calls neither the
    tokenizer nor the model. When the weights cannot be loaded it raises
    and assigns nothing. When the weights load but the tokenizer does not,
    it raises after the quantized model has been assigned, the tokenizer
    global being left as it was. When both load, the globals hold the
    quantized model and the tokenizer. *)
Theorem X21_cross_encoder_startup_outcomes :
  forall (load_model : string -> result Model)
         (load_tokenizer : string -> result Tokenizer)
         (quantize : Model -> Model) (st : state),
    let run :=
      CrossEncoder.lifespan_startup load_model load_tokenizer quantize st in
    calls (snd run) = calls st
    /\ match load_model CrossEncoder.model_id,
             load_tokenizer CrossEncoder.model_id with
       | Err e, _ => run = (Err e, st)
       | Ok m, Err e =>
           run = (Err e, mkState (Some (quantize m)) (tokenizer st) (calls st))
       | Ok m, Ok t =>
           run = (Ok tt, mkState (Some (quantize m)) (Some t) (calls st))
       end.
Proof.
  intros load_model load_tokenizer quantize st run.
  unfold run, CrossEncoder.lifespan_startup. unfold_prog.
  destruct (load_model CrossEncoder.model_id) as [m|e]; cbn.
  - destruct (load_tokenizer CrossEncoder.model_id) as [t|e]; cbn;
      split; reflexivity.
  - split; reflexivity.
Qed.

(** X22. The start-up of the embedding service calls neither the
    tokenizer nor the model, and loads in the other order. When the
    tokenizer cannot be loaded it raises and assigns nothing. When the
    tokenizer loads but the weights do not, it raises after the tokenizer
    has been assigned, the model global being left as it was. When both
    load, the globals hold the tokenizer and the quantized model. *)
Theorem X22_embedding_startup_outcomes :
  forall (load_tokenizer : string -> result Tokenizer)
         (load_model : string -> result Model)
         (quantize : Model -> Model) (st : state),
    let run :=
      Embedding.lifespan_startup load_tokenizer load_model quantize st in
    calls (snd run) = calls st
    /\ match load_tokenizer Embedding.model_id,
             load_model Embedding.model_id with
       | Err e, _ => run = (Err e, st)
       | Ok t, Err e =>
           run = (Err e, mkState (model st) (Some t) (calls st))
       | Ok t, Ok m =>
           run = (Ok tt, mkState (Some (quantize m)) (Some t) (calls st))
       end.
Proof.
  intros load_tokenizer load_model quantize st run.
  unfold run, Embedding.lifespan_startup. unfold_prog.
  destruct (load_tokenizer Embedding.model_id) as [t|e]; cbn.
  - destruct (load_model Embedding.model_id) as [m|e]; cbn;
      split; reflexivity.
  - split; reflexivity.
Qed.

(** X23. A rerank request served after a successful start-up is scored
    by the quantized model, never by the model as it was loaded: the
    logits are those that the quantized model returns for the features of
    the tokenizer that was loaded, and the log gains that tokenizer call
    and that model call. *)
Theorem X23_rerank_after_startup_uses_quantized_model :
  forall (load_model : string -> result Model)
         (load_tokenizer : string -> result Tokenizer)
         (quantize : Model -> Model) (m : Model) (t : Tokenizer)
         (request : CrossEncoder.RerankRequest) (features : BatchEncoding)
         (st : state),
    let args :=
      mkTokenizerArgs
        (repeat (CrossEncoder.query request)
           (List.length (CrossEncoder.documents request)))
        (Some (CrossEncoder.documents request)) true TruncationTrue 512 in
    let started := mkState (Some (quantize m)) (Some t) (calls st) in
    load_model CrossEncoder.model_id = Ok m ->
    load_tokenizer CrossEncoder.model_id = Ok t ->
    t args = Ok features ->
    Runtime.bind
      (CrossEncoder.lifespan_startup load_model load_tokenizer quantize)
      (fun _ => CrossEncoder.rerank request) st
    = (rbind (quantize m features) response_of,
       logged (logged started (TokenizerCall args)) (ModelCall features)).
Proof.
  intros load_model load_tokenizer quantize m t request features st
         args started Hm Ht Hfeat.
  unfold Runtime.bind at 1.
  rewrite (@cross_encoder_startup_loads load_model load_tokenizer quantize
             m t st Hm Ht).
  fold started.
  apply (@rerank_run request started t (quantize m) features
           eq_refl eq_refl Hfeat).
Qed.

Lemma X23_witness :
  let request := CrossEncoder.mkRerankRequest "q" ["d"]%string in
  fst (Runtime.bind
         (CrossEncoder.lifespan_startup
            (fun _ => Ok Probe.two_label_classifier)
            (fun _ => Ok Stub.tokenizer)
            (fun _ => Stub.classifier))
         (fun _ => CrossEncoder.rerank request) initial_state)
  = Ok (CrossEncoder.mkRerankResponse [sigmoid_fn (INR 0)]).
Proof.
  intros request.
  rewrite (@X23_rerank_after_startup_uses_quantized_model
             (fun _ => Ok Probe.two_label_classifier)
             (fun _ => Ok Stub.tokenizer)
             (fun _ => Stub.classifier)
             Probe.two_label_classifier Stub.tokenizer request
             (Probe.encoding 1) initial_state eq_refl eq_refl eq_refl).
  reflexivity.
Defined.

(** X24. An embed request served after a successful start-up is encoded
    by the quantized model, never by the model as it was loaded: the
    hidden states are those that the quantized model returns for the
    encoding of the tokenizer that was loaded, and the log gains that
    tokenizer call and that model call. *)
Theorem X24_embed_after_startup_uses_quantized_model :
  forall (load_tokenizer : string -> result Tokenizer)
         (load_model : string -> result Model)
         (quantize : Model -> Model) (m : Model) (t : Tokenizer)
         (request : Embedding.EmbedRequest) (encoded : BatchEncoding)
         (st : state),
    let args :=
      mkTokenizerArgs (Embedding.texts request) None true TruncationTrue 512 in
    let started := mkState (Some (quantize m)) (Some t) (calls st) in
    load_tokenizer Embedding.model_id = Ok t ->
    load_model Embedding.model_id = Ok m ->
    t args = Ok encoded ->
    Runtime.bind
      (Embedding.lifespan_startup load_tokenizer load_model quantize)
      (fun _ => Embedding.embed request) st
    = (rbind (quantize m encoded)
         (fun output => embedding_of output (attention_mask encoded)),
       logged (logged started (TokenizerCall args)) (ModelCall encoded)).
Proof.
  intros load_tokenizer load_model quantize m t request encoded st
         args started Ht Hm Henc.
  unfold Runtime.bind at 1.
  rewrite (@embedding_startup_loads load_tokenizer load_model quantize
             m t st Ht Hm).
  fold started.
  rewrite (@embed_run request started t (quantize m) eq_refl eq_refl).
  fold args. rewrite Henc. reflexivity.
Qed.

Lemma X24_witness :
  let request := Embedding.mkEmbedRequest []%list in
  fst (Runtime.bind
         (Embedding.lifespan_startup
            (fun _ => Ok Stub.tokenizer)
            (fun _ => Ok Stub.classifier)
            (fun _ => Stub.encoder 1))
         (fun _ => Embedding.embed request) initial_state)
  = Ok (Embedding.mkEmbedResponse [] 0).
Proof.
  intros request.
  rewrite (@X24_embed_after_startup_uses_quantized_model
             (fun _ => Ok Stub.tokenizer)
             (fun _ => Ok Stub.classifier)
             (fun _ => Stub.encoder 1)
             Stub.classifier Stub.tokenizer request
             (Probe.encoding 0) initial_state eq_refl eq_refl eq_refl).
  cbn [fst].
  change (Stub.encoder 1 (Probe.encoding 0))
    with (Ok (mkTensor [0; 3; 2] (fun _ : list nat => 1%R))).
  cbn [rbind].
  rewrite (@embedding_of_run (mkTensor [0; 3; 2] (fun _ => 1%R))
             (attention_mask (Probe.encoding 0)) 0 3 2 eq_refl eq_refl).
  reflexivity.
Defined.

End Startup.

(** ** Exceptions of the external callables *)

Section Propagation.

Import Described.

(** X25. The rerank handler passes on the exceptions of its
    collaborators unchanged: an exception of the tokenizer is the outcome
    of the request and the model is not called; an exception of the model
    is the outcome of the request, after the tokenizer call and the model
    call. No default score is returned in either case. *)
Theorem X25_rerank_propagates_exceptions :
  forall (request : CrossEncoder.RerankRequest) (st : state)
         (tok : Tokenizer) (m : Model) (e : exn),
    let args :=
      mkTokenizerArgs
        (repeat (CrossEncoder.query request)
           (List.length (CrossEncoder.documents request)))
        (Some (CrossEncoder.documents request)) true TruncationTrue 512 in
    tokenizer st = Some tok ->
    model st = Some m ->
    (tok args = Err e ->
     CrossEncoder.rerank request st
     = (Err e, logged st (TokenizerCall args)))
    /\ (forall features,
          tok args = Ok features ->
          m features = Err e ->
          CrossEncoder.rerank request st
          = (Err e,
             logged (logged st (TokenizerCall args)) (ModelCall features))).
Proof.
  intros request st tok m e args Htok Hm. split.
  - intros Herr. apply (@rerank_calls_tokenizer request st tok e Htok Herr).
  - intros features Hfeat Herr.
    rewrite (@rerank_run request st tok m features Htok Hm Hfeat).
    rewrite Herr. reflexivity.
Qed.

Lemma X25_witness :
  let request := CrossEncoder.mkRerankRequest "q" ["d"]%string in
  let st := Stub.loaded Probe.failing_tokenizer Stub.classifier in
  fst (CrossEncoder.rerank request st) = Err (Raised "IndexError")
  /\ model_calls (snd (CrossEncoder.rerank request st)) = 0.
Proof.
  intros request st.
  destruct (@X25_rerank_propagates_exceptions request st
              Probe.failing_tokenizer Stub.classifier (Raised "IndexError")
              eq_refl eq_refl) as [Htok _].
  rewrite (Htok eq_refl). split; reflexivity.
Defined.

(** X26. The embed handler passes on the exceptions of its collaborators
    unchanged: an exception of the tokenizer is the outcome of the request
    and the model is not called; an exception of the model is the outcome
    of the request, after the tokenizer call and the model call. No default
    embedding is returned in either case. *)
Theorem X26_embed_propagates_exceptions :
  forall (request : Embedding.EmbedRequest) (st : state)
         (tok : Tokenizer) (m : Model) (e : exn),
    let args :=
      mkTokenizerArgs (Embedding.texts request) None true TruncationTrue 512 in
    tokenizer st = Some tok ->
    model st = Some m ->
    (tok args = Err e ->
     Embedding.embed request st = (Err e, logged st (TokenizerCall args)))
    /\ (forall encoded,
          tok args = Ok encoded ->
          m encoded = Err e ->
          Embedding.embed request st
          = (Err e,
             logged (logged st (TokenizerCall args)) (ModelCall encoded))).
Proof.
  intros request st tok m e args Htok Hm.
  rewrite (@embed_run request st tok m Htok Hm). fold args. split.
  - intros Herr. rewrite Herr. reflexivity.
  - intros encoded Henc Herr. rewrite Henc, Herr. reflexivity.
Qed.

Lemma X26_witness :
  let request := Embedding.mkEmbedRequest ["a"]%string in
  let st := Stub.loaded Probe.failing_tokenizer (Stub.encoder 1) in
  fst (Embedding.embed request st) = Err (Raised "IndexError")
  /\ model_calls (snd (Embedding.embed request st)) = 0.
Proof.
  intros request st.
  destruct (@X26_embed_propagates_exceptions request st
              Probe.failing_tokenizer (Stub.encoder 1) (Raised "IndexError")
              eq_refl eq_refl) as [Htok _].
  rewrite (Htok eq_refl). split; reflexivity.
Defined.

End Propagation.
